(** * Peak detection: batch detector (peak.py) and streaming detector
      (peak_single_sample.py)

    Shallow embedding of the two detectors.  Samples, thresholds and
    prominences are exact rationals [Q] (the rounding of binary floating
    point is not part of the model), indices and distances are [Z], Python
    lists are [list]s, and the attributes of a detector object form a record
    that is threaded explicitly through its methods.  The streaming class is
    embedded a second time over an arbitrary kind of number ([AnyNumber]),
    which agrees with the rational embedding at the rational operations and
    is run on IEEE doubles where infinities and NaN matter. *)

From Stdlib Require Import ZArith QArith Qminmax Lia Lqa.
From Stdlib Require PrimFloat Uint63.
From stdpp Require Import base tactics option list sorting.

Local Open Scope Z_scope.

(** ** Python primitives used by both files *)

(** [x < y] on samples, as a boolean. *)
Definition Qltb (x y : Q) : bool :=
  match (x ?= y)%Q with Lt => true | _ => false end.

(** [x > y]. *)
Definition Qgtb (x y : Q) : bool := Qltb y x.

(** [x <= y]. *)
Definition Qleb (x y : Q) : bool :=
  match (x ?= y)%Q with Gt => false | _ => true end.

(** [l[i]] for an index that is in range.  Every read below whose value is
    used is at an index between [0] and [len(l) - 1] (lemmas
    [getitem_lookup], [elem_of_initial_peaks] and [slot_in_range]), so the
    value returned outside that range is never observed. *)
Definition getitem (l : list Q) (i : Z) : Q := default 0%Q (l !! Z.to_nat i).

(** [l[a:b]] for [0 <= a]. *)
Definition slice (l : list Q) (a b : Z) : list Q :=
  take (Z.to_nat (b - a)) (drop (Z.to_nat a) l).

(** [min(l)] / [np.min(l)]: the first smallest element.  Python raises
    ValueError on an empty sequence; every call site passes a non-empty one. *)
Definition py_min (l : list Q) : Q :=
  match l with
  | [] => 0%Q
  | x :: r => foldl (fun m y => if Qltb y m then y else m) x r
  end.

(** [max(a, b)]: [b] only when it is strictly larger. *)
Definition py_max (a b : Q) : Q := if Qltb a b then b else a.

(** [x[-1]] on a list of indices. *)
Definition last_item (l : list Z) : Z := default 0 (last l).

(** A [while cond: body] loop.  [fuel] bounds the number of iterations; each
    loop below is run with a bound that it provably never exhausts. *)
Fixpoint while_loop {S : Type} (fuel : nat) (cond : S -> bool) (body : S -> S)
    (s : S) : S :=
  match fuel with
  | O => s
  | Datatypes.S f => if cond s then while_loop f cond body (body s) else s
  end.

(** ** peak.py *)
Module Batch.

Record PeakDetector := {
  signal : list Q;
  threshold : Q;
  min_distance : Z;
  prominence : option Q;
  width : option Q
}.

(** [__init__] stores its five arguments and inspects none of them. *)
Definition __init__ (signal : list Q) (threshold : Q) (min_distance : Z)
    (prominence width : option Q) : PeakDetector :=
  {| signal := signal; threshold := threshold; min_distance := min_distance;
     prominence := prominence; width := width |}.

(** The dictionary [peak_properties]. *)
Record PeakProperties := {
  heights : list Q;
  prominences : list (option Q);
  widths : list (option Z)
}.

Definition len (d : PeakDetector) : Z := Z.of_nat (length (signal d)).

(** The test of step 1 at index [i]. *)
Definition is_peak (d : PeakDetector) (i : Z) : bool :=
  Qgtb (getitem (signal d) i) (getitem (signal d) (i - 1) + threshold d)
  && Qgtb (getitem (signal d) i) (getitem (signal d) (i + 1) + threshold d).

(** Step 1: [for i in range(1, len(signal) - 1): if ...: peaks.append(i)]. *)
Definition initial_peaks (d : PeakDetector) : list Z :=
  filter (fun i => is_peak d i) (seqZ 1 (len d - 2)).

Definition _enforce_min_distance (peaks : list Z) (min_distance : Z) : list Z :=
  match peaks with
  | [] | [_] => peaks
  | p0 :: rest =>
      foldl (fun peaks_filtered p =>
               if p - last_item peaks_filtered >=? min_distance
               then peaks_filtered ++ [p]
               else peaks_filtered)
            [p0] rest
  end.

Definition left_base_of (d : PeakDetector) (peak : Z) : Z :=
  while_loop (length (signal d))
    (fun left_base =>
       (0 <? left_base)
       && Qleb (getitem (signal d) left_base) (getitem (signal d) (left_base - 1)))
    (fun left_base => left_base - 1)
    peak.

Definition right_base_of (d : PeakDetector) (peak : Z) : Z :=
  while_loop (length (signal d))
    (fun right_base =>
       (right_base <? len d - 1)
       && Qleb (getitem (signal d) right_base) (getitem (signal d) (right_base + 1)))
    (fun right_base => right_base + 1)
    peak.

Definition _calculate_prominence (d : PeakDetector) (peak : Z) : Q :=
  let left_base := left_base_of d peak in
  let right_base := right_base_of d peak in
  let left_min := py_min (slice (signal d) left_base (peak + 1)) in
  let right_min := py_min (slice (signal d) peak (right_base + 1)) in
  let min_height := py_max left_min right_min in
  (getitem (signal d) peak - min_height)%Q.

(** [half_height] is the exact quotient here, where the program computes a
    rounded double; the two can differ in the last place.  What is proved
    about the width below holds for every value of [half_height]
    ([width_at_half_height]). *)
Definition _calculate_width (d : PeakDetector) (peak : Z) : Z :=
  let peak_height := getitem (signal d) peak in
  let half_height := ((peak_height + threshold d) / 2)%Q in
  let left_idx :=
    while_loop (length (signal d))
      (fun left_idx =>
         (0 <? left_idx) && Qgtb (getitem (signal d) left_idx) half_height)
      (fun left_idx => left_idx - 1)
      peak in
  let right_idx :=
    while_loop (length (signal d))
      (fun right_idx =>
         (right_idx <? len d - 1)
         && Qgtb (getitem (signal d) right_idx) half_height)
      (fun right_idx => right_idx + 1)
      peak in
  right_idx - left_idx.

(** Whether the body of the step 3 loop reaches its three [append]s for
    [peak], i.e. neither [continue] is taken. *)
Definition passes_filters (d : PeakDetector) (peak : Z) : bool :=
  match prominence d with
  | Some p => negb (Qltb (_calculate_prominence d peak) p)
  | None => true
  end
  &&
  match width d with
  | Some w => negb (Qltb (inject_Z (_calculate_width d peak)) w)
  | None => true
  end.

(** One iteration of the step 3 loop. *)
Definition properties_step (d : PeakDetector) (peak_properties : PeakProperties)
    (peak : Z) : PeakProperties :=
  let height := getitem (signal d) peak in
  let prom :=
    match prominence d with
    | Some _ => Some (_calculate_prominence d peak)
    | None => None
    end in
  let w :=
    match width d with
    | Some _ => Some (_calculate_width d peak)
    | None => None
    end in
  if passes_filters d peak then
    {| heights := heights peak_properties ++ [height];
       prominences := prominences peak_properties ++ [prom];
       widths := widths peak_properties ++ [w] |}
  else peak_properties.

Definition detect_peaks (d : PeakDetector) : list Z * PeakProperties :=
  let peaks := initial_peaks d in
  let peaks := _enforce_min_distance peaks (min_distance d) in
  let peak_properties :=
    foldl (properties_step d)
          {| heights := []; prominences := []; widths := [] |} peaks in
  (peaks, peak_properties).

End Batch.

(** ** peak_single_sample.py *)
Module Streaming.

(** A peak is the tuple [(peak_position, peak_value)]. *)
Definition peak_t : Type := Z * Q.

Record PeakDetectorSingleSample := {
  buffer_size : Z;
  threshold : Q;
  min_distance : Z;
  prominence : option Q;
  width : option Q;
  buffer : list Q;
  buffer_index : Z;
  potential_peaks : list peak_t;
  confirmed_peaks : list peak_t;
  sample_count : Z
}.

(** Attribute assignments. *)
Definition set_buffer (d : PeakDetectorSingleSample) (b : list Q) :=
  {| buffer_size := buffer_size d; threshold := threshold d;
     min_distance := min_distance d; prominence := prominence d;
     width := width d; buffer := b; buffer_index := buffer_index d;
     potential_peaks := potential_peaks d;
     confirmed_peaks := confirmed_peaks d; sample_count := sample_count d |}.

Definition set_buffer_index (d : PeakDetectorSingleSample) (i : Z) :=
  {| buffer_size := buffer_size d; threshold := threshold d;
     min_distance := min_distance d; prominence := prominence d;
     width := width d; buffer := buffer d; buffer_index := i;
     potential_peaks := potential_peaks d;
     confirmed_peaks := confirmed_peaks d; sample_count := sample_count d |}.

Definition set_potential_peaks (d : PeakDetectorSingleSample) (l : list peak_t) :=
  {| buffer_size := buffer_size d; threshold := threshold d;
     min_distance := min_distance d; prominence := prominence d;
     width := width d; buffer := buffer d; buffer_index := buffer_index d;
     potential_peaks := l;
     confirmed_peaks := confirmed_peaks d; sample_count := sample_count d |}.

Definition set_confirmed_peaks (d : PeakDetectorSingleSample) (l : list peak_t) :=
  {| buffer_size := buffer_size d; threshold := threshold d;
     min_distance := min_distance d; prominence := prominence d;
     width := width d; buffer := buffer d; buffer_index := buffer_index d;
     potential_peaks := potential_peaks d;
     confirmed_peaks := l; sample_count := sample_count d |}.

Definition set_sample_count (d : PeakDetectorSingleSample) (n : Z) :=
  {| buffer_size := buffer_size d; threshold := threshold d;
     min_distance := min_distance d; prominence := prominence d;
     width := width d; buffer := buffer d; buffer_index := buffer_index d;
     potential_peaks := potential_peaks d;
     confirmed_peaks := confirmed_peaks d; sample_count := n |}.

(** The exceptions the arithmetic and list operations of the class can
    raise.  The class defines and raises none of its own. *)
Inductive exn := IndexError | ZeroDivisionError.

(** Outcome of a method call: the object after a normal return, or the
    exception together with the object as the aborted call left it. *)
Inductive result :=
  | Ok (d : PeakDetectorSingleSample)
  | Raise (e : exn) (d : PeakDetectorSingleSample).

(** The object a constructor call leaves behind when the buffer starts out as
    [fill]. *)
Definition fresh (buffer_size : Z) (threshold : Q) (min_distance : Z)
    (prominence width : option Q) (fill : list Q) : PeakDetectorSingleSample :=
  {| buffer_size := buffer_size; threshold := threshold;
     min_distance := min_distance; prominence := prominence; width := width;
     buffer := fill; buffer_index := 0;
     potential_peaks := []; confirmed_peaks := []; sample_count := 0 |}.

(** [__init__]: no argument is inspected; [[0] * buffer_size] is the empty
    list when [buffer_size <= 0]. *)
Definition __init__ (buffer_size : Z) (threshold : Q) (min_distance : Z)
    (prominence width : option Q) : result :=
  Ok (fresh buffer_size threshold min_distance prominence width
        (replicate (Z.to_nat buffer_size) 0%Q)).

(** Truth value of a number used as an [if] condition. *)
Definition truthy_Z (z : Z) : bool := negb (z =? 0).
Definition truthy_Q (q : Q) : bool := negb (Qeq_bool q 0).

Definition _check_potential_peak (d : PeakDetectorSingleSample)
    : PeakDetectorSingleSample :=
  let current_index := (buffer_index d - 2) mod buffer_size d in
  let prev_index := (current_index - 1) mod buffer_size d in
  let next_index := (current_index + 1) mod buffer_size d in
  if Qgtb (getitem (buffer d) current_index)
          (getitem (buffer d) prev_index + threshold d)
     && Qgtb (getitem (buffer d) current_index)
             (getitem (buffer d) next_index + threshold d)
  then set_potential_peaks d
         (potential_peaks d
          ++ [(sample_count d - 2, getitem (buffer d) current_index)])
  else d.

Definition _calculate_prominence (d : PeakDetectorSingleSample) (peak : peak_t)
    : Q :=
  let peak_index := Z.to_nat (fst peak mod buffer_size d) in
  let left_min := py_min (drop peak_index (buffer d) ++ take peak_index (buffer d)) in
  let right_min := py_min (drop peak_index (buffer d) ++ take peak_index (buffer d)) in
  (snd peak - py_max left_min right_min)%Q.

(** One of the two scans of [_calculate_width]; [step] is [-1] for the left
    scan and [1] for the right one.  The loop state is the scan position and
    whether [break] was taken. *)
Definition width_scan (d : PeakDetectorSingleSample) (half_height : Q)
    (peak_index step : Z) : Z :=
  fst (while_loop (length (buffer d))
         (fun st : Z * bool =>
            negb (snd st) && Qgtb (getitem (buffer d) (fst st)) half_height)
         (fun st : Z * bool =>
            let pos := (fst st + step) mod buffer_size d in
            (pos, pos =? peak_index))
         (peak_index, false)).

Definition _calculate_width (d : PeakDetectorSingleSample) (peak : peak_t) : Z :=
  let half_height := ((snd peak + threshold d) / 2)%Q in
  let peak_index := fst peak mod buffer_size d in
  let left := width_scan d half_height peak_index (-1) in
  let right := width_scan d half_height peak_index 1 in
  if right >? left then right - left else buffer_size d - left + right.

(** The three criteria of [_check_peak_validity]; each is [true] when its
    [return False] is reached. *)
Definition distance_check_fails (d : PeakDetectorSingleSample) (peak : peak_t)
    : bool :=
  truthy_Z (min_distance d)
  && match last (confirmed_peaks d) with
     | Some last_confirmed => fst peak - fst last_confirmed <? min_distance d
     | None => false
     end.

Definition prominence_check_fails (d : PeakDetectorSingleSample) (peak : peak_t)
    : bool :=
  match prominence d with
  | Some p => truthy_Q p && Qltb (_calculate_prominence d peak) p
  | None => false
  end.

Definition width_check_fails (d : PeakDetectorSingleSample) (peak : peak_t)
    : bool :=
  match width d with
  | Some w => truthy_Q w && Qltb (inject_Z (_calculate_width d peak)) w
  | None => false
  end.

Definition _check_peak_validity (d : PeakDetectorSingleSample) (peak : peak_t)
    : bool :=
  if distance_check_fails d peak then false
  else if prominence_check_fails d peak then false
  else if width_check_fails d peak then false
  else true.

(** One iteration of the loop of [_process_potential_peaks]; the loop state is
    the object and the local list [new_potential_peaks]. *)
Definition process_step (st : PeakDetectorSingleSample * list peak_t)
    (peak : peak_t) : PeakDetectorSingleSample * list peak_t :=
  let (d, new_potential_peaks) := st in
  if sample_count d - fst peak >=? buffer_size d / 2 then
    if _check_peak_validity d peak
    then (set_confirmed_peaks d (confirmed_peaks d ++ [peak]), new_potential_peaks)
    else (d, new_potential_peaks)
  else (d, new_potential_peaks ++ [peak]).

Definition _process_potential_peaks (d : PeakDetectorSingleSample)
    : PeakDetectorSingleSample :=
  let (d', new_potential_peaks) :=
    foldl process_step (d, []) (potential_peaks d) in
  set_potential_peaks d' new_potential_peaks.

(** [add_sample]; the returned list is [confirmed_peaks] of the resulting
    object.  The item assignment raises IndexError when [buffer_index] is not
    a position of [buffer], and [%] raises ZeroDivisionError on a zero
    [buffer_size]. *)
Definition add_sample (d : PeakDetectorSingleSample) (sample : Q) : result :=
  let d := set_sample_count d (sample_count d + 1) in
  if (0 <=? buffer_index d) && (buffer_index d <? Z.of_nat (length (buffer d)))
  then
    let d := set_buffer d (<[Z.to_nat (buffer_index d) := sample]> (buffer d)) in
    if buffer_size d =? 0 then Raise ZeroDivisionError d
    else
      let d := set_buffer_index d ((buffer_index d + 1) mod buffer_size d) in
      let d := if sample_count d >=? 3 then _check_potential_peak d else d in
      let d :=
        if sample_count d >=? buffer_size d then _process_potential_peaks d
        else d in
      Ok d
  else Raise IndexError d.

Definition get_peaks (d : PeakDetectorSingleSample) : list peak_t :=
  confirmed_peaks d.

(** A caller feeding [samples] one by one; an exception ends the run. *)
Fixpoint ingest (d : PeakDetectorSingleSample) (samples : list Q) : result :=
  match samples with
  | [] => Ok d
  | sample :: rest =>
      match add_sample d sample with
      | Ok d' => ingest d' rest
      | Raise e d' => Raise e d'
      end
  end.

(** Construction followed by a run. *)
Definition run (buffer_size : Z) (threshold : Q) (min_distance : Z)
    (prominence width : option Q) (samples : list Q) : result :=
  match __init__ buffer_size threshold min_distance prominence width with
  | Ok d => ingest d samples
  | Raise e d => Raise e d
  end.

(** *** The phases of [add_sample], and the predicates of the proofs *)

(** The object an [add_sample] call leaves behind, however it ends. *)
Definition state_of (r : result) : PeakDetectorSingleSample :=
  match r with Ok d | Raise _ d => d end.

(** After the counter increment, the item assignment and the cursor
    advance. *)
Definition stored (d : PeakDetectorSingleSample) (sample : Q) :=
  let d := set_sample_count d (sample_count d + 1) in
  let d := set_buffer d (<[Z.to_nat (buffer_index d) := sample]> (buffer d)) in
  set_buffer_index d ((buffer_index d + 1) mod buffer_size d).

(** After the candidate test. *)
Definition checked (d : PeakDetectorSingleSample) (sample : Q) :=
  let d := stored d sample in
  if sample_count d >=? 3 then _check_potential_peak d else d.

(** After the resolution of the pending candidates. *)
Definition processed (d : PeakDetectorSingleSample) (sample : Q) :=
  let d := checked d sample in
  if sample_count d >=? buffer_size d then _process_potential_peaks d else d.

(** The age test of [_process_potential_peaks]. *)
Definition is_old (d : PeakDetectorSingleSample) (peak : peak_t) : bool :=
  sample_count d - fst peak >=? buffer_size d / 2.

(** The effect of one old candidate on the confirmed list. *)
Definition confirm_step (d : PeakDetectorSingleSample) (confirmed : list peak_t)
    (peak : peak_t) : list peak_t :=
  if _check_peak_validity (set_confirmed_peaks d confirmed) peak
  then confirmed ++ [peak] else confirmed.

(** The buffer has [buffer_size >= 1] slots and the cursor is where
    [sample_count] samples put it. *)
Definition wf (d : PeakDetectorSingleSample) : Prop :=
  1 <= buffer_size d
  /\ Z.of_nat (length (buffer d)) = buffer_size d
  /\ 0 <= sample_count d
  /\ buffer_index d = sample_count d mod buffer_size d.

(** Confirmed and pending positions increase, and all lie at least two
    samples back. *)
Definition ordered (d : PeakDetectorSingleSample) : Prop :=
  StronglySorted (fun a b : peak_t => fst a < fst b)
                 (confirmed_peaks d ++ potential_peaks d)
  /\ Forall (fun pk => fst pk <= sample_count d - 2)
            (confirmed_peaks d ++ potential_peaks d).

(** Every pending candidate is not yet due, and its recorded value still
    sits in its buffer slot. *)
Definition pending_fresh (d : PeakDetectorSingleSample) : Prop :=
  Forall (fun pk =>
            0 <= fst pk <= sample_count d - 2
            /\ (sample_count d < buffer_size d
                \/ sample_count d - fst pk < buffer_size d / 2)
            /\ buffer d !! Z.to_nat (fst pk mod buffer_size d) = Some (snd pk))
         (potential_peaks d).

(** The recorded value of every pending candidate sits in its slot. *)
Definition in_window (d : PeakDetectorSingleSample) : Prop :=
  Forall (fun pk =>
            buffer d !! Z.to_nat (fst pk mod buffer_size d) = Some (snd pk))
         (potential_peaks d).

(** Two objects that differ at most in the buffer slots no sample has been
    written to yet. *)
Definition agree_on_written (d e : PeakDetectorSingleSample) : Prop :=
  buffer_size d = buffer_size e /\ threshold d = threshold e
  /\ min_distance d = min_distance e /\ prominence d = prominence e
  /\ width d = width e /\ buffer_index d = buffer_index e
  /\ potential_peaks d = potential_peaks e
  /\ confirmed_peaks d = confirmed_peaks e
  /\ sample_count d = sample_count e
  /\ length (buffer d) = length (buffer e)
  /\ forall j : nat, Z.of_nat j < sample_count d ->
       buffer d !! j = buffer e !! j.

(** Order on an optional filter level: absent is below every level. *)
Definition opt_le (a b : option Q) : Prop :=
  match a, b with
  | None, _ => True
  | Some x, Some y => (x <= y)%Q
  | Some _, None => False
  end.

(** The confirmed list [c1] is ahead of [c2]: it is longer, or as long and
    ends no later. *)
Definition ahead (c1 c2 : list peak_t) : Prop :=
  (length c2 < length c1)%nat
  \/ (length c2 = length c1
      /\ match last c1, last c2 with
         | Some a, Some b => fst a <= fst b
         | _, _ => True
         end).

(** Two detectors fed the same samples, the second with filter levels at
    least those of the first. *)
Definition lockstep (d e : PeakDetectorSingleSample) : Prop :=
  buffer_size d = buffer_size e /\ threshold d = threshold e
  /\ min_distance d = min_distance e
  /\ opt_le (prominence d) (prominence e)
  /\ opt_le (width d) (width e)
  /\ buffer d = buffer e /\ buffer_index d = buffer_index e
  /\ potential_peaks d = potential_peaks e
  /\ sample_count d = sample_count e
  /\ ahead (confirmed_peaks d) (confirmed_peaks e).

End Streaming.

(** ** Formulations in the words of the specification, and fixed inputs *)
Module Spec.

(** The distance filter as the specification words it: scan left to right
    and keep a candidate iff its index minus the index of the last kept
    candidate is at least [min_distance]. *)
Fixpoint keep_after (min_distance last_kept : Z) (candidates : list Z) : list Z :=
  match candidates with
  | [] => []
  | c :: rest =>
      if c - last_kept >=? min_distance
      then c :: keep_after min_distance c rest
      else keep_after min_distance last_kept rest
  end.

(** The first candidate is always kept. *)
Definition distance_filter (min_distance : Z) (candidates : list Z) : list Z :=
  match candidates with
  | [] => []
  | c :: rest => c :: keep_after min_distance c rest
  end.

(** Base-finding as the specification describes it: descend from the peak
    until the signal starts to rise again. *)
Definition descend_left (s : list Q) (peak : Z) : Z :=
  while_loop (length s)
    (fun b => (0 <? b) && Qleb (getitem s (b - 1)) (getitem s b))
    (fun b => b - 1) peak.

Definition descend_right (s : list Q) (peak : Z) : Z :=
  while_loop (length s)
    (fun b => (b <? Z.of_nat (length s) - 1)
              && Qleb (getitem s (b + 1)) (getitem s b))
    (fun b => b + 1) peak.

Definition prominence_by_descent (s : list Q) (peak : Z) : Q :=
  (getitem s peak
   - py_max (py_min (slice s (descend_left s peak) (peak + 1)))
            (py_min (slice s peak (descend_right s peak + 1))))%Q.

End Spec.

(** The signal of the isolated-spike example. *)
Definition spike_signal : list Q := [0; 1; 0; 2; 0; 1; 0]%Q.

Definition spike_detector (min_distance : Z) : Batch.PeakDetector :=
  {| Batch.signal := spike_signal; Batch.threshold := 0;
     Batch.min_distance := min_distance;
     Batch.prominence := None; Batch.width := None |}.

(** A single peak of height 5 on a slope. *)
Definition ridge_detector : Batch.PeakDetector :=
  {| Batch.signal := [0; 1; 5; 1; 0]%Q; Batch.threshold := 0;
     Batch.min_distance := 1;
     Batch.prominence := Some 1%Q; Batch.width := None |}.

(** One narrow peak and a width filter that it does not pass. *)
Definition narrow_detector : Batch.PeakDetector :=
  {| Batch.signal := [0; 1; 0]%Q; Batch.threshold := 0;
     Batch.min_distance := 1;
     Batch.prominence := None; Batch.width := Some 5%Q |}.

(** A stream with one early spike, for a window of ten samples. *)
Definition early_spike : list Q := [0; 1; 0; 0; 0; 0]%Q.
Definition early_spike_full : list Q := [0; 1; 0; 0; 0; 0; 0; 0; 0; 0]%Q.

(** A streaming detector of four slots, freshly constructed. *)
Definition four_slots : Streaming.PeakDetectorSingleSample :=
  Streaming.fresh 4 0 1 None None [0; 0; 0; 0]%Q.

(** ** peak_single_sample.py over any kind of number

    The class never looks at what kind of number a sample is: it stores it,
    adds the threshold, halves, subtracts and compares.  Here the same
    methods are written once more with those operations as a parameter, so
    that they can be run on IEEE doubles, infinities and NaN included, as
    well as on rationals. *)
Module AnyNumber.

(** The operations the class applies to samples, threshold and levels. *)
Record number_ops (num : Type) := {
  zero : num;
  of_int : Z -> num;
  add : num -> num -> num;
  sub : num -> num -> num;
  div : num -> num -> num;
  gt : num -> num -> bool;
  lt : num -> num -> bool;
  truthy : num -> bool
}.
Arguments zero {num}.
Arguments of_int {num}.
Arguments add {num}.
Arguments sub {num}.
Arguments div {num}.
Arguments gt {num}.
Arguments lt {num}.
Arguments truthy {num}.

Record PeakDetectorSingleSample (num : Type) := {
  buffer_size : Z;
  threshold : num;
  min_distance : Z;
  prominence : option num;
  width : option num;
  buffer : list num;
  buffer_index : Z;
  potential_peaks : list (Z * num);
  confirmed_peaks : list (Z * num);
  sample_count : Z
}.
Arguments buffer_size {num}.
Arguments threshold {num}.
Arguments min_distance {num}.
Arguments prominence {num}.
Arguments width {num}.
Arguments buffer {num}.
Arguments buffer_index {num}.
Arguments potential_peaks {num}.
Arguments confirmed_peaks {num}.
Arguments sample_count {num}.

Inductive result (num : Type) :=
  | Ok (d : PeakDetectorSingleSample num)
  | Raise (e : Streaming.exn) (d : PeakDetectorSingleSample num).
Arguments Ok {num}.
Arguments Raise {num}.

Section Methods.
Context {num : Type} (O : number_ops num).

Definition set_buffer (d : PeakDetectorSingleSample num) (b : list num) :=
  {| buffer_size := buffer_size d; threshold := threshold d;
     min_distance := min_distance d; prominence := prominence d;
     width := width d; buffer := b; buffer_index := buffer_index d;
     potential_peaks := potential_peaks d;
     confirmed_peaks := confirmed_peaks d; sample_count := sample_count d |}.

Definition set_buffer_index (d : PeakDetectorSingleSample num) (i : Z) :=
  {| buffer_size := buffer_size d; threshold := threshold d;
     min_distance := min_distance d; prominence := prominence d;
     width := width d; buffer := buffer d; buffer_index := i;
     potential_peaks := potential_peaks d;
     confirmed_peaks := confirmed_peaks d; sample_count := sample_count d |}.

Definition set_potential_peaks (d : PeakDetectorSingleSample num)
    (l : list (Z * num)) :=
  {| buffer_size := buffer_size d; threshold := threshold d;
     min_distance := min_distance d; prominence := prominence d;
     width := width d; buffer := buffer d; buffer_index := buffer_index d;
     potential_peaks := l;
     confirmed_peaks := confirmed_peaks d; sample_count := sample_count d |}.

Definition set_confirmed_peaks (d : PeakDetectorSingleSample num)
    (l : list (Z * num)) :=
  {| buffer_size := buffer_size d; threshold := threshold d;
     min_distance := min_distance d; prominence := prominence d;
     width := width d; buffer := buffer d; buffer_index := buffer_index d;
     potential_peaks := potential_peaks d;
     confirmed_peaks := l; sample_count := sample_count d |}.

Definition set_sample_count (d : PeakDetectorSingleSample num) (n : Z) :=
  {| buffer_size := buffer_size d; threshold := threshold d;
     min_distance := min_distance d; prominence := prominence d;
     width := width d; buffer := buffer d; buffer_index := buffer_index d;
     potential_peaks := potential_peaks d;
     confirmed_peaks := confirmed_peaks d; sample_count := n |}.

(** [l[i]], [min(l)] and [max(a, b)] with the comparisons of [O]. *)
Definition getitem (l : list num) (i : Z) : num :=
  default (zero O) (l !! Z.to_nat i).

Definition py_min (l : list num) : num :=
  match l with
  | [] => zero O
  | x :: r => foldl (fun m y => if lt O y m then y else m) x r
  end.

Definition py_max (a b : num) : num := if gt O b a then b else a.

Definition __init__ (buffer_size : Z) (threshold : num) (min_distance : Z)
    (prominence width : option num) : result num :=
  Ok {| buffer_size := buffer_size; threshold := threshold;
        min_distance := min_distance; prominence := prominence;
        width := width;
        buffer := replicate (Z.to_nat buffer_size) (zero O);
        buffer_index := 0;
        potential_peaks := []; confirmed_peaks := []; sample_count := 0 |}.

Definition _check_potential_peak (d : PeakDetectorSingleSample num)
    : PeakDetectorSingleSample num :=
  let current_index := (buffer_index d - 2) mod buffer_size d in
  let prev_index := (current_index - 1) mod buffer_size d in
  let next_index := (current_index + 1) mod buffer_size d in
  if gt O (getitem (buffer d) current_index)
          (add O (getitem (buffer d) prev_index) (threshold d))
     && gt O (getitem (buffer d) current_index)
             (add O (getitem (buffer d) next_index) (threshold d))
  then set_potential_peaks d
         (potential_peaks d
          ++ [(sample_count d - 2, getitem (buffer d) current_index)])
  else d.

Definition _calculate_prominence (d : PeakDetectorSingleSample num)
    (peak : Z * num) : num :=
  let peak_index := Z.to_nat (fst peak mod buffer_size d) in
  let left_min := py_min (drop peak_index (buffer d) ++ take peak_index (buffer d)) in
  let right_min := py_min (drop peak_index (buffer d) ++ take peak_index (buffer d)) in
  sub O (snd peak) (py_max left_min right_min).

Definition width_scan (d : PeakDetectorSingleSample num) (half_height : num)
    (peak_index step : Z) : Z :=
  fst (while_loop (length (buffer d))
         (fun st : Z * bool =>
            negb (snd st) && gt O (getitem (buffer d) (fst st)) half_height)
         (fun st : Z * bool =>
            let pos := (fst st + step) mod buffer_size d in
            (pos, pos =? peak_index))
         (peak_index, false)).

Definition _calculate_width (d : PeakDetectorSingleSample num)
    (peak : Z * num) : Z :=
  let half_height := div O (add O (snd peak) (threshold d)) (of_int O 2) in
  let peak_index := fst peak mod buffer_size d in
  let left := width_scan d half_height peak_index (-1) in
  let right := width_scan d half_height peak_index 1 in
  if right >? left then right - left else buffer_size d - left + right.

Definition _check_peak_validity (d : PeakDetectorSingleSample num)
    (peak : Z * num) : bool :=
  if Streaming.truthy_Z (min_distance d)
     && match last (confirmed_peaks d) with
        | Some last_confirmed => fst peak - fst last_confirmed <? min_distance d
        | None => false
        end
  then false
  else if match prominence d with
          | Some p => truthy O p && lt O (_calculate_prominence d peak) p
          | None => false
          end
  then false
  else if match width d with
          | Some w => truthy O w && lt O (of_int O (_calculate_width d peak)) w
          | None => false
          end
  then false
  else true.

Definition process_step
    (st : PeakDetectorSingleSample num * list (Z * num)) (peak : Z * num)
    : PeakDetectorSingleSample num * list (Z * num) :=
  let (d, new_potential_peaks) := st in
  if sample_count d - fst peak >=? buffer_size d / 2 then
    if _check_peak_validity d peak
    then (set_confirmed_peaks d (confirmed_peaks d ++ [peak]), new_potential_peaks)
    else (d, new_potential_peaks)
  else (d, new_potential_peaks ++ [peak]).

Definition _process_potential_peaks (d : PeakDetectorSingleSample num)
    : PeakDetectorSingleSample num :=
  let (d', new_potential_peaks) :=
    foldl process_step (d, []) (potential_peaks d) in
  set_potential_peaks d' new_potential_peaks.

Definition add_sample (d : PeakDetectorSingleSample num) (sample : num)
    : result num :=
  let d := set_sample_count d (sample_count d + 1) in
  if (0 <=? buffer_index d) && (buffer_index d <? Z.of_nat (length (buffer d)))
  then
    let d := set_buffer d (<[Z.to_nat (buffer_index d) := sample]> (buffer d)) in
    if buffer_size d =? 0 then Raise Streaming.ZeroDivisionError d
    else
      let d := set_buffer_index d ((buffer_index d + 1) mod buffer_size d) in
      let d := if sample_count d >=? 3 then _check_potential_peak d else d in
      let d :=
        if sample_count d >=? buffer_size d then _process_potential_peaks d
        else d in
      Ok d
  else Raise Streaming.IndexError d.

Fixpoint ingest (d : PeakDetectorSingleSample num) (samples : list num)
    : result num :=
  match samples with
  | [] => Ok d
  | sample :: rest =>
      match add_sample d sample with
      | Ok d' => ingest d' rest
      | Raise e d' => Raise e d'
      end
  end.

Definition run (buffer_size : Z) (threshold : num) (min_distance : Z)
    (prominence width : option num) (samples : list num) : result num :=
  match __init__ buffer_size threshold min_distance prominence width with
  | Ok d => ingest d samples
  | Raise e d => Raise e d
  end.

End Methods.

(** Whether a call returned normally. *)
Definition returned {num : Type} (r : result num) : bool :=
  match r with Ok _ => true | Raise _ _ => false end.

Definition state_of {num : Type} (r : result num)
    : PeakDetectorSingleSample num :=
  match r with Ok d | Raise _ d => d end.

(** The buffer has [buffer_size >= 1] slots and the cursor is one of them. *)
Definition wf {num : Type} (d : PeakDetectorSingleSample num) : Prop :=
  1 <= buffer_size d
  /\ Z.of_nat (length (buffer d)) = buffer_size d
  /\ 0 <= buffer_index d < buffer_size d.

End AnyNumber.

(** Rational numbers, with the operations of the rational embedding. *)
Definition rational_ops : AnyNumber.number_ops Q :=
  {| AnyNumber.zero := 0%Q; AnyNumber.of_int := inject_Z;
     AnyNumber.add := Qplus; AnyNumber.sub := Qminus; AnyNumber.div := Qdiv;
     AnyNumber.gt := Qgtb; AnyNumber.lt := Qltb;
     AnyNumber.truthy := Streaming.truthy_Q |}.

(** Python floats: IEEE 754 binary64 arithmetic and comparisons.  A NaN is
    not equal to zero, hence true as a condition; no comparison with a NaN
    holds. *)
Definition float_of_int (z : Z) : PrimFloat.float :=
  if z <? 0 then PrimFloat.opp (PrimFloat.of_uint63 (Uint63.of_Z (- z)))
  else PrimFloat.of_uint63 (Uint63.of_Z z).

Definition float_ops : AnyNumber.number_ops PrimFloat.float :=
  {| AnyNumber.zero := PrimFloat.zero; AnyNumber.of_int := float_of_int;
     AnyNumber.add := PrimFloat.add; AnyNumber.sub := PrimFloat.sub;
     AnyNumber.div := PrimFloat.div;
     AnyNumber.gt := fun x y => PrimFloat.ltb y x;
     AnyNumber.lt := PrimFloat.ltb;
     AnyNumber.truthy := fun x => negb (PrimFloat.eqb x PrimFloat.zero) |}.

(** A detector of the rational embedding, as an object over any number. *)
Definition to_any (d : Streaming.PeakDetectorSingleSample)
    : AnyNumber.PeakDetectorSingleSample Q :=
  {| AnyNumber.buffer_size := Streaming.buffer_size d;
     AnyNumber.threshold := Streaming.threshold d;
     AnyNumber.min_distance := Streaming.min_distance d;
     AnyNumber.prominence := Streaming.prominence d;
     AnyNumber.width := Streaming.width d;
     AnyNumber.buffer := Streaming.buffer d;
     AnyNumber.buffer_index := Streaming.buffer_index d;
     AnyNumber.potential_peaks := Streaming.potential_peaks d;
     AnyNumber.confirmed_peaks := Streaming.confirmed_peaks d;
     AnyNumber.sample_count := Streaming.sample_count d |}.

Definition to_any_result (r : Streaming.result) : AnyNumber.result Q :=
  match r with
  | Streaming.Ok d => AnyNumber.Ok (to_any d)
  | Streaming.Raise e d => AnyNumber.Raise e (to_any d)
  end.

(** A caller that goes on calling [add_sample] after an exception. *)
Definition attempts (d : Streaming.PeakDetectorSingleSample)
    (samples : list Q) : Streaming.PeakDetectorSingleSample :=
  foldl (fun d sample => Streaming.state_of (Streaming.add_sample d sample))
        d samples.

(** A window of ten slots after the six samples of [early_spike]; the
    candidate at position 1 is pending. *)
Definition six_samples_in : Streaming.PeakDetectorSingleSample :=
  Streaming.state_of (Streaming.run 10 0 1 None None early_spike).

(** The same six samples on a detector with prominence level 2, which the
    candidate at position 1, of value 1, does not reach. *)
Definition six_samples_in_level_2 : Streaming.PeakDetectorSingleSample :=
  Streaming.state_of (Streaming.run 10 0 1 (Some 2%Q) None early_spike).

(** Streams of doubles with an infinite and with a NaN sample. *)
Definition infinite_spike : list PrimFloat.float :=
  [PrimFloat.zero; PrimFloat.infinity; PrimFloat.zero].
Definition nan_stream : list PrimFloat.float :=
  [PrimFloat.zero; PrimFloat.nan; PrimFloat.one; PrimFloat.zero].

(** The two scans of the batch [_calculate_width] run against a given
    [half_height], whatever its value: the exact quotient or its rounding. *)
Definition width_at_half_height (d : Batch.PeakDetector) (peak : Z)
    (half_height : Q) : Z :=
  let left_idx :=
    while_loop (length (Batch.signal d))
      (fun left_idx =>
         (0 <? left_idx)
         && Qgtb (getitem (Batch.signal d) left_idx) half_height)
      (fun left_idx => left_idx - 1)
      peak in
  let right_idx :=
    while_loop (length (Batch.signal d))
      (fun right_idx =>
         (right_idx <? Batch.len d - 1)
         && Qgtb (getitem (Batch.signal d) right_idx) half_height)
      (fun right_idx => right_idx + 1)
      peak in
  right_idx - left_idx.

(** ** The stream seen as a signal *)

(** The candidates the batch scan finds in the samples ingested so far,
    each paired with its sample. *)
Definition stream_candidates (t : Q) (hist : list Q) : list Streaming.peak_t :=
  (fun i => (i, getitem hist i))
    <$> Batch.initial_peaks (Batch.__init__ hist t 1 None None).

(** The candidate, if any, that the sample [s] arriving after [hist]
    completes: the sample before it, when it passes the two-sided test. *)
Definition new_candidate (t : Q) (hist : list Q) (s : Q)
    : list Streaming.peak_t :=
  let full := hist ++ [s] in
  let i := Z.of_nat (length hist) - 1 in
  if (3 <=? Z.of_nat (length full))
     && Batch.is_peak (Batch.__init__ full t 1 None None) i
  then [(i, getitem full i)] else [].

(** After [n] samples a candidate is due when the window has filled and the
    candidate is at least [B // 2] samples old. *)
Definition due (B n : Z) (pk : Streaming.peak_t) : bool :=
  (B <=? n) && (B / 2 <=? n - fst pk).

(** The buffer holds the last [buffer_size] samples of [hist], sample [k]
    in slot [k mod buffer_size]. *)
Definition holds_recent (d : Streaming.PeakDetectorSingleSample)
    (hist : list Q) : Prop :=
  Streaming.sample_count d = Z.of_nat (length hist)
  /\ forall k : Z,
       0 <= k ->
       Streaming.sample_count d - Streaming.buffer_size d <= k
         < Streaming.sample_count d ->
       Streaming.buffer d !! Z.to_nat (k mod Streaming.buffer_size d)
       = hist !! Z.to_nat k.

(** The pending queue is the not yet due candidates of the stream, and the
    confirmed peaks are chosen, in order, among the due ones. *)
Definition tracks (d : Streaming.PeakDetectorSingleSample) (hist : list Q)
    : Prop :=
  Streaming.potential_peaks d
  = filter (fun pk => negb (due (Streaming.buffer_size d)
                              (Streaming.sample_count d) pk))
      (stream_candidates (Streaming.threshold d) hist)
  /\ Streaming.confirmed_peaks d
     `sublist_of`
     filter (fun pk => due (Streaming.buffer_size d)
                         (Streaming.sample_count d) pk)
       (stream_candidates (Streaming.threshold d) hist).

(** Confirmed peaks increase and are pairwise [min_distance] apart. *)
Definition separated (d : Streaming.PeakDetectorSingleSample) : Prop :=
  StronglySorted
    (fun a b : Streaming.peak_t =>
       fst a < fst b /\ Streaming.min_distance d <= fst b - fst a)
    (Streaming.confirmed_peaks d).

(** * Properties *)

(** ** Comparisons on samples *)

Lemma Qltb_lt (x y : Q) : Qltb x y = true <-> (x < y)%Q.
Proof.
  unfold Qltb. rewrite Qlt_alt. destruct (x ?= y)%Q; split; congruence.
Qed.

Lemma Qltb_ge (x y : Q) : Qltb x y = false <-> (y <= x)%Q.
Proof.
  rewrite <- not_true_iff_false, Qltb_lt. split.
  - apply Qnot_lt_le.
  - apply Qle_not_lt.
Qed.

Lemma Qleb_le (x y : Q) : Qleb x y = true <-> (x <= y)%Q.
Proof.
  unfold Qleb. rewrite Qle_alt. destruct (x ?= y)%Q; split; congruence.
Qed.

Lemma Qleb_gt (x y : Q) : Qleb x y = false <-> (y < x)%Q.
Proof.
  rewrite <- not_true_iff_false, Qleb_le. split.
  - apply Qnot_le_lt.
  - apply Qlt_not_le.
Qed.

Lemma Qltb_irrefl (x : Q) : Qltb x x = false.
Proof. apply Qltb_ge, Qle_refl. Qed.

Lemma py_max_same (x : Q) : py_max x x = x.
Proof. unfold py_max. now rewrite Qltb_irrefl. Qed.

(** ** Loops *)

(** A loop whose condition fails on entry does not run. *)
Lemma while_loop_skip {S : Type} fuel (cond : S -> bool) body s :
  cond s = false -> while_loop fuel cond body s = s.
Proof. destruct fuel; simpl; intros Hc; [done | now rewrite Hc]. Qed.

(** With an invariant and a measure that every iteration decreases, a
    bound at least the measure is never exhausted: the condition is false on
    exit. *)
Lemma while_loop_exit {S : Type} (I : S -> Prop) (measure : S -> nat)
    (cond : S -> bool) body :
  (forall s, I s -> cond s = true ->
             I (body s) /\ (measure (body s) < measure s)%nat) ->
  forall fuel s, I s -> (measure s <= fuel)%nat ->
    cond (while_loop fuel cond body s) = false.
Proof.
  intros Hdec fuel. induction fuel as [|fuel IH]; intros s Hs Hm; simpl.
  - destruct (cond s) eqn:Hc; [|done].
    destruct (Hdec s Hs Hc). lia.
  - destruct (cond s) eqn:Hc; [|done].
    destruct (Hdec s Hs Hc). apply IH; [done|lia].
Qed.

(** An invariant of the body holds on exit. *)
Lemma while_loop_inv {S : Type} (I : S -> Prop) (cond : S -> bool) body :
  (forall s, I s -> cond s = true -> I (body s)) ->
  forall fuel s, I s -> I (while_loop fuel cond body s).
Proof.
  intros Hstep fuel. induction fuel as [|fuel IH]; intros s Hs; simpl; [done|].
  destruct (cond s) eqn:Hc; auto.
Qed.

(** ** The batch distance filter *)
Section DistanceFilter.
Variable min_distance : Z.

Lemma last_item_snoc (l : list Z) (x : Z) : last_item (l ++ [x]) = x.
Proof. unfold last_item. now rewrite last_snoc. Qed.

Lemma foldl_step_keep_after (rest kept : list Z) (l : Z) :
  foldl (fun peaks_filtered p =>
           if p - last_item peaks_filtered >=? min_distance
           then peaks_filtered ++ [p] else peaks_filtered)
        (kept ++ [l]) rest
  = (kept ++ [l]) ++ Spec.keep_after min_distance l rest.
Proof.
  revert kept l. induction rest as [|p rest IH]; intros kept l; simpl.
  - now rewrite app_nil_r.
  - rewrite last_item_snoc.
    destruct (p - l >=? min_distance).
    + rewrite IH. now rewrite <- !app_assoc.
    + apply IH.
Qed.

Lemma enforce_min_distance_spec (peaks : list Z) :
  Batch._enforce_min_distance peaks min_distance
  = Spec.distance_filter min_distance peaks.
Proof.
  destruct peaks as [|p0 [|p1 rest]]; [done..|].
  unfold Batch._enforce_min_distance, Spec.distance_filter.
  apply (foldl_step_keep_after (p1 :: rest) [] p0).
Qed.

Lemma keep_after_sublist (last_kept : Z) (l : list Z) :
  Spec.keep_after min_distance last_kept l `sublist_of` l.
Proof.
  revert last_kept. induction l as [|c l IH]; intros last_kept; simpl.
  - constructor.
  - destruct (c - last_kept >=? min_distance).
    + apply sublist_skip, IH.
    + apply sublist_cons, IH.
Qed.

Lemma distance_filter_sublist (l : list Z) :
  Spec.distance_filter min_distance l `sublist_of` l.
Proof.
  destruct l as [|c l]; simpl; [constructor|].
  apply sublist_skip, keep_after_sublist.
Qed.

(** On an increasing list, everything kept after [last_kept] is at least
    [min_distance] away from it. *)
Lemma keep_after_gap (last_kept : Z) (l : list Z) :
  StronglySorted Z.lt (last_kept :: l) ->
  Forall (fun x => min_distance <= x - last_kept)
         (Spec.keep_after min_distance last_kept l).
Proof.
  revert last_kept. induction l as [|c l IH]; intros last_kept Hs; simpl.
  - constructor.
  - apply StronglySorted_cons in Hs as [Hlt Hs].
    apply Forall_cons in Hlt as [Hc Hlt].
    destruct (c - last_kept >=? min_distance) eqn:Hge.
    + constructor; [lia|].
      eapply Forall_impl; [apply IH, Hs|]. simpl. intros x Hx. lia.
    + apply IH. apply StronglySorted_cons. split; [done|].
      now apply StronglySorted_cons in Hs as [_ Hs].
Qed.

Lemma keep_after_separated (last_kept : Z) (l : list Z) :
  StronglySorted Z.lt (last_kept :: l) ->
  StronglySorted (fun a b => a < b /\ min_distance <= b - a)
                 (last_kept :: Spec.keep_after min_distance last_kept l).
Proof.
  revert last_kept. induction l as [|c l IH]; intros last_kept Hs.
  - simpl. repeat constructor.
  - pose proof (keep_after_gap last_kept (c :: l) Hs) as Hgap.
    apply StronglySorted_cons. split.
    + apply Forall_forall. intros x Hx. split.
      * apply StronglySorted_cons in Hs as [Hlt _].
        rewrite Forall_forall in Hlt. apply Hlt.
        eapply elem_of_sublist; [apply Hx|]. apply keep_after_sublist.
      * rewrite Forall_forall in Hgap. auto.
    + apply StronglySorted_cons in Hs as [Hlt Hs].
      apply Forall_cons in Hlt as [Hc Hlt]. simpl.
      destruct (c - last_kept >=? min_distance).
      * apply IH, Hs.
      * assert (Hs' : StronglySorted Z.lt (last_kept :: l)).
        { apply StronglySorted_cons. split; [done|].
          now apply StronglySorted_cons in Hs as [_ Hs]. }
        now apply IH, StronglySorted_cons in Hs' as [_ Hs'].
Qed.

Lemma distance_filter_separated (l : list Z) :
  StronglySorted Z.lt l ->
  StronglySorted (fun a b => a < b /\ min_distance <= b - a)
                 (Spec.distance_filter min_distance l).
Proof.
  destruct l as [|c l]; simpl; [constructor|]. apply keep_after_separated.
Qed.
End DistanceFilter.

(** ** The batch detector *)

Lemma StronglySorted_sublist {A : Type} (R : relation A) (l k : list A) :
  l `sublist_of` k -> StronglySorted R k -> StronglySorted R l.
Proof.
  induction 1 as [|x l k Hsub IH|x l k Hsub IH]; intros Hs.
  - constructor.
  - apply StronglySorted_cons in Hs as [Hall Hs].
    apply StronglySorted_cons. split; [|auto].
    rewrite Forall_forall in *. intros y Hy.
    apply Hall. eapply elem_of_sublist; eauto.
  - apply StronglySorted_cons in Hs as [_ Hs]. auto.
Qed.

Lemma seqZ_increasing (m n : Z) : StronglySorted Z.lt (seqZ m n).
Proof.
  remember (Z.to_nat n) as k eqn:Hk. revert m n Hk.
  induction k as [|k IH]; intros m n Hk.
  - rewrite seqZ_nil by lia. constructor.
  - rewrite seqZ_cons by lia. apply StronglySorted_cons. split.
    + apply Forall_forall. intros x Hx. apply elem_of_seqZ in Hx. lia.
    + apply IH. lia.
Qed.

Lemma initial_peaks_increasing (d : Batch.PeakDetector) :
  StronglySorted Z.lt (Batch.initial_peaks d).
Proof.
  eapply StronglySorted_sublist; [|apply seqZ_increasing].
  apply sublist_filter.
Qed.

(** The candidates are interior indices that pass the two-sided test. *)
Lemma elem_of_initial_peaks (d : Batch.PeakDetector) (i : Z) :
  i ∈ Batch.initial_peaks d
  <-> Batch.is_peak d i = true /\ 1 <= i < Batch.len d - 1.
Proof.
  unfold Batch.initial_peaks. rewrite list_elem_of_filter, elem_of_seqZ.
  rewrite Is_true_true. split; intros [? ?]; split; auto; lia.
Qed.

Lemma detect_peaks_increasing (d : Batch.PeakDetector) :
  StronglySorted Z.lt (fst (Batch.detect_peaks d)).
Proof.
  simpl. rewrite enforce_min_distance_spec.
  eapply StronglySorted_sublist; [apply distance_filter_sublist|].
  apply initial_peaks_increasing.
Qed.

(** The three property lists hold one entry for each peak that takes neither
    [continue], in order. *)
Lemma properties_fold (d : Batch.PeakDetector) (peaks : list Z)
    (acc : Batch.PeakProperties) :
  let kept := filter (fun p => Batch.passes_filters d p) peaks in
  let out := foldl (Batch.properties_step d) acc peaks in
  Batch.heights out
    = Batch.heights acc ++ (getitem (Batch.signal d) <$> kept)
  /\ Batch.prominences out
    = Batch.prominences acc
      ++ ((fun p => match Batch.prominence d with
                    | Some _ => Some (Batch._calculate_prominence d p)
                    | None => None
                    end) <$> kept)
  /\ Batch.widths out
    = Batch.widths acc
      ++ ((fun p => match Batch.width d with
                    | Some _ => Some (Batch._calculate_width d p)
                    | None => None
                    end) <$> kept).
Proof.
  revert acc. induction peaks as [|p peaks IH]; intros acc; simpl.
  - now rewrite !app_nil_r.
  - specialize (IH (Batch.properties_step d acc p)). simpl in IH.
    destruct IH as (IH1 & IH2 & IH3). rewrite IH1, IH2, IH3.
    unfold Batch.properties_step. rewrite filter_cons.
    destruct (Batch.passes_filters d p) eqn:Hp; simpl.
    + now rewrite <- !app_assoc.
    + done.
Qed.

(** On a non-negative threshold neither base-finding loop of the batch
    prominence moves away from an accepted peak, and the prominence is
    zero. *)
Lemma batch_prominence_of_peak (d : Batch.PeakDetector) (i : Z) :
  (0 <= Batch.threshold d)%Q ->
  i ∈ Batch.initial_peaks d ->
  Batch.left_base_of d i = i
  /\ Batch.right_base_of d i = i
  /\ (Batch._calculate_prominence d i == 0)%Q.
Proof.
  intros Ht [Hpk Hi]%elem_of_initial_peaks.
  unfold Batch.is_peak in Hpk. apply andb_true_iff in Hpk as [Hl Hr].
  unfold Qgtb in Hl, Hr. apply Qltb_lt in Hl, Hr.
  assert (HL : Batch.left_base_of d i = i).
  { apply while_loop_skip. apply andb_false_iff. right. apply Qleb_gt.
    eapply Qle_lt_trans; [|apply Hl].
    rewrite <- (Qplus_0_r (getitem _ (i - 1))) at 1.
    apply Qplus_le_r, Ht. }
  assert (HR : Batch.right_base_of d i = i).
  { apply while_loop_skip. apply andb_false_iff. right. apply Qleb_gt.
    eapply Qle_lt_trans; [|apply Hr].
    rewrite <- (Qplus_0_r (getitem _ (i + 1))) at 1.
    apply Qplus_le_r, Ht. }
  split; [done|]. split; [done|].
  unfold Batch._calculate_prominence. rewrite HL, HR, py_max_same.
  unfold slice. replace (i + 1 - i) with 1 by lia.
  unfold Batch.len in Hi.
  destruct (lookup_lt_is_Some_2 (Batch.signal d) (Z.to_nat i)) as [x Hx]; [lia|].
  rewrite (drop_S _ x _ Hx). change (Z.to_nat 1) with 1%nat. simpl.
  unfold getitem. rewrite Hx. simpl. ring.
Qed.

(** C5. On the signal [0,1,0,2,0,1,0] with threshold 0, [detect_peaks]
    returns the peaks [1,3,5] for [min_distance = 1] and the peaks [1,5] for
    [min_distance = 3]. *)
Theorem C5_spike_example :
  fst (Batch.detect_peaks (spike_detector 1)) = [1; 3; 5]
  /\ fst (Batch.detect_peaks (spike_detector 3)) = [1; 5].
Proof. split; vm_compute; reflexivity. Qed.

Lemma StronglySorted_elem_of_pair {A : Type} (R : relation A) (l : list A)
    (a b : A) :
  StronglySorted R l -> a ∈ l -> b ∈ l -> a = b \/ R a b \/ R b a.
Proof.
  induction 1 as [|x l Hs IH Hall]; intros Ha Hb.
  - now apply elem_of_nil in Ha.
  - rewrite Forall_forall in Hall.
    apply elem_of_cons in Ha as [->|Ha]; apply elem_of_cons in Hb as [->|Hb];
      auto.
Qed.

(** C6, as the code has it.  [_enforce_min_distance] is the greedy
    left-to-right scan: the first candidate is always kept and each later
    candidate is kept iff its index minus the index of the last kept
    candidate is at least [min_distance].  In an increasing candidate list a
    kept candidate excludes every later candidate that is closer than
    [min_distance] to it; the signal values play no part. *)
Theorem C6_distance_filter_greedy (peaks : list Z) (min_distance : Z) :
  let kept := Batch._enforce_min_distance peaks min_distance in
  kept = Spec.distance_filter min_distance peaks
  /\ head kept = head peaks
  /\ (StronglySorted Z.lt peaks ->
      forall a b : Z,
        a ∈ kept -> b ∈ peaks -> a < b -> b - a < min_distance -> b ∉ kept).
Proof.
  intros kept. subst kept. rewrite enforce_min_distance_spec.
  split; [done|]. split; [now destruct peaks|].
  intros Hs a b Ha _ Hab Hclose Hb.
  pose proof (distance_filter_separated min_distance peaks Hs) as Hsep.
  destruct (StronglySorted_elem_of_pair _ _ a b Hsep Ha Hb) as [?|[?|?]]; lia.
Qed.

Lemma C6_distance_filter_greedy_witness :
  3 ∉ Batch._enforce_min_distance [1; 3; 5] 3.
Proof.
  destruct (C6_distance_filter_greedy [1; 3; 5] 3) as (_ & _ & H).
  apply (H ltac:(repeat constructor) 1 3).
  - change (Batch._enforce_min_distance [1; 3; 5] 3) with [1; 5].
    repeat constructor.
  - repeat constructor.
  - lia.
  - lia.
Defined.

(** C6 as stated fails: of the two candidates 3 and 5, which are closer than
    [min_distance = 3], the earlier one is dropped and the later one kept. *)
Lemma C6_close_pair_counterexample :
  ~ (forall (peaks : list Z) (min_distance a b : Z),
       a ∈ peaks -> b ∈ peaks -> a < b -> b - a < min_distance ->
       a ∈ Batch._enforce_min_distance peaks min_distance
       /\ b ∉ Batch._enforce_min_distance peaks min_distance).
Proof.
  intros H.
  destruct (H [1; 3; 5] 3 3 5) as [Hin _]; [repeat constructor..|lia|lia|].
  change (Batch._enforce_min_distance [1; 3; 5] 3) with [1; 5] in Hin.
  rewrite !elem_of_cons, elem_of_nil in Hin. lia.
Qed.

(** C1 at a failing input.  With the width filter enabled on [0,1,0], the
    only candidate takes the second [continue], yet it is still returned in
    the peaks sequence, and the three property sequences are empty. *)
Theorem C1_peaks_not_filtered :
  Batch.passes_filters narrow_detector 1 = false
  /\ Batch.detect_peaks narrow_detector
     = ([1], {| Batch.heights := []; Batch.prominences := [];
                Batch.widths := [] |}).
Proof. split; vm_compute; reflexivity. Qed.

(** C2 at a failing input.  On [0,1,5,1,0] the scan accepts index 2; the
    batch base-finding loops stay at the peak and the computed prominence is
    0, whereas descending on each side until the signal rises again reaches
    the bases 0 and 4 and gives prominence 5. *)
Theorem C2_batch_prominence_on_ridge :
  Batch.initial_peaks ridge_detector = [2]
  /\ Batch.left_base_of ridge_detector 2 = 2
  /\ Batch.right_base_of ridge_detector 2 = 2
  /\ Batch._calculate_prominence ridge_detector 2 = 0%Q
  /\ Spec.descend_left (Batch.signal ridge_detector) 2 = 0
  /\ Spec.descend_right (Batch.signal ridge_detector) 2 = 4
  /\ Spec.prominence_by_descent (Batch.signal ridge_detector) 2 = 5%Q.
Proof.
  split; [vm_compute; reflexivity|]. split; [vm_compute; reflexivity|].
  split; [vm_compute; reflexivity|]. split; [vm_compute; reflexivity|].
  split; [vm_compute; reflexivity|]. split; vm_compute; reflexivity.
Qed.

(** ** The streaming detector: structure of [add_sample] *)
Import Streaming.

Lemma wf_cursor (d : PeakDetectorSingleSample) :
  wf d -> 0 <= buffer_index d < Z.of_nat (length (buffer d)).
Proof.
  intros (HB & Hlen & Hn & Hidx). rewrite Hidx, Hlen.
  apply Z.mod_pos_bound. lia.
Qed.

(** On a well-formed object [add_sample] returns normally, and its result is
    the composition of the three phases. *)
Lemma add_sample_ok (d : PeakDetectorSingleSample) (sample : Q) :
  wf d -> add_sample d sample = Ok (processed d sample).
Proof.
  intros Hwf. pose proof (wf_cursor d Hwf) as Hc.
  destruct Hwf as (HB & _). unfold add_sample. cbn [buffer_index buffer set_sample_count].
  replace (0 <=? buffer_index d) with true by (symmetry; apply Z.leb_le; lia).
  replace (buffer_index d <? Z.of_nat (length (buffer d))) with true
    by (symmetry; apply Z.ltb_lt; lia).
  cbn [andb buffer_size set_buffer set_sample_count].
  replace (buffer_size d =? 0) with false by (symmetry; apply Z.eqb_neq; lia).
  reflexivity.
Qed.

(** In every case the call ends in the object [processed] describes, or
    raises after the counter increment alone or after the item assignment. *)
Lemma add_sample_cases (d : PeakDetectorSingleSample) (sample : Q) :
  add_sample d sample = Ok (processed d sample)
  \/ (exists e d', add_sample d sample = Raise e d'
        /\ confirmed_peaks d' = confirmed_peaks d
        /\ potential_peaks d' = potential_peaks d
        /\ sample_count d' = sample_count d + 1).
Proof.
  unfold add_sample. cbn [buffer_index buffer set_sample_count].
  destruct ((0 <=? buffer_index d)
            && (buffer_index d <? Z.of_nat (length (buffer d)))).
  - cbn [buffer_size set_buffer set_sample_count].
    destruct (buffer_size d =? 0).
    + right. eexists _, _. split; [reflexivity|]. done.
    + left. reflexivity.
  - right. eexists _, _. split; [reflexivity|]. done.
Qed.

Lemma process_fold (d : PeakDetectorSingleSample) (l : list peak_t) :
  forall (c np : list peak_t),
    foldl process_step (set_confirmed_peaks d c, np) l
    = (set_confirmed_peaks d
         (foldl (confirm_step d) c (filter (fun pk => is_old d pk) l)),
       np ++ filter (fun pk => negb (is_old d pk)) l).
Proof.
  induction l as [|pk l IH]; intros c np.
  - simpl. now rewrite app_nil_r.
  - rewrite !filter_cons. cbn [foldl].
    unfold process_step at 2.
    change (sample_count (set_confirmed_peaks d c) - fst pk
            >=? buffer_size (set_confirmed_peaks d c) / 2)
      with (is_old d pk).
    destruct (is_old d pk) eqn:Hold.
    + rewrite decide_True by done.
      rewrite decide_False by (simpl; tauto).
      cbn [foldl]. unfold confirm_step at 2.
      destruct (_check_peak_validity (set_confirmed_peaks d c) pk).
      * change (set_confirmed_peaks (set_confirmed_peaks d c)
                  (confirmed_peaks (set_confirmed_peaks d c) ++ [pk]))
          with (set_confirmed_peaks d (c ++ [pk])).
        apply IH.
      * apply IH.
    + rewrite decide_False by (simpl; tauto).
      rewrite decide_True by done.
      rewrite IH. now rewrite <- app_assoc.
Qed.

Lemma set_confirmed_peaks_same (d : PeakDetectorSingleSample) :
  set_confirmed_peaks d (confirmed_peaks d) = d.
Proof. now destruct d. Qed.

Lemma process_potential_peaks_eq (d : PeakDetectorSingleSample) :
  _process_potential_peaks d
  = set_potential_peaks
      (set_confirmed_peaks d
         (foldl (confirm_step d) (confirmed_peaks d)
            (filter (fun pk => is_old d pk) (potential_peaks d))))
      (filter (fun pk => negb (is_old d pk)) (potential_peaks d)).
Proof.
  unfold _process_potential_peaks.
  rewrite <- (set_confirmed_peaks_same d) at 1.
  now rewrite process_fold.
Qed.

(** The confirmed list only grows, by candidates taken in order from the
    list that is resolved. *)
Lemma confirm_fold_extends (d : PeakDetectorSingleSample) (l : list peak_t) :
  forall c, exists new,
    foldl (confirm_step d) c l = c ++ new /\ new `sublist_of` l.
Proof.
  induction l as [|pk l IH]; intros c; simpl.
  - exists []. split; [now rewrite app_nil_r | constructor].
  - unfold confirm_step at 2.
    destruct (_check_peak_validity (set_confirmed_peaks d c) pk).
    + destruct (IH (c ++ [pk])) as (new & -> & Hsub).
      exists (pk :: new). split; [now rewrite <- app_assoc|].
      now apply sublist_skip.
    + destruct (IH c) as (new & -> & Hsub).
      exists new. split; [done|]. now apply sublist_cons.
Qed.

(** What the candidate test leaves unchanged, and what it may append. *)
Lemma checked_fields (d : PeakDetectorSingleSample) (sample : Q) :
  let d1 := stored d sample in
  let d2 := checked d sample in
  buffer_size d2 = buffer_size d /\ threshold d2 = threshold d
  /\ min_distance d2 = min_distance d /\ prominence d2 = prominence d
  /\ width d2 = width d /\ buffer d2 = buffer d1
  /\ buffer_index d2 = buffer_index d1
  /\ confirmed_peaks d2 = confirmed_peaks d
  /\ sample_count d2 = sample_count d + 1
  /\ (potential_peaks d2 = potential_peaks d
      \/ (3 <= sample_count d + 1
          /\ potential_peaks d2
             = potential_peaks d
               ++ [(sample_count d + 1 - 2,
                    getitem (buffer d1)
                      ((buffer_index d1 - 2) mod buffer_size d))])).
Proof.
  intros d1 d2. subst d1 d2. unfold checked.
  change (sample_count (stored d sample)) with (sample_count d + 1).
  destruct (sample_count d + 1 >=? 3) eqn:Hge.
  - unfold _check_potential_peak.
    match goal with |- context [if ?c then _ else _] => destruct c end.
    + repeat (split; [reflexivity|]). right. split; [lia|]. reflexivity.
    + repeat (split; [reflexivity|]). now left.
  - repeat (split; [reflexivity|]). now left.
Qed.

(** What the resolution phase does to the two lists; all else is as the
    candidate test left it. *)
Lemma processed_fields (d : PeakDetectorSingleSample) (sample : Q) :
  let d2 := checked d sample in
  let d3 := processed d sample in
  buffer_size d3 = buffer_size d /\ threshold d3 = threshold d
  /\ min_distance d3 = min_distance d /\ prominence d3 = prominence d
  /\ width d3 = width d /\ buffer d3 = buffer d2
  /\ buffer_index d3 = buffer_index d2
  /\ sample_count d3 = sample_count d + 1
  /\ ((sample_count d + 1 < buffer_size d /\ d3 = d2)
      \/ (buffer_size d <= sample_count d + 1
          /\ confirmed_peaks d3
             = foldl (confirm_step d2) (confirmed_peaks d2)
                 (filter (fun pk => is_old d2 pk) (potential_peaks d2))
          /\ potential_peaks d3
             = filter (fun pk => negb (is_old d2 pk)) (potential_peaks d2))).
Proof.
  intros d2 d3. subst d2 d3. unfold processed.
  destruct (checked_fields d sample)
    as (HB & Ht & Hmd & Hp & Hw & Hb & Hi & Hc & Hn & _).
  rewrite Hn, HB.
  destruct (sample_count d + 1 >=? buffer_size d) eqn:Hge.
  - rewrite process_potential_peaks_eq.
    cbn [buffer_size threshold min_distance prominence width buffer
         buffer_index sample_count confirmed_peaks potential_peaks
         set_potential_peaks set_confirmed_peaks].
    repeat (split; [assumption || reflexivity|]).
    right. split; [lia|]. split; reflexivity.
  - repeat (split; [assumption || reflexivity|]). left. split; [lia|done].
Qed.

Lemma wf_stored (d : PeakDetectorSingleSample) (sample : Q) :
  wf d -> wf (stored d sample).
Proof.
  intros (HB & Hlen & Hn & Hidx). unfold wf, stored.
  cbn [buffer_size buffer buffer_index sample_count set_buffer_index
       set_buffer set_sample_count].
  rewrite length_insert. split; [lia|]. split; [lia|]. split; [lia|].
  rewrite Hidx. apply Zplus_mod_idemp_l.
Qed.

Lemma wf_checked (d : PeakDetectorSingleSample) (sample : Q) :
  wf d -> wf (checked d sample).
Proof.
  intros Hwf. apply (wf_stored d sample) in Hwf.
  destruct (checked_fields d sample)
    as (HB & _ & _ & _ & _ & Hb & Hi & _ & Hn & _).
  unfold wf in *. rewrite HB, Hb, Hi, Hn. exact Hwf.
Qed.

Lemma wf_processed (d : PeakDetectorSingleSample) (sample : Q) :
  wf d -> wf (processed d sample).
Proof.
  intros Hwf. apply (wf_checked d sample) in Hwf.
  destruct (checked_fields d sample)
    as (HB & _ & _ & _ & _ & _ & _ & _ & Hn & _).
  destruct (processed_fields d sample)
    as (HB' & _ & _ & _ & _ & Hb & Hi & Hn' & _).
  unfold wf in *. rewrite HB', Hb, Hi, Hn'. rewrite HB, Hn in Hwf. exact Hwf.
Qed.

(** A run on a well-formed object never raises. *)
Lemma ingest_ok (samples : list Q) :
  forall d, wf d -> exists d', ingest d samples = Ok d' /\ wf d'.
Proof.
  induction samples as [|sample rest IH]; intros d Hwf; simpl.
  - now exists d.
  - rewrite add_sample_ok by done. apply IH, wf_processed, Hwf.
Qed.

Lemma wf_fresh (B : Z) (t : Q) (md : Z) (p w : option Q) (fill : list Q) :
  1 <= B -> Z.of_nat (length fill) = B -> wf (fresh B t md p w fill).
Proof.
  intros HB Hlen. unfold wf, fresh.
  cbn [buffer_size buffer buffer_index sample_count].
  split; [lia|]. split; [lia|]. split; [lia|].
  symmetry. apply Z.mod_0_l. lia.
Qed.

Lemma is_old_true (d : PeakDetectorSingleSample) (pk : peak_t) :
  is_old d pk = true <-> buffer_size d / 2 <= sample_count d - fst pk.
Proof. unfold is_old. lia. Qed.

(** ** Resolution time of pending candidates *)

(** C3 as stated fails: with a window of ten samples the candidate at
    position 1 has age 5 = 10 // 2 after the sixth sample and is still
    pending; it is confirmed by the tenth sample, at age 9. *)
Lemma C3_pending_past_half_window :
  ~ (forall B t md p w samples d pk,
       run B t md p w samples = Ok d ->
       pk ∈ potential_peaks d ->
       sample_count d - fst pk < B / 2)
  /\ (exists d, run 10 0 1 None None early_spike_full = Ok d
                /\ confirmed_peaks d = [(1, 1%Q)]
                /\ sample_count d - 1 = 9).
Proof.
  split.
  - intros H.
    remember (state_of (run 10 0%Q 1 None None early_spike)) as d eqn:Hd.
    assert (Hrun : run 10 0%Q 1 None None early_spike = Ok d)
      by (rewrite Hd; vm_compute; reflexivity).
    assert (Hpot : potential_peaks d = [(1, 1%Q)])
      by (rewrite Hd; vm_compute; reflexivity).
    assert (Hn : sample_count d = 6)
      by (rewrite Hd; vm_compute; reflexivity).
    clear Hd.
    specialize (H 10 0%Q 1 None None early_spike d (1, 1%Q) Hrun).
    rewrite Hpot, Hn in H.
    specialize (H ltac:(constructor)).
    vm_compute in H. discriminate H.
  - eexists. split; [vm_compute; reflexivity|].
    split; vm_compute; reflexivity.
Qed.

(** ** Order of the reported peaks *)

Lemma ordered_checked (d : PeakDetectorSingleSample) (sample : Q) :
  ordered d -> ordered (checked d sample).
Proof.
  intros [Hs Hb].
  destruct (checked_fields d sample)
    as (_ & _ & _ & _ & _ & _ & _ & Hc & Hn & Hpot).
  unfold ordered. rewrite Hc, Hn.
  destruct Hpot as [Hpot|[_ Hpot]]; rewrite Hpot.
  - split; [done|]. eapply Forall_impl; [apply Hb|]. simpl. intros; lia.
  - rewrite app_assoc. split.
    + apply StronglySorted_app. split; [|split; [done|repeat constructor]].
      intros x y Hx Hy. apply list_elem_of_singleton in Hy. subst y.
      rewrite Forall_forall in Hb. specialize (Hb x Hx). simpl. lia.
    + apply Forall_app. split.
      * eapply Forall_impl; [apply Hb|]. simpl. intros; lia.
      * repeat constructor. simpl. lia.
Qed.

Lemma ordered_process (d : PeakDetectorSingleSample) (c' : list peak_t) :
  ordered d ->
  c' = foldl (confirm_step d) (confirmed_peaks d)
         (filter (fun pk => is_old d pk) (potential_peaks d)) ->
  StronglySorted (fun a b : peak_t => fst a < fst b)
    (c' ++ filter (fun pk => negb (is_old d pk)) (potential_peaks d))
  /\ Forall (fun pk => fst pk <= sample_count d - 2)
       (c' ++ filter (fun pk => negb (is_old d pk)) (potential_peaks d)).
Proof.
  intros [Hs Hb] ->.
  destruct (confirm_fold_extends d
              (filter (fun pk => is_old d pk) (potential_peaks d))
              (confirmed_peaks d)) as (new & -> & Hsub).
  assert (Hnew : new `sublist_of` potential_peaks d).
  { etrans; [apply Hsub|]. apply sublist_filter. }
  assert (Hkeep : filter (fun pk => negb (is_old d pk)) (potential_peaks d)
                  `sublist_of` potential_peaks d) by apply sublist_filter.
  split.
  - apply StronglySorted_app. split; [|split].
    + intros x y Hx Hy.
      apply list_elem_of_filter in Hy as [Hy Hyin].
      apply elem_of_app in Hx as [Hx|Hx].
      * apply StronglySorted_app in Hs as (Hcross & _ & _). now apply Hcross.
      * eapply elem_of_sublist in Hx; [|apply Hsub].
        apply list_elem_of_filter in Hx as [Hx _].
        apply Is_true_true, is_old_true in Hx.
        apply negb_True in Hy. rewrite Is_true_true, is_old_true in Hy. lia.
    + eapply StronglySorted_sublist; [|apply Hs].
      apply sublist_app; [done|apply Hnew].
    + eapply StronglySorted_sublist; [|apply Hs].
      etrans; [apply Hkeep|]. apply sublist_inserts_l. done.
  - rewrite Forall_forall in *. intros x Hx. apply Hb.
    rewrite !elem_of_app in *. destruct Hx as [[Hx|Hx]|Hx]; [now left|right..].
    + eapply elem_of_sublist; eauto.
    + eapply elem_of_sublist; eauto.
Qed.

Lemma ordered_processed (d : PeakDetectorSingleSample) (sample : Q) :
  ordered d -> ordered (processed d sample).
Proof.
  intros Ho. apply (ordered_checked d sample) in Ho.
  destruct (checked_fields d sample)
    as (_ & _ & _ & _ & _ & _ & _ & _ & Hn & _).
  destruct (processed_fields d sample)
    as (_ & _ & _ & _ & _ & _ & _ & Hn' & [[_ ->]|(_ & Hc & Hp)]); [done|].
  unfold ordered. rewrite Hp, Hn', <- Hn.
  apply ordered_process; done.
Qed.

Lemma ordered_add_sample (d : PeakDetectorSingleSample) (sample : Q) :
  ordered d -> ordered (state_of (add_sample d sample)).
Proof.
  intros Ho.
  destruct (add_sample_cases d sample) as [->|(e & d' & -> & Hc & Hp & Hn)].
  - apply ordered_processed, Ho.
  - destruct Ho as [Hs Hb]. unfold ordered. simpl. rewrite Hc, Hp, Hn.
    split; [done|]. eapply Forall_impl; [apply Hb|]. simpl. intros; lia.
Qed.

Lemma ordered_ingest (samples : list Q) :
  forall d, ordered d -> ordered (state_of (ingest d samples)).
Proof.
  induction samples as [|sample rest IH]; intros d Ho; simpl; [done|].
  pose proof (ordered_add_sample d sample Ho) as Ho'.
  destruct (add_sample d sample) as [d'|e d']; simpl in Ho'; [|done].
  now apply IH.
Qed.

Lemma ordered_fresh (B : Z) (t : Q) (md : Z) (p w : option Q) (fill : list Q) :
  ordered (fresh B t md p w fill).
Proof. split; simpl; constructor. Qed.

(** C7.  The peak positions returned by the batch detector increase
    strictly; so do the positions of the confirmed peaks of the streaming
    detector after any run; and an [add_sample] call only appends to the
    confirmed list, however it ends. *)
Theorem C7_peaks_increasing_append_only :
  (forall d : Batch.PeakDetector,
     StronglySorted Z.lt (fst (Batch.detect_peaks d)))
  /\ (forall B t md p w samples,
        StronglySorted Z.lt
          (fst <$> get_peaks (state_of (run B t md p w samples))))
  /\ (forall (d : PeakDetectorSingleSample) (sample : Q),
        exists new,
          get_peaks (state_of (add_sample d sample))
          = get_peaks d ++ new).
Proof.
  split; [apply detect_peaks_increasing|]. split.
  - intros B t md p w samples. unfold run, __init__, get_peaks.
    destruct (ordered_ingest samples
                (fresh B t md p w (replicate (Z.to_nat B) 0%Q))
                (ordered_fresh _ _ _ _ _ _)) as [Hs _].
    apply StronglySorted_app_1_l in Hs.
    eapply StronglySorted_fmap; [|apply Hs]. auto.
  - intros d sample. unfold get_peaks.
    destruct (add_sample_cases d sample) as [->|(e & d' & -> & Hc & _)].
    + simpl.
      destruct (checked_fields d sample)
        as (_ & _ & _ & _ & _ & _ & _ & Hc & _).
      destruct (processed_fields d sample)
        as (_ & _ & _ & _ & _ & _ & _ & _ & [[_ ->]|(_ & Hc' & _)]).
      * exists []. now rewrite app_nil_r.
      * rewrite Hc', Hc.
        destruct (confirm_fold_extends (checked d sample)
                    (filter (fun pk => is_old (checked d sample) pk)
                            (potential_peaks (checked d sample)))
                    (confirmed_peaks d)) as (new & -> & _).
        now exists new.
    + exists []. simpl. now rewrite app_nil_r.
Qed.

(** ** Minimum of a window *)

Lemma py_min_fold (r : list Q) :
  forall m : Q,
    let res := foldl (fun m y => if Qltb y m then y else m) m r in
    (res <= m)%Q /\ Forall (fun x => (res <= x)%Q) r /\ res ∈ m :: r.
Proof.
  induction r as [|y r IH]; intros m; simpl.
  - split; [apply Qle_refl|]. split; [constructor|]. constructor.
  - destruct (IH (if Qltb y m then y else m)) as (Hle & Hall & Hin).
    simpl in Hle, Hall, Hin.
    assert (Hm : ((if Qltb y m then y else m) <= m)%Q
                 /\ ((if Qltb y m then y else m) <= y)%Q).
    { destruct (Qltb y m) eqn:Hlt.
      - apply Qltb_lt in Hlt. split; [now apply Qlt_le_weak|apply Qle_refl].
      - apply Qltb_ge in Hlt. split; [apply Qle_refl|done]. }
    destruct Hm as [Hm Hy]. split; [|split].
    + eapply Qle_trans; eauto.
    + constructor; [eapply Qle_trans; eauto|done].
    + apply elem_of_cons in Hin as [Hin|Hin].
      * rewrite Hin. destruct (Qltb y m); [right; left|left].
      * right; right; done.
Qed.

Lemma py_min_elem (l : list Q) : l <> [] -> py_min l ∈ l.
Proof.
  destruct l as [|x r]; [done|]. intros _. apply (py_min_fold r x).
Qed.

Lemma py_min_le (l : list Q) (x : Q) : x ∈ l -> (py_min l <= x)%Q.
Proof.
  destruct l as [|m r]; [intros H; now apply elem_of_nil in H|].
  intros Hx. destruct (py_min_fold r m) as (Hm & Hall & _).
  apply elem_of_cons in Hx as [->|Hx]; [done|].
  rewrite Forall_forall in Hall. now apply Hall.
Qed.

(** The list [l[k:] + l[:k]] has the elements of [l]. *)
Lemma elem_of_rotation (l : list Q) (k : nat) (x : Q) :
  x ∈ drop k l ++ take k l <-> x ∈ l.
Proof.
  rewrite <- (take_drop k l) at 3. rewrite !elem_of_app. tauto.
Qed.

Lemma py_min_rotation (l : list Q) (k : nat) :
  l <> [] -> (py_min (drop k l ++ take k l) == py_min l)%Q.
Proof.
  intros Hl.
  assert (Hrot : drop k l ++ take k l <> []).
  { intros Hnil. apply Hl. rewrite <- (take_drop k l).
    apply app_eq_nil in Hnil as [-> ->]. done. }
  apply Qle_antisym.
  - apply py_min_le, elem_of_rotation, py_min_elem, Hl.
  - apply py_min_le. eapply elem_of_rotation, py_min_elem, Hrot.
Qed.

(** The streaming prominence is the recorded value minus the window
    minimum. *)
Lemma streaming_prominence_eq (d : PeakDetectorSingleSample) (pk : peak_t) :
  buffer d <> [] ->
  (_calculate_prominence d pk == snd pk - py_min (buffer d))%Q.
Proof.
  intros Hne. unfold _calculate_prominence. rewrite py_max_same.
  unfold Qminus. apply Qplus_comp; [reflexivity|].
  apply Qopp_comp, py_min_rotation, Hne.
Qed.

(** It is not negative when the recorded value is in the window. *)
Lemma streaming_prominence_nonneg (d : PeakDetectorSingleSample) (pk : peak_t) :
  snd pk ∈ buffer d -> (0 <= snd pk - py_min (buffer d))%Q.
Proof.
  intros Hin. unfold Qminus. apply -> Qle_minus_iff. now apply py_min_le.
Qed.

Lemma truthy_Q_true (q : Q) : truthy_Q q = true <-> ~ (q == 0)%Q.
Proof.
  unfold truthy_Q. rewrite negb_true_iff, <- not_true_iff_false.
  now rewrite Qeq_bool_iff.
Qed.

Lemma prominence_check_fails_iff (d : PeakDetectorSingleSample) (pk : peak_t) :
  buffer d <> [] ->
  prominence_check_fails d pk = true
  <-> exists p, prominence d = Some p /\ ~ (p == 0)%Q
                /\ (snd pk - py_min (buffer d) < p)%Q.
Proof.
  intros Hne. unfold prominence_check_fails.
  pose proof (streaming_prominence_eq d pk Hne) as Heq.
  destruct (prominence d) as [p|].
  - rewrite andb_true_iff, truthy_Q_true, Qltb_lt, Heq. split.
    + intros [? ?]. now exists p.
    + intros (p' & [= <-] & ? & ?). done.
  - split; [done|]. now intros (p' & ? & _).
Qed.

(** ** Pending candidates stay inside the window *)

Lemma slot_distinct (n p B : Z) : 0 < n - p < B -> n mod B <> p mod B.
Proof.
  intros H Heq.
  assert (Hz : (n - p) mod B = 0).
  { rewrite Zminus_mod, Heq, Z.sub_diag. apply Z.mod_0_l. lia. }
  rewrite Z.mod_small in Hz by lia. lia.
Qed.

Lemma stored_buffer (d : PeakDetectorSingleSample) (sample : Q) :
  buffer (stored d sample)
  = <[Z.to_nat (buffer_index d) := sample]> (buffer d).
Proof. reflexivity. Qed.

Lemma stored_buffer_index (d : PeakDetectorSingleSample) (sample : Q) :
  buffer_index (stored d sample) = (buffer_index d + 1) mod buffer_size d.
Proof. reflexivity. Qed.

(** At the time the pending candidates are resolved, each of them, the one
    just found included, has its recorded value in its own slot. *)
Lemma checked_pending (d : PeakDetectorSingleSample) (sample : Q) :
  wf d -> pending_fresh d ->
  Forall (fun pk =>
            0 <= fst pk <= sample_count d + 1 - 2
            /\ buffer (checked d sample)
                 !! Z.to_nat (fst pk mod buffer_size d) = Some (snd pk))
         (potential_peaks (checked d sample)).
Proof.
  intros Hwf Hpf.
  pose proof (wf_cursor d Hwf) as Hcur.
  destruct Hwf as (HB & Hlen & Hn & Hidx).
  destruct (checked_fields d sample)
    as (_ & _ & _ & _ & _ & Hb & _ & _ & _ & Hpot).
  rewrite Hb, stored_buffer. rewrite stored_buffer, stored_buffer_index in Hpot.
  assert (Hold : Forall (fun pk =>
            0 <= fst pk <= sample_count d + 1 - 2
            /\ <[Z.to_nat (buffer_index d) := sample]> (buffer d)
                 !! Z.to_nat (fst pk mod buffer_size d) = Some (snd pk))
         (potential_peaks d)).
  { eapply Forall_impl; [apply Hpf|]. intros [p v]. simpl.
    intros (Hp & Hdue & Hv). split; [lia|].
    rewrite list_lookup_insert_ne; [done|].
    assert (Hd : sample_count d mod buffer_size d <> p mod buffer_size d).
    { apply slot_distinct.
      assert (buffer_size d / 2 <= buffer_size d)
        by (apply Z.div_le_upper_bound; lia).
      lia. }
    pose proof (Z.mod_pos_bound (sample_count d) (buffer_size d)).
    pose proof (Z.mod_pos_bound p (buffer_size d)).
    rewrite Hidx. lia. }
  destruct Hpot as [->|[Hge ->]]; [done|].
  apply Forall_app. split; [done|]. constructor; [|constructor]. simpl.
  split; [lia|].
  rewrite Hidx, Zplus_mod_idemp_l, Zminus_mod_idemp_l.
  set (k := (sample_count d + 1 - 2) mod buffer_size d).
  assert (Hk : 0 <= k < buffer_size d) by (apply Z.mod_pos_bound; lia).
  unfold getitem.
  destruct (lookup_lt_is_Some_2
              (<[Z.to_nat (sample_count d mod buffer_size d) := sample]>
                 (buffer d)) (Z.to_nat k)) as [x Hx].
  { rewrite length_insert. lia. }
  now rewrite Hx.
Qed.

Lemma pending_fresh_processed (d : PeakDetectorSingleSample) (sample : Q) :
  wf d -> pending_fresh d -> pending_fresh (processed d sample).
Proof.
  intros Hwf Hpf. pose proof (checked_pending d sample Hwf Hpf) as Hck.
  destruct (checked_fields d sample)
    as (HB2 & _ & _ & _ & _ & _ & _ & _ & Hn2 & _).
  destruct (processed_fields d sample)
    as (HB & _ & _ & _ & _ & Hb & _ & Hn & Hcase).
  unfold pending_fresh. rewrite HB, Hn.
  destruct Hcase as [[Hlt ->]|(Hge & _ & Hp)].
  - eapply Forall_impl; [apply Hck|]. simpl. intros pk [? ?].
    split; [lia|]. split; [now left|done].
  - rewrite Hb, Hp. apply Forall_forall. intros pk Hpk.
    apply list_elem_of_filter in Hpk as [Hnew Hpk].
    rewrite Forall_forall in Hck. destruct (Hck pk Hpk) as [? ?].
    split; [lia|]. split; [|done]. right.
    apply negb_True in Hnew. rewrite Is_true_true, is_old_true in Hnew.
    rewrite HB2, Hn2 in Hnew. lia.
Qed.

Lemma pending_fresh_fresh (B : Z) (t : Q) (md : Z) (p w : option Q)
    (fill : list Q) :
  pending_fresh (fresh B t md p w fill).
Proof. constructor. Qed.

(** The invariants of a run that starts well-formed. *)
Lemma ingest_invariants (samples : list Q) :
  forall d d',
    wf d -> pending_fresh d -> ordered d ->
    ingest d samples = Ok d' ->
    wf d' /\ pending_fresh d' /\ ordered d'
    /\ buffer_size d' = buffer_size d.
Proof.
  induction samples as [|sample rest IH]; intros d d' Hwf Hpf Ho; simpl.
  - intros [= <-]. done.
  - rewrite add_sample_ok by done. intros Hrun.
    destruct (IH (processed d sample) d') as (? & ? & ? & HB); auto.
    + now apply wf_processed.
    + now apply pending_fresh_processed.
    + now apply ordered_processed.
    + repeat (split; [done|]). rewrite HB.
      now destruct (processed_fields d sample) as (-> & _).
Qed.

Lemma run_invariants (B : Z) (t : Q) (md : Z) (p w : option Q)
    (samples : list Q) (d : PeakDetectorSingleSample) :
  1 <= B -> run B t md p w samples = Ok d ->
  wf d /\ pending_fresh d /\ ordered d /\ buffer_size d = B.
Proof.
  intros HB Hrun. unfold run, __init__ in Hrun.
  eapply ingest_invariants in Hrun.
  - exact Hrun.
  - apply wf_fresh; [done|]. rewrite length_replicate. lia.
  - apply pending_fresh_fresh.
  - apply ordered_fresh.
Qed.

Lemma check_peak_validity_eq (d : PeakDetectorSingleSample) (pk : peak_t) :
  _check_peak_validity d pk
  = negb (distance_check_fails d pk)
    && negb (prominence_check_fails d pk)
    && negb (width_check_fails d pk).
Proof.
  unfold _check_peak_validity.
  now destruct (distance_check_fails d pk), (prominence_check_fails d pk),
    (width_check_fails d pk).
Qed.

(** ** Independence of the initial buffer contents *)

Lemma agree_eta (d e : PeakDetectorSingleSample) :
  agree_on_written d e -> e = set_buffer d (buffer e).
Proof.
  destruct d, e. unfold agree_on_written, set_buffer. simpl.
  intros (-> & -> & -> & -> & -> & -> & -> & -> & -> & _). reflexivity.
Qed.

Lemma agree_set_buffer (d : PeakDetectorSingleSample) (b : list Q) :
  length (buffer d) = length b ->
  (forall j : nat, Z.of_nat j < sample_count d -> buffer d !! j = b !! j) ->
  agree_on_written d (set_buffer d b).
Proof. intros Hlen Hj. unfold agree_on_written. simpl. tauto. Qed.

Lemma agree_set_buffer_refl (d : PeakDetectorSingleSample) :
  agree_on_written d d.
Proof. unfold agree_on_written. tauto. Qed.

(** The three slots the candidate test reads hold samples. *)
Lemma candidate_slots_written (n B : Z) :
  1 <= B -> 3 <= n + 1 ->
  let current_index := ((n + 1) mod B - 2) mod B in
  let prev_index := (current_index - 1) mod B in
  let next_index := (current_index + 1) mod B in
  (0 <= current_index < n + 1) /\ (0 <= prev_index < n + 1)
  /\ (0 <= next_index < n + 1).
Proof.
  intros HB Hn current_index prev_index next_index.
  subst prev_index next_index current_index.
  rewrite Zminus_mod_idemp_l.
  rewrite Zminus_mod_idemp_l, Zplus_mod_idemp_l.
  pose proof (Z.mod_pos_bound (n + 1 - 2) B).
  pose proof (Z.mod_pos_bound (n + 1 - 2 - 1) B).
  pose proof (Z.mod_pos_bound (n + 1 - 2 + 1) B).
  pose proof (Z.mod_le (n + 1 - 2) B).
  pose proof (Z.mod_le (n + 1 - 2 - 1) B).
  pose proof (Z.mod_le (n + 1 - 2 + 1) B).
  lia.
Qed.

Lemma getitem_agree (b b' : list Q) (n x : Z) :
  (forall j : nat, Z.of_nat j < n -> b !! j = b' !! j) ->
  0 <= x < n -> getitem b x = getitem b' x.
Proof. intros Hj Hx. unfold getitem. rewrite (Hj (Z.to_nat x)); [done|lia]. Qed.

Lemma agree_processed (d e : PeakDetectorSingleSample) (sample : Q) :
  wf d -> agree_on_written d e ->
  agree_on_written (processed d sample) (processed e sample).
Proof.
  intros Hwf Hag. pose proof (wf_cursor d Hwf) as Hcur.
  rewrite (agree_eta d e Hag).
  destruct Hag as (_ & _ & _ & _ & _ & _ & _ & _ & _ & Hlen & Hj).
  destruct Hwf as (HB & HlenB & Hn & Hidx).
  set (i := Z.to_nat (buffer_index d)).
  set (b := <[i := sample]> (buffer d)).
  set (b' := <[i := sample]> (buffer e)).
  assert (Hlen' : length b = length b') by (subst b b'; now rewrite !length_insert).
  assert (Hj' : forall j : nat, Z.of_nat j < sample_count d + 1 ->
                                b !! j = b' !! j).
  { intros j Hlt. subst b b'. destruct (decide (i = j)) as [<-|Hne].
    - rewrite !list_lookup_insert_eq; [done|lia..].
    - rewrite !list_lookup_insert_ne by done.
      destruct (decide (Z.of_nat j < sample_count d)) as [?|Hge]; [auto|].
      assert (Z.of_nat j = sample_count d) by lia.
      assert (buffer_size d <= sample_count d).
      { destruct (decide (sample_count d < buffer_size d)) as [Hsm|?]; [|lia].
        rewrite Z.mod_small in Hidx by lia. subst i. lia. }
      rewrite !lookup_ge_None_2; [done|lia..]. }
  assert (Hst : stored (set_buffer d (buffer e)) sample
                = set_buffer (stored d sample) b') by reflexivity.
  assert (Hck : checked (set_buffer d (buffer e)) sample
                = set_buffer (checked d sample) b').
  { unfold checked. rewrite Hst.
    change (sample_count (set_buffer (stored d sample) b'))
      with (sample_count d + 1).
    change (sample_count (stored d sample)) with (sample_count d + 1).
    destruct (sample_count d + 1 >=? 3) eqn:Hge; [|done].
    unfold _check_potential_peak.
    cbn [buffer buffer_index buffer_size threshold sample_count
         potential_peaks set_buffer].
    rewrite !stored_buffer, !stored_buffer_index. fold i. fold b.
    rewrite Hidx, Zplus_mod_idemp_l.
    destruct (candidate_slots_written (sample_count d) (buffer_size d))
      as (Hc & Hp & Hx); [lia..|].
    rewrite <- !(getitem_agree b b' (sample_count d + 1)) by done.
    match goal with |- context [if ?c then _ else _] => destruct c end;
      reflexivity. }
  unfold processed. rewrite Hck.
  change (sample_count (set_buffer (checked d sample) b'))
    with (sample_count (checked d sample)).
  change (buffer_size (set_buffer (checked d sample) b'))
    with (buffer_size (checked d sample)).
  destruct (checked_fields d sample)
    as (HB2 & _ & _ & _ & _ & Hb2 & _ & _ & Hn2 & _).
  rewrite stored_buffer in Hb2. fold i in Hb2. fold b in Hb2.
  destruct (sample_count (checked d sample) >=? buffer_size (checked d sample))
    eqn:Hfull.
  - assert (Heq : b' = b).
    { apply list_eq. intros j. symmetry.
      destruct (decide (j < length b)%nat) as [Hin|Hout].
      - apply Hj'. subst b. rewrite length_insert in Hin. lia.
      - rewrite !lookup_ge_None_2; [done|lia..]. }
    rewrite Heq, <- Hb2.
    replace (set_buffer (checked d sample) (buffer (checked d sample)))
      with (checked d sample) by (now destruct (checked d sample)).
    apply agree_set_buffer_refl.
  - apply agree_set_buffer.
    + now rewrite Hb2.
    + rewrite Hb2, Hn2. exact Hj'.
Qed.

Lemma wf_agree (d e : PeakDetectorSingleSample) :
  wf d -> agree_on_written d e -> wf e.
Proof.
  intros (HB & Hlen & Hn & Hidx)
         (EB & _ & _ & _ & _ & Ei & _ & _ & En & El & _).
  unfold wf. rewrite <- EB, <- Ei, <- En, <- El. done.
Qed.

Lemma agree_ingest (samples : list Q) :
  forall d e,
    wf d -> agree_on_written d e ->
    agree_on_written (state_of (ingest d samples))
                     (state_of (ingest e samples)).
Proof.
  induction samples as [|sample rest IH]; intros d e Hwf Hag; simpl; [done|].
  rewrite !add_sample_ok by eauto using wf_agree.
  apply IH; [now apply wf_processed | now apply agree_processed].
Qed.

(** C10.  Two detectors constructed alike, except that the [buffer_size]
    slots of the buffer start out with arbitrary different contents, have the
    same confirmed and pending peaks after every sample sequence; in
    particular the contents may be the zeros the constructor writes, so the
    output of a run never depends on that initialisation. *)
Theorem C10_initial_fill_irrelevant (B : Z) (t : Q) (md : Z) (p w : option Q)
    (fill1 fill2 : list Q) (samples : list Q) :
  length fill1 = Z.to_nat B ->
  length fill2 = Z.to_nat B ->
  let r1 := state_of (ingest (fresh B t md p w fill1) samples) in
  let r2 := state_of (ingest (fresh B t md p w fill2) samples) in
  get_peaks r1 = get_peaks r2
  /\ potential_peaks r1 = potential_peaks r2
  /\ get_peaks r1 = get_peaks (state_of (run B t md p w samples)).
Proof.
  intros H1 H2 r1 r2.
  assert (Hgen : forall f1 f2,
            length f1 = Z.to_nat B -> length f2 = Z.to_nat B ->
            agree_on_written
              (state_of (ingest (fresh B t md p w f1) samples))
              (state_of (ingest (fresh B t md p w f2) samples))).
  { intros f1 f2 Hf1 Hf2. destruct (decide (1 <= B)) as [HB|HB].
    - apply agree_ingest.
      + apply wf_fresh; [done|lia].
      + unfold agree_on_written, fresh. simpl.
        repeat (split; [reflexivity || congruence|]). intros j Hj. lia.
    - replace (Z.to_nat B) with 0%nat in * by lia.
      apply nil_length_inv in Hf1, Hf2. subst f1 f2.
      apply agree_set_buffer_refl. }
  subst r1 r2. unfold get_peaks. split; [|split].
  - now destruct (Hgen fill1 fill2 H1 H2) as (_ & _ & _ & _ & _ & _ & _ & ? & _).
  - now destruct (Hgen fill1 fill2 H1 H2) as (_ & _ & _ & _ & _ & _ & ? & _).
  - unfold run, __init__.
    destruct (Hgen fill1 (replicate (Z.to_nat B) 0%Q) H1)
      as (_ & _ & _ & _ & _ & _ & _ & ? & _); [|done].
    apply length_replicate.
Qed.

Lemma C10_initial_fill_irrelevant_witness :
  get_peaks (state_of (ingest (fresh 4 0 1 None None [9; 9; 9; 9]%Q)
                              [0; 1; 0; 0]%Q))
  = get_peaks (state_of (ingest (fresh 4 0 1 None None [0; 0; 0; 0]%Q)
                                [0; 1; 0; 0]%Q)).
Proof.
  pose proof (C10_initial_fill_irrelevant 4 0%Q 1 None None
                [9; 9; 9; 9]%Q [0; 0; 0; 0]%Q [0; 1; 0; 0]%Q
                eq_refl eq_refl) as H.
  exact (proj1 H).
Defined.

(** ** Monotonicity in the filter levels *)

Lemma opt_le_refl (a : option Q) : opt_le a a.
Proof. destruct a; simpl; [apply Qle_refl|done]. Qed.

(** The scans of the streaming width stay inside the buffer. *)
Lemma width_scan_range (d : PeakDetectorSingleSample) (half_height : Q)
    (peak_index step : Z) :
  1 <= buffer_size d -> 0 <= peak_index < buffer_size d ->
  0 <= width_scan d half_height peak_index step < buffer_size d.
Proof.
  intros HB Hpi. unfold width_scan.
  apply (while_loop_inv (fun st : Z * bool => 0 <= fst st < buffer_size d));
    [|done].
  intros st _ _. simpl. apply Z.mod_pos_bound. lia.
Qed.

Lemma streaming_width_pos (d : PeakDetectorSingleSample) (pk : peak_t) :
  1 <= buffer_size d -> 0 < _calculate_width d pk.
Proof.
  intros HB. unfold _calculate_width.
  assert (Hpi : 0 <= fst pk mod buffer_size d < buffer_size d)
    by (apply Z.mod_pos_bound; lia).
  pose proof (width_scan_range d ((snd pk + threshold d) / 2)%Q _ (-1) HB Hpi).
  pose proof (width_scan_range d ((snd pk + threshold d) / 2)%Q _ 1 HB Hpi).
  destruct (_ >? _) eqn:Hgt; lia.
Qed.

(** The two optional criteria read the buffer, its size and the threshold
    only. *)
Lemma prominence_congr (d e : PeakDetectorSingleSample) (pk : peak_t) :
  buffer d = buffer e -> buffer_size d = buffer_size e ->
  _calculate_prominence d pk = _calculate_prominence e pk.
Proof. intros Hb HB. unfold _calculate_prominence. now rewrite Hb, HB. Qed.

Lemma width_congr (d e : PeakDetectorSingleSample) (pk : peak_t) :
  buffer d = buffer e -> buffer_size d = buffer_size e ->
  threshold d = threshold e ->
  _calculate_width d pk = _calculate_width e pk.
Proof.
  intros Hb HB Ht. unfold _calculate_width, width_scan.
  now rewrite Hb, HB, Ht.
Qed.

(** A criterion that fails at a level fails at every higher level, the
    measured quantity being non-negative. *)
Lemma level_check_mono (a b : option Q) (x : Q) :
  opt_le a b -> (0 <= x)%Q ->
  match a with Some p => truthy_Q p && Qltb x p | None => false end = true ->
  match b with Some p => truthy_Q p && Qltb x p | None => false end = true.
Proof.
  intros Hle Hx. destruct a as [p|]; [|done]. destruct b as [q|]; [|done].
  simpl in Hle. rewrite !andb_true_iff, !truthy_Q_true, !Qltb_lt.
  intros [_ Hlt].
  assert (Hxq : (x < q)%Q) by (eapply Qlt_le_trans; eauto).
  split; [|done]. intros Hz. rewrite Hz in Hxq.
  apply (Qlt_not_le _ _ Hxq Hx).
Qed.

Lemma prominence_check_mono (d e : PeakDetectorSingleSample) (pk : peak_t) :
  buffer d = buffer e -> buffer_size d = buffer_size e ->
  opt_le (prominence d) (prominence e) ->
  snd pk ∈ buffer d ->
  prominence_check_fails d pk = true -> prominence_check_fails e pk = true.
Proof.
  intros Hb HB Hle Hin. unfold prominence_check_fails.
  rewrite <- (prominence_congr d e pk Hb HB).
  apply level_check_mono; [done|].
  assert (Hne : buffer d <> []).
  { intros Hnil. rewrite Hnil in Hin. now apply elem_of_nil in Hin. }
  rewrite (streaming_prominence_eq d pk Hne).
  now apply streaming_prominence_nonneg.
Qed.

Lemma width_check_mono (d e : PeakDetectorSingleSample) (pk : peak_t) :
  buffer d = buffer e -> buffer_size d = buffer_size e ->
  threshold d = threshold e ->
  opt_le (width d) (width e) ->
  1 <= buffer_size d ->
  width_check_fails d pk = true -> width_check_fails e pk = true.
Proof.
  intros Hb HB Ht Hle Hpos. unfold width_check_fails.
  rewrite <- (width_congr d e pk Hb HB Ht).
  apply level_check_mono; [done|].
  pose proof (streaming_width_pos d pk Hpos) as Hw.
  rewrite <- (Zle_Qle 0). lia.
Qed.

Lemma confirm_step_eq (d : PeakDetectorSingleSample) (c : list peak_t)
    (pk : peak_t) :
  confirm_step d c pk
  = if negb (truthy_Z (min_distance d)
             && match last c with
                | Some last_confirmed =>
                    fst pk - fst last_confirmed <? min_distance d
                | None => false
                end)
       && negb (prominence_check_fails d pk)
       && negb (width_check_fails d pk)
    then c ++ [pk] else c.
Proof. unfold confirm_step. now rewrite check_peak_validity_eq. Qed.

Lemma last_None_length {A : Type} (l : list A) :
  last l = None <-> length l = 0%nat.
Proof. rewrite last_None. split; [now intros ->|apply nil_length_inv]. Qed.

(** One resolved candidate keeps the run with the lower levels ahead. *)
Lemma ahead_step (d e : PeakDetectorSingleSample) (c_d c_e : list peak_t)
    (pk : peak_t) :
  min_distance d = min_distance e ->
  (prominence_check_fails d pk = true -> prominence_check_fails e pk = true) ->
  (width_check_fails d pk = true -> width_check_fails e pk = true) ->
  Forall (fun x => fst x < fst pk) c_d ->
  ahead c_d c_e ->
  ahead (confirm_step d c_d pk) (confirm_step e c_e pk).
Proof.
  intros Hmd Hp Hw Hlt Hah. rewrite !confirm_step_eq, <- Hmd.
  set (pass_d := negb (prominence_check_fails d pk)
                 && negb (width_check_fails d pk)).
  set (pass_e := negb (prominence_check_fails e pk)
                 && negb (width_check_fails e pk)).
  assert (Hpass : pass_e = true -> pass_d = true).
  { subst pass_d pass_e.
    destruct (prominence_check_fails d pk); [now rewrite Hp|].
    destruct (width_check_fails d pk); [rewrite Hw by done|]; simpl.
    - now rewrite andb_false_r.
    - done. }
  rewrite <- !andb_assoc. fold pass_d pass_e.
  assert (Hlast : forall a, last c_d = Some a -> fst a < fst pk).
  { intros a Ha. apply last_Some_elem_of in Ha.
    rewrite Forall_forall in Hlt. now apply Hlt. }
  set (far (c : list peak_t) :=
         negb (truthy_Z (min_distance d)
                      && match last c with
                         | Some last_confirmed =>
                             fst pk - fst last_confirmed <? min_distance d
                         | None => false
                         end)).
  change (negb (truthy_Z (min_distance d)
                && match last c_d with
                   | Some last_confirmed =>
                       fst pk - fst last_confirmed <? min_distance d
                   | None => false
                   end)) with (far c_d).
  change (negb (truthy_Z (min_distance d)
                && match last c_e with
                   | Some last_confirmed =>
                       fst pk - fst last_confirmed <? min_distance d
                   | None => false
                   end)) with (far c_e).
  assert (Hfar : length c_e = length c_d ->
                 match last c_d, last c_e with
                 | Some a, Some b => fst a <= fst b
                 | _, _ => True
                 end ->
                 far c_e = true -> far c_d = true).
  { intros Hlen Hl. subst far. simpl.
    destruct (truthy_Z (min_distance d)); [|done]. simpl.
    destruct (last c_d) as [a|] eqn:Ha; [|done].
    destruct (last c_e) as [b|] eqn:Hb.
    - rewrite !negb_true_iff, !Z.ltb_ge. lia.
    - apply last_None_length in Hb.
      assert (Hd0 : last c_d = None) by (apply last_None_length; lia).
      congruence. }
  unfold ahead in *.
  destruct (far c_d && pass_d) eqn:Ad; destruct (far c_e && pass_e) eqn:Ae;
    rewrite ?length_app, ?last_snoc; simpl.
  - destruct Hah as [?|[? _]]; [left; lia|right; split; lia].
  - left. destruct Hah as [?|[? _]]; lia.
  - destruct Hah as [Hl|[Hl Hm]].
    + destruct (decide (length c_e + 1 = length c_d)%nat) as [Heq|Hne];
        [right|left; lia].
      split; [lia|]. destruct (last c_d) as [a|] eqn:Ha.
      * specialize (Hlast a eq_refl). lia.
      * done.
    + apply andb_true_iff in Ae as [Fe Pe].
      rewrite (Hfar Hl Hm Fe), (Hpass Pe) in Ad. discriminate.
  - exact Hah.
Qed.

(** The same over a whole list of resolved candidates that lie after all
    confirmed ones. *)
Lemma ahead_fold (d e : PeakDetectorSingleSample) (l : list peak_t) :
  min_distance d = min_distance e ->
  Forall (fun pk =>
            (prominence_check_fails d pk = true ->
             prominence_check_fails e pk = true)
            /\ (width_check_fails d pk = true ->
                width_check_fails e pk = true)) l ->
  StronglySorted (fun a b : peak_t => fst a < fst b) l ->
  forall c_d c_e,
    Forall (fun x => Forall (fun pk => fst x < fst pk) l) c_d ->
    ahead c_d c_e ->
    ahead (foldl (confirm_step d) c_d l) (foldl (confirm_step e) c_e l).
Proof.
  intros Hmd Hmono Hs. induction l as [|pk l IH]; intros c_d c_e Hlt Hah;
    simpl; [done|].
  apply Forall_cons in Hmono as [[Hp Hw] Hmono].
  apply StronglySorted_cons in Hs as [Hpk Hs].
  apply IH; [done|done| |].
  - rewrite confirm_step_eq.
    match goal with |- context [if ?c then _ else _] => destruct c end.
    + apply Forall_app. split.
      * eapply Forall_impl; [apply Hlt|]. simpl. intros x Hx.
        now apply Forall_cons in Hx as [_ Hx].
      * constructor; [done|constructor].
    + eapply Forall_impl; [apply Hlt|]. simpl. intros x Hx.
      now apply Forall_cons in Hx as [_ Hx].
  - apply ahead_step; [done..| |done].
    eapply Forall_impl; [apply Hlt|]. simpl. intros x Hx.
    now apply Forall_cons in Hx as [Hx _].
Qed.

Lemma ahead_length (c1 c2 : list peak_t) :
  ahead c1 c2 -> (length c2 <= length c1)%nat.
Proof. intros [?|[? _]]; lia. Qed.

(** The candidate test reads neither the filter levels nor the confirmed
    list. *)
Lemma checked_potential_congr (d e : PeakDetectorSingleSample) (sample : Q) :
  buffer_size d = buffer_size e -> threshold d = threshold e ->
  buffer d = buffer e -> buffer_index d = buffer_index e ->
  potential_peaks d = potential_peaks e ->
  sample_count d = sample_count e ->
  potential_peaks (checked d sample) = potential_peaks (checked e sample).
Proof.
  destruct d, e. simpl. intros -> -> -> -> -> ->.
  unfold checked, stored, _check_potential_peak.
  cbn [buffer_size threshold buffer buffer_index potential_peaks sample_count
       set_sample_count set_buffer set_buffer_index set_potential_peaks].
  destruct (_ >=? 3); [|done].
  match goal with |- context [if ?c then _ else _] => destruct c end; done.
Qed.

Lemma lockstep_processed (d e : PeakDetectorSingleSample) (sample : Q) :
  wf d -> pending_fresh d -> ordered d -> lockstep d e ->
  lockstep (processed d sample) (processed e sample).
Proof.
  intros Hwf Hpf Ho (EB & Et & Emd & Lp & Lw & Eb & Ei & Epot & En & Hah).
  pose proof (checked_pending d sample Hwf Hpf) as Hin.
  pose proof (ordered_checked d sample Ho) as [Hs2 _].
  pose proof (checked_potential_congr d e sample EB Et Eb Ei Epot En) as Epot2.
  destruct Hwf as (HB & _).
  destruct (checked_fields d sample)
    as (dB & dt & dmd & dp & dw & db & di & dc & dn & _).
  destruct (checked_fields e sample)
    as (eB & et & emd & ep & ew & eb & ei & ec & en & _).
  rewrite stored_buffer in db, eb. rewrite stored_buffer_index in di, ei.
  assert (Eb2 : buffer (checked d sample) = buffer (checked e sample))
    by (rewrite db, eb; congruence).
  assert (Ei2 : buffer_index (checked d sample)
                = buffer_index (checked e sample))
    by (rewrite di, ei; congruence).
  destruct (processed_fields d sample)
    as (dB3 & dt3 & dmd3 & dp3 & dw3 & db3 & di3 & dn3 & Hd).
  destruct (processed_fields e sample)
    as (eB3 & et3 & emd3 & ep3 & ew3 & eb3 & ei3 & en3 & He).
  unfold lockstep.
  rewrite dB3, dt3, dmd3, dp3, dw3, db3, di3, dn3.
  rewrite eB3, et3, emd3, ep3, ew3, eb3, ei3, en3.
  repeat (split; [done || congruence|]).
  destruct Hd as [[Hsmall ->]|(Hfull & Hc & Hp)];
    destruct He as [[Hsmall' ->]|(Hfull' & Hc' & Hp')]; try lia.
  - split; [exact Epot2|]. split; [congruence|]. now rewrite dc, ec.
  - assert (Eold : forall pk, is_old (checked d sample) pk
                              = is_old (checked e sample) pk).
    { intros pk. unfold is_old. now rewrite dB, eB, dn, en, EB, En. }
    assert (Ekeep : filter (fun pk => negb (is_old (checked d sample) pk))
                      (potential_peaks (checked d sample))
                    = filter (fun pk => negb (is_old (checked e sample) pk))
                        (potential_peaks (checked e sample))).
    { rewrite <- Epot2. apply list_filter_iff. intros pk. now rewrite Eold. }
    assert (Edue : filter (fun pk => is_old (checked d sample) pk)
                     (potential_peaks (checked d sample))
                   = filter (fun pk => is_old (checked e sample) pk)
                       (potential_peaks (checked e sample))).
    { rewrite <- Epot2. apply list_filter_iff. intros pk. now rewrite Eold. }
    split; [now rewrite Hp, Hp'|]. split; [congruence|].
    rewrite Hc, Hc', <- Edue, dc, ec.
    set (due := filter (fun pk => is_old (checked d sample) pk)
                  (potential_peaks (checked d sample))).
    assert (Hdue : due `sublist_of` potential_peaks (checked d sample))
      by apply sublist_filter.
    rewrite dc in Hs2.
    apply StronglySorted_app in Hs2 as (Hcross & _ & Hpot).
    apply ahead_fold; [congruence| | | |done].
    + apply Forall_forall. intros pk Hpk.
      eapply elem_of_sublist in Hpk; [|apply Hdue].
      rewrite Forall_forall in Hin. destruct (Hin pk Hpk) as [_ Hv].
      apply list_elem_of_lookup_2 in Hv. split.
      * apply prominence_check_mono; [done|congruence|congruence|done].
      * apply width_check_mono; [done|congruence|congruence|congruence|lia].
    + eapply StronglySorted_sublist; eauto.
    + apply Forall_forall. intros x Hx. apply Forall_forall. intros pk Hpk.
      apply Hcross; [done|]. eapply elem_of_sublist; eauto.
Qed.

Lemma wf_lockstep (d e : PeakDetectorSingleSample) :
  wf d -> lockstep d e -> wf e.
Proof.
  intros (HB & Hlen & Hn & Hidx) (EB & _ & _ & _ & _ & Eb & Ei & _ & En & _).
  unfold wf. rewrite <- EB, <- Eb, <- Ei, <- En. done.
Qed.

Lemma lockstep_ingest (samples : list Q) :
  forall d e,
    wf d -> pending_fresh d -> ordered d -> lockstep d e ->
    lockstep (state_of (ingest d samples)) (state_of (ingest e samples)).
Proof.
  induction samples as [|sample rest IH]; intros d e Hwf Hpf Ho Hl; simpl;
    [done|].
  rewrite !add_sample_ok by eauto using wf_lockstep.
  apply IH.
  - now apply wf_processed.
  - now apply pending_fresh_processed.
  - now apply ordered_processed.
  - now apply lockstep_processed.
Qed.

(** A detector without buffer slots never confirms anything. *)
Lemma run_no_buffer (B : Z) (t : Q) (md : Z) (p w : option Q)
    (samples : list Q) :
  B <= 0 -> confirmed_peaks (state_of (run B t md p w samples)) = [].
Proof.
  intros HB. unfold run, __init__.
  replace (Z.to_nat B) with 0%nat by lia.
  destruct samples as [|sample rest]; reflexivity.
Qed.

(** Raising one or both levels of the streaming detector, or switching a
    filter on, never adds a confirmed peak. *)
Lemma streaming_levels_mono (B : Z) (t : Q) (md : Z) (p1 p2 w1 w2 : option Q)
    (samples : list Q) :
  opt_le p1 p2 -> opt_le w1 w2 ->
  (length (get_peaks (state_of (run B t md p2 w2 samples)))
   <= length (get_peaks (state_of (run B t md p1 w1 samples))))%nat.
Proof.
  intros Hp Hw. unfold get_peaks. destruct (decide (1 <= B)) as [HB|HB].
  - apply ahead_length. unfold run, __init__.
    assert (Hlen : Z.of_nat (length (replicate (Z.to_nat B) 0%Q)) = B)
      by (rewrite length_replicate; lia).
    eapply lockstep_ingest.
    + now apply wf_fresh.
    + apply pending_fresh_fresh.
    + apply ordered_fresh.
    + unfold lockstep, fresh. simpl. repeat (split; [done|]).
      right. done.
  - rewrite !run_no_buffer by lia. done.
Qed.

Lemma length_filter_mono {A : Type} (P Q : A -> Prop)
    `{!forall x, Decision (P x)} `{!forall x, Decision (Q x)} (l : list A) :
  (forall x, P x -> Q x) ->
  (length (filter P l) <= length (filter Q l))%nat.
Proof.
  intros HPQ. induction l as [|x l IH]; [done|].
  rewrite !filter_cons.
  destruct (decide (P x)) as [HP|HP].
  - rewrite decide_True by auto. simpl. lia.
  - destruct (decide (Q x)); simpl; lia.
Qed.

Lemma batch_passes_mono (s : list Q) (t : Q) (md : Z) (p1 p2 w1 w2 : option Q)
    (pk : Z) :
  opt_le p1 p2 -> opt_le w1 w2 ->
  Batch.passes_filters (Batch.__init__ s t md p2 w2) pk = true ->
  Batch.passes_filters (Batch.__init__ s t md p1 w1) pk = true.
Proof.
  intros Hp Hw. unfold Batch.passes_filters.
  cbn [Batch.prominence Batch.width Batch.__init__].
  change (Batch._calculate_prominence (Batch.__init__ s t md p2 w2) pk)
    with (Batch._calculate_prominence (Batch.__init__ s t md p1 w1) pk).
  change (Batch._calculate_width (Batch.__init__ s t md p2 w2) pk)
    with (Batch._calculate_width (Batch.__init__ s t md p1 w1) pk).
  rewrite !andb_true_iff. intros [H1 H2]. split.
  - destruct p1 as [a|]; [|done]. destruct p2 as [b|]; [|done].
    simpl in Hp. rewrite negb_true_iff, Qltb_ge in *.
    eapply Qle_trans; eauto.
  - destruct w1 as [a|]; [|done]. destruct w2 as [b|]; [|done].
    simpl in Hw. rewrite negb_true_iff, Qltb_ge in *.
    eapply Qle_trans; eauto.
Qed.

(** Raising one or both levels of the batch detector, or switching a filter
    on, leaves the returned peaks as they are and never lengthens the
    property lists. *)
Lemma batch_levels_mono (s : list Q) (t : Q) (md : Z) (p1 p2 w1 w2 : option Q) :
  opt_le p1 p2 -> opt_le w1 w2 ->
  let r1 := Batch.detect_peaks (Batch.__init__ s t md p1 w1) in
  let r2 := Batch.detect_peaks (Batch.__init__ s t md p2 w2) in
  fst r2 = fst r1
  /\ (length (Batch.heights (snd r2)) <= length (Batch.heights (snd r1)))%nat.
Proof.
  intros Hp Hw r1 r2. subst r1 r2. split; [reflexivity|].
  unfold Batch.detect_peaks. cbn [snd].
  set (peaks1 := Batch._enforce_min_distance
                   (Batch.initial_peaks (Batch.__init__ s t md p1 w1))
                   (Batch.min_distance (Batch.__init__ s t md p1 w1))).
  change (Batch._enforce_min_distance
            (Batch.initial_peaks (Batch.__init__ s t md p2 w2))
            (Batch.min_distance (Batch.__init__ s t md p2 w2)))
    with peaks1.
  destruct (properties_fold (Batch.__init__ s t md p1 w1) peaks1
              {| Batch.heights := []; Batch.prominences := [];
                 Batch.widths := [] |}) as (-> & _).
  destruct (properties_fold (Batch.__init__ s t md p2 w2) peaks1
              {| Batch.heights := []; Batch.prominences := [];
                 Batch.widths := [] |}) as (-> & _).
  simpl. rewrite !length_fmap. apply length_filter_mono.
  intros x. rewrite !Is_true_true. now apply batch_passes_mono.
Qed.

(** C9.  With every other parameter fixed, raising [prominence] from [p1] to
    [p2 >= p1] never increases the number of peaks the batch detector
    returns nor the number of entries of its property lists, and never
    increases the number of peaks the streaming detector has confirmed after
    any sample sequence; likewise for [width]. *)
Theorem C9_filter_monotonicity :
  (forall s t md w (p1 p2 : Q),
     (p1 <= p2)%Q ->
     let r1 := Batch.detect_peaks (Batch.__init__ s t md (Some p1) w) in
     let r2 := Batch.detect_peaks (Batch.__init__ s t md (Some p2) w) in
     (length (fst r2) <= length (fst r1))%nat
     /\ (length (Batch.heights (snd r2))
         <= length (Batch.heights (snd r1)))%nat)
  /\ (forall s t md p (w1 w2 : Q),
        (w1 <= w2)%Q ->
        let r1 := Batch.detect_peaks (Batch.__init__ s t md p (Some w1)) in
        let r2 := Batch.detect_peaks (Batch.__init__ s t md p (Some w2)) in
        (length (fst r2) <= length (fst r1))%nat
        /\ (length (Batch.heights (snd r2))
            <= length (Batch.heights (snd r1)))%nat)
  /\ (forall B t md w (p1 p2 : Q) samples,
        (p1 <= p2)%Q ->
        (length (get_peaks (state_of (run B t md (Some p2) w samples)))
         <= length (get_peaks (state_of (run B t md (Some p1) w samples))))%nat)
  /\ (forall B t md p (w1 w2 : Q) samples,
        (w1 <= w2)%Q ->
        (length (get_peaks (state_of (run B t md p (Some w2) samples)))
         <= length (get_peaks (state_of (run B t md p (Some w1) samples))))%nat).
Proof.
  split; [|split; [|split]].
  - intros s t md w p1 p2 Hle r1 r2.
    destruct (batch_levels_mono s t md (Some p1) (Some p2) w w Hle
                (opt_le_refl w)) as [Hpk Hh].
    fold r1 r2 in Hpk, Hh. rewrite Hpk. split; [done|exact Hh].
  - intros s t md p w1 w2 Hle r1 r2.
    destruct (batch_levels_mono s t md p p (Some w1) (Some w2)
                (opt_le_refl p) Hle) as [Hpk Hh].
    fold r1 r2 in Hpk, Hh. rewrite Hpk. split; [done|exact Hh].
  - intros B t md w p1 p2 samples Hle.
    apply streaming_levels_mono; [exact Hle|apply opt_le_refl].
  - intros B t md p w1 w2 samples Hle.
    apply streaming_levels_mono; [apply opt_le_refl|exact Hle].
Qed.

Lemma C9_filter_monotonicity_witness :
  (length (get_peaks (state_of
             (run 4 0 1 None (Some 3%Q) [0; 1; 0; 0; 0; 2; 0; 0]%Q)))
   <= length (get_peaks (state_of
                (run 4 0 1 None (Some 1%Q) [0; 1; 0; 0; 0; 2; 0; 0]%Q))))%nat.
Proof.
  destruct C9_filter_monotonicity as (_ & _ & _ & H).
  apply (H 4 0%Q 1 None 1%Q 3%Q [0; 1; 0; 0; 0; 2; 0; 0]%Q).
  discriminate.
Defined.

(** ** The loop bounds are never exhausted *)

Lemma getitem_lookup (l : list Q) (i : Z) :
  0 <= i < Z.of_nat (length l) -> l !! Z.to_nat i = Some (getitem l i).
Proof.
  intros Hi. unfold getitem.
  destruct (lookup_lt_is_Some_2 l (Z.to_nat i)) as [x ->]; [lia|done].
Qed.

(** Every slot index of the streaming detector is a position of the
    buffer. *)
Lemma slot_in_range (d : PeakDetectorSingleSample) (x : Z) :
  wf d -> 0 <= x mod buffer_size d < Z.of_nat (length (buffer d)).
Proof.
  intros (HB & Hlen & _). rewrite Hlen. apply Z.mod_pos_bound. lia.
Qed.

Section BatchLoops.
Variable d : Batch.PeakDetector.
Variable peak : Z.
Hypothesis peak_in_range : 0 <= peak < Batch.len d.

Lemma left_base_exit :
  let left_base := Batch.left_base_of d peak in
  (0 <? left_base)
  && Qleb (getitem (Batch.signal d) left_base)
          (getitem (Batch.signal d) (left_base - 1)) = false.
Proof.
  apply (while_loop_exit (fun _ => True) Z.to_nat
           (fun left_base =>
              (0 <? left_base)
              && Qleb (getitem (Batch.signal d) left_base)
                      (getitem (Batch.signal d) (left_base - 1))));
    [|done|unfold Batch.len in peak_in_range; lia].
  intros s _ [Hs _]%andb_true_iff. split; [done|lia].
Qed.

Lemma right_base_exit :
  let right_base := Batch.right_base_of d peak in
  (right_base <? Batch.len d - 1)
  && Qleb (getitem (Batch.signal d) right_base)
          (getitem (Batch.signal d) (right_base + 1)) = false.
Proof.
  apply (while_loop_exit (fun _ => True)
           (fun right_base => Z.to_nat (Batch.len d - 1 - right_base))
           (fun right_base =>
              (right_base <? Batch.len d - 1)
              && Qleb (getitem (Batch.signal d) right_base)
                      (getitem (Batch.signal d) (right_base + 1))));
    [|done|unfold Batch.len in *; lia].
  intros s _ [Hs _]%andb_true_iff. split; [done|lia].
Qed.

Lemma width_left_exit (half_height : Q) :
  let cond := fun left_idx =>
    (0 <? left_idx) && Qgtb (getitem (Batch.signal d) left_idx) half_height in
  cond (while_loop (length (Batch.signal d)) cond
          (fun left_idx => left_idx - 1) peak) = false.
Proof.
  intros cond. subst cond.
  apply (while_loop_exit (fun _ => True) Z.to_nat);
    [|done|unfold Batch.len in peak_in_range; lia].
  intros s _ [Hs _]%andb_true_iff. split; [done|lia].
Qed.

Lemma width_right_exit (half_height : Q) :
  let cond := fun right_idx =>
    (right_idx <? Batch.len d - 1)
    && Qgtb (getitem (Batch.signal d) right_idx) half_height in
  cond (while_loop (length (Batch.signal d)) cond
          (fun right_idx => right_idx + 1) peak) = false.
Proof.
  intros cond. subst cond.
  apply (while_loop_exit (fun _ => True)
           (fun right_idx => Z.to_nat (Batch.len d - 1 - right_idx)));
    [|done|unfold Batch.len in *; lia].
  intros s _ [Hs _]%andb_true_iff. split; [done|lia].
Qed.
End BatchLoops.

Section StreamingScan.
Variable d : PeakDetectorSingleSample.
Variable half_height : Q.
Variable peak_index step : Z.
Hypothesis d_wf : wf d.
Hypothesis peak_index_range : 0 <= peak_index < buffer_size d.
Hypothesis step_unit : step = 1 \/ step = -1.

Lemma scan_offset (pos : Z) :
  (step * (peak_index - (pos + step) mod buffer_size d)) mod buffer_size d
  = (step * (peak_index - pos) - 1) mod buffer_size d.
Proof.
  rewrite <- Z.mul_mod_idemp_r by lia.
  rewrite Zminus_mod_idemp_r.
  rewrite Z.mul_mod_idemp_r by lia.
  f_equal. destruct step_unit as [-> | ->]; lia.
Qed.

(** Each scan ends because its sample is not above half height or because
    it came back to the peak, never because the bound ran out. *)
Lemma width_scan_exit :
  let st := while_loop (length (buffer d))
              (fun st : Z * bool =>
                 negb (snd st)
                 && Qgtb (getitem (buffer d) (fst st)) half_height)
              (fun st : Z * bool =>
                 let pos := (fst st + step) mod buffer_size d in
                 (pos, pos =? peak_index))
              (peak_index, false) in
  negb (snd st) && Qgtb (getitem (buffer d) (fst st)) half_height = false.
Proof.
  destruct d_wf as (HB & Hlen & _).
  apply (while_loop_exit
           (fun st : Z * bool => 0 <= fst st < buffer_size d)
           (fun st : Z * bool =>
              if snd st then 0%nat
              else if fst st =? peak_index then Z.to_nat (buffer_size d)
              else Z.to_nat ((step * (peak_index - fst st))
                             mod buffer_size d))
           (fun st : Z * bool =>
              negb (snd st)
              && Qgtb (getitem (buffer d) (fst st)) half_height));
    [|simpl; lia|simpl; rewrite Z.eqb_refl; lia].
  intros [pos broke] Hpos [Hb _]%andb_true_iff. simpl in *.
  apply negb_true_iff in Hb. subst broke.
  set (pos' := (pos + step) mod buffer_size d).
  assert (Hpos' : 0 <= pos' < buffer_size d)
    by (apply Z.mod_pos_bound; lia).
  split; [done|].
  assert (Hm : pos <> peak_index ->
               0 < (step * (peak_index - pos)) mod buffer_size d).
  { intros Hne.
    pose proof (Z.mod_pos_bound (step * (peak_index - pos)) (buffer_size d)).
    destruct (decide ((step * (peak_index - pos)) mod buffer_size d = 0))
      as [Hz|]; [|lia].
    apply Z.mod_divide in Hz; [|lia]. destruct Hz as [k Hk].
    assert (Hk' : k <= -1 \/ k = 0 \/ 1 <= k) by lia.
    assert (Hlo : k <= -1 -> k * buffer_size d <= - buffer_size d) by nia.
    assert (Hhi : 1 <= k -> buffer_size d <= k * buffer_size d) by nia.
    destruct step_unit as [Hst | Hst]; rewrite Hst in Hk; lia. }
  destruct (pos' =? peak_index) eqn:Hback.
  - destruct (pos =? peak_index) eqn:Hhere; [lia|].
    apply Z.eqb_neq in Hhere. specialize (Hm Hhere). lia.
  - subst pos'. rewrite scan_offset.
    destruct (pos =? peak_index) eqn:Hhere.
    + apply Z.eqb_eq in Hhere. subst pos.
      replace (step * (peak_index - peak_index) - 1) with (-1) by lia.
      pose proof (Z.mod_pos_bound (-1) (buffer_size d)). lia.
    + apply Z.eqb_neq in Hhere. specialize (Hm Hhere).
      rewrite <- Zminus_mod_idemp_l.
      pose proof (Z.mod_pos_bound (step * (peak_index - pos))
                    (buffer_size d)).
      rewrite Z.mod_small by lia. lia.
Qed.
End StreamingScan.

(** * Further properties of the batch detector *)

Lemma filter_none {A : Type} (P : A -> Prop) `{!forall x, Decision (P x)}
    (l : list A) :
  (forall x, x ∈ l -> ~ P x) -> filter P l = [].
Proof.
  induction l as [|x l IH]; intros Hall; [done|].
  rewrite filter_cons, decide_False by (apply Hall; left).
  apply IH. intros y Hy. apply Hall. now right.
Qed.

Lemma filter_all {A : Type} (P : A -> Prop) `{!forall x, Decision (P x)}
    (l : list A) :
  (forall x, x ∈ l -> P x) -> filter P l = l.
Proof.
  induction l as [|x l IH]; intros Hall; [done|].
  rewrite filter_cons, decide_True by (apply Hall; left).
  f_equal. apply IH. intros y Hy. apply Hall. now right.
Qed.

Lemma detect_peaks_sublist (d : Batch.PeakDetector) :
  fst (Batch.detect_peaks d) `sublist_of` Batch.initial_peaks d.
Proof. simpl. rewrite enforce_min_distance_spec. apply distance_filter_sublist. Qed.



(** X2.  A signal of fewer than three samples has no peaks: [detect_peaks]
    returns the empty list and three empty property lists, whatever the
    configuration. *)
Theorem X2_batch_short_signal (d : Batch.PeakDetector) :
  (length (Batch.signal d) < 3)%nat ->
  Batch.detect_peaks d
  = ([], {| Batch.heights := []; Batch.prominences := [];
            Batch.widths := [] |}).
Proof.
  intros Hlen. unfold Batch.detect_peaks, Batch.initial_peaks.
  rewrite seqZ_nil by (unfold Batch.len; lia). reflexivity.
Qed.

Lemma X2_batch_short_signal_witness :
  Batch.detect_peaks (Batch.__init__ [1; 9]%Q 0 1 (Some 1%Q) None)
  = ([], {| Batch.heights := []; Batch.prominences := [];
            Batch.widths := [] |}).
Proof.
  apply (X2_batch_short_signal (Batch.__init__ [1; 9]%Q 0 1 (Some 1%Q) None)).
  simpl. lia.
Defined.

Lemma getitem_replicate (n : nat) (c : Q) (i : Z) :
  0 <= i < Z.of_nat n -> getitem (replicate n c) i = c.
Proof.
  intros Hi. unfold getitem. rewrite lookup_replicate_2 by lia. done.
Qed.



Lemma keep_after_all (min_distance last_kept : Z) (l : list Z) :
  min_distance <= 1 ->
  StronglySorted Z.lt (last_kept :: l) ->
  Spec.keep_after min_distance last_kept l = l.
Proof.
  intros Hmd. revert last_kept. induction l as [|c l IH]; intros k Hs; [done|].
  apply StronglySorted_cons in Hs as [Hk Hs].
  apply Forall_cons in Hk as [Hc _]. simpl.
  replace (c - k >=? min_distance) with true by lia.
  f_equal. now apply IH.
Qed.

(** X4.  With [min_distance <= 1], the default 1 included, the distance
    filter drops nothing: the returned peaks are all the candidates of the
    scan. *)
Theorem X4_batch_default_distance_keeps_all (d : Batch.PeakDetector) :
  Batch.min_distance d <= 1 ->
  fst (Batch.detect_peaks d) = Batch.initial_peaks d.
Proof.
  intros Hmd. simpl. rewrite enforce_min_distance_spec.
  pose proof (initial_peaks_increasing d) as Hs.
  destruct (Batch.initial_peaks d) as [|c l]; [done|]. simpl.
  f_equal. now apply keep_after_all.
Qed.

Lemma X4_batch_default_distance_keeps_all_witness :
  fst (Batch.detect_peaks (spike_detector 1))
  = Batch.initial_peaks (spike_detector 1).
Proof.
  apply (X4_batch_default_distance_keeps_all (spike_detector 1)).
  simpl. lia.
Defined.

Lemma keep_after_idem (min_distance : Z) (l : list Z) :
  forall last_kept,
    Spec.keep_after min_distance last_kept
      (Spec.keep_after min_distance last_kept l)
    = Spec.keep_after min_distance last_kept l.
Proof.
  induction l as [|c l IH]; intros k; [done|]. simpl.
  destruct (c - k >=? min_distance) eqn:Hge; [|apply IH].
  simpl. rewrite Hge. f_equal. apply IH.
Qed.

(** X5.  The distance filter is idempotent on every list of indices:
    filtering an already filtered list changes nothing. *)
Theorem X5_enforce_min_distance_idempotent (peaks : list Z) (min_distance : Z) :
  Batch._enforce_min_distance
    (Batch._enforce_min_distance peaks min_distance) min_distance
  = Batch._enforce_min_distance peaks min_distance.
Proof.
  rewrite !enforce_min_distance_spec.
  destruct peaks as [|c l]; [done|]. simpl. f_equal. apply keep_after_idem.
Qed.

Lemma keep_after_dropped (min_distance : Z) (l : list Z) :
  forall last_kept c,
    StronglySorted Z.lt (last_kept :: l) ->
    c ∈ l -> c ∉ Spec.keep_after min_distance last_kept l ->
    exists k, k ∈ last_kept :: Spec.keep_after min_distance last_kept l
              /\ k < c /\ c - k < min_distance.
Proof.
  induction l as [|x l IH]; intros k c Hs Hc Hout.
  - now apply elem_of_nil in Hc.
  - apply StronglySorted_cons in Hs as [Hk Hs].
    apply Forall_cons in Hk as [Hx Hk]. simpl in Hout |- *.
    destruct (x - k >=? min_distance) eqn:Hge.
    + apply elem_of_cons in Hc as [->|Hc]; [exfalso; apply Hout; left|].
      destruct (IH x c Hs Hc) as (k' & Hk' & Hlt & Hclose).
      { intros Hin. apply Hout. now right. }
      exists k'. split; [now right|done].
    + apply elem_of_cons in Hc as [->|Hc].
      * exists k. split; [left|lia].
      * apply IH; [|done..]. apply StronglySorted_cons. split; [done|].
        now apply StronglySorted_cons in Hs as [_ Hs].
Qed.

(** X6.  Any two peaks [detect_peaks] returns are at least [min_distance]
    apart, and no candidate is dropped without cause: every candidate of the
    scan that is not returned lies less than [min_distance] after a returned
    peak. *)
Theorem X6_batch_peaks_separated_and_maximal (d : Batch.PeakDetector) :
  let peaks := fst (Batch.detect_peaks d) in
  (forall a b, a ∈ peaks -> b ∈ peaks -> a < b ->
               Batch.min_distance d <= b - a)
  /\ (forall c, c ∈ Batch.initial_peaks d -> c ∉ peaks ->
                exists k, k ∈ peaks /\ k < c
                          /\ c - k < Batch.min_distance d).
Proof.
  intros peaks. subst peaks. simpl. rewrite enforce_min_distance_spec.
  pose proof (initial_peaks_increasing d) as Hs. split.
  - intros a b Ha Hb Hab.
    pose proof (distance_filter_separated (Batch.min_distance d) _ Hs) as Hsep.
    destruct (StronglySorted_elem_of_pair _ _ a b Hsep Ha Hb) as [?|[?|?]];
      lia.
  - intros c Hc Hout. destruct (Batch.initial_peaks d) as [|c0 l].
    + now apply elem_of_nil in Hc.
    + simpl in Hout |- *.
      apply elem_of_cons in Hc as [->|Hc]; [exfalso; apply Hout; left|].
      apply keep_after_dropped; [done..|].
      intros Hin. apply Hout. now right.
Qed.

(** X7.  The three property lists always have one common length, at most
    the number of returned peaks.  With both optional filters absent they
    are aligned with the peaks: the heights are the samples at the peaks and
    every prominence and width entry is [None]. *)
Theorem X7_batch_properties_alignment (d : Batch.PeakDetector) :
  let peaks := fst (Batch.detect_peaks d) in
  let props := snd (Batch.detect_peaks d) in
  length (Batch.prominences props) = length (Batch.heights props)
  /\ length (Batch.widths props) = length (Batch.heights props)
  /\ (length (Batch.heights props) <= length peaks)%nat
  /\ (Batch.prominence d = None -> Batch.width d = None ->
      Batch.heights props = getitem (Batch.signal d) <$> peaks
      /\ Batch.prominences props = replicate (length peaks) None
      /\ Batch.widths props = replicate (length peaks) None).
Proof.
  intros peaks props. subst peaks props. unfold Batch.detect_peaks.
  cbn [fst snd].
  set (peaks := Batch._enforce_min_distance _ _).
  destruct (properties_fold d peaks
              {| Batch.heights := []; Batch.prominences := [];
                 Batch.widths := [] |}) as (-> & -> & ->).
  simpl. rewrite !length_fmap. split; [done|]. split; [done|].
  split; [apply length_filter|].
  intros Hp Hw. rewrite Hp, Hw.
  rewrite filter_all.
  - split; [done|]. split; now apply const_fmap.
  - intros x _. apply Is_true_true. unfold Batch.passes_filters.
    now rewrite Hp, Hw.
Qed.

Lemma X7_batch_properties_alignment_witness :
  Batch.heights (snd (Batch.detect_peaks (spike_detector 3)))
  = getitem spike_signal <$> fst (Batch.detect_peaks (spike_detector 3)).
Proof.
  destruct (X7_batch_properties_alignment (spike_detector 3))
    as (_ & _ & _ & H).
  exact (proj1 (H eq_refl eq_refl)).
Defined.

(** X9.  On a non-negative threshold every candidate has batch prominence
    0, so a positive prominence level empties the three property lists. *)
Theorem X9_batch_positive_prominence_rejects_all (d : Batch.PeakDetector)
    (q : Q) :
  (0 <= Batch.threshold d)%Q ->
  Batch.prominence d = Some q -> (0 < q)%Q ->
  snd (Batch.detect_peaks d)
  = {| Batch.heights := []; Batch.prominences := []; Batch.widths := [] |}.
Proof.
  intros Ht Hp Hq.
  assert (Hnone : filter (fun p => Batch.passes_filters d p)
                    (fst (Batch.detect_peaks d)) = []).
  { apply filter_none. intros i Hi Hpass.
    eapply elem_of_sublist in Hi; [|apply detect_peaks_sublist].
    destruct (batch_prominence_of_peak d i Ht Hi) as (_ & _ & Hz).
    apply Is_true_true in Hpass. unfold Batch.passes_filters in Hpass.
    rewrite Hp in Hpass. apply andb_true_iff in Hpass as [Hpass _].
    apply negb_true_iff, Qltb_ge in Hpass. rewrite Hz in Hpass.
    apply (Qlt_not_le _ _ Hq Hpass). }
  unfold Batch.detect_peaks in *. cbn [fst snd] in *.
  destruct (properties_fold d
              (Batch._enforce_min_distance (Batch.initial_peaks d)
                 (Batch.min_distance d))
              {| Batch.heights := []; Batch.prominences := [];
                 Batch.widths := [] |}) as (H1 & H2 & H3).
  rewrite Hnone in H1, H2, H3. simpl in H1, H2, H3.
  destruct (foldl _ _ _) as [hs ps ws]. simpl in *. congruence.
Qed.

Lemma X9_batch_positive_prominence_rejects_all_witness :
  snd (Batch.detect_peaks ridge_detector)
  = {| Batch.heights := []; Batch.prominences := []; Batch.widths := [] |}.
Proof.
  apply (X9_batch_positive_prominence_rejects_all ridge_detector 1%Q);
    [discriminate|reflexivity|reflexivity].
Defined.

(** * Further properties of the streaming detector *)

Lemma processed_sample_count (d : PeakDetectorSingleSample) (sample : Q) :
  sample_count (processed d sample) = sample_count d + 1.
Proof. now destruct (processed_fields d sample) as (_&_&_&_&_&_&_&?&_). Qed.

Lemma processed_buffer_size (d : PeakDetectorSingleSample) (sample : Q) :
  buffer_size (processed d sample) = buffer_size d.
Proof. now destruct (processed_fields d sample) as (?&_). Qed.

(** Before the window fills, and before the third sample, nothing is
    confirmed. *)
Lemma warm_up_ingest (samples : list Q) :
  forall d,
    wf d ->
    sample_count d + Z.of_nat (length samples) < buffer_size d
    \/ (sample_count d + Z.of_nat (length samples) < 3
        /\ potential_peaks d = []) ->
    confirmed_peaks (state_of (ingest d samples)) = confirmed_peaks d.
Proof.
  induction samples as [|sample rest IH]; intros d Hwf Hn; [done|].
  cbn [length] in Hn. cbn [ingest]. rewrite add_sample_ok by done.
  destruct (checked_fields d sample)
    as (HB & _ & _ & _ & _ & _ & _ & Hc & Hn2 & Hpot).
  destruct (processed_fields d sample)
    as (_ & _ & _ & _ & _ & _ & _ & _ & Hcase).
  assert (Hconf : confirmed_peaks (processed d sample) = confirmed_peaks d
                  /\ (sample_count d + 1 < 3 -> potential_peaks d = [] ->
                      potential_peaks (processed d sample) = [])).
  { destruct Hcase as [[_ ->]|(Hfull & Hc' & Hp')].
    - split; [done|]. intros Hlt Hnil.
      destruct Hpot as [->|[? _]]; [done|lia].
    - destruct Hn as [Hn|[Hn Hnil]]; [lia|].
      destruct Hpot as [Hpot|[? _]]; [|lia].
      rewrite Hc', Hp', Hpot, Hnil, Hc. simpl. done. }
  destruct Hconf as [Hconf Hpend]. rewrite <- Hconf.
  apply IH; [now apply wf_processed|].
  rewrite processed_sample_count, processed_buffer_size.
  destruct Hn as [Hn|[Hn Hnil]]; [left; lia|right].
  split; [lia|]. apply Hpend; [lia|done].
Qed.

(** X10.  Warm-up: a run of fewer than three samples, or of fewer samples
    than [buffer_size], returns an empty list of confirmed peaks. *)
Theorem X10_streaming_warm_up (B : Z) (t : Q) (md : Z) (p w : option Q)
    (samples : list Q) :
  (length samples < 3)%nat \/ Z.of_nat (length samples) < B ->
  get_peaks (state_of (run B t md p w samples)) = [].
Proof.
  intros Hn. unfold get_peaks. destruct (decide (1 <= B)) as [HB|HB].
  - unfold run, __init__.
    rewrite warm_up_ingest; [done| |].
    + apply wf_fresh; [done|]. rewrite length_replicate. lia.
    + simpl. destruct Hn as [Hn|Hn]; [right; split; [lia|done]|left; lia].
  - apply run_no_buffer. lia.
Qed.

Lemma X10_streaming_warm_up_witness :
  get_peaks (state_of (run 10 0 1 None None early_spike)) = [].
Proof.
  apply (X10_streaming_warm_up 10 0%Q 1 None None early_spike).
  right. simpl. lia.
Defined.

(** The window invariant is kept by every sample. *)
Lemma holds_recent_processed (d : PeakDetectorSingleSample) (hist : list Q)
    (sample : Q) :
  wf d -> holds_recent d hist ->
  holds_recent (processed d sample) (hist ++ [sample]).
Proof.
  intros Hwf [Hn Hk]. pose proof (wf_cursor d Hwf) as Hcur.
  destruct Hwf as (HB & Hlen & Hn0 & Hidx).
  destruct (checked_fields d sample)
    as (_ & _ & _ & _ & _ & Hb & _ & _ & _ & _).
  destruct (processed_fields d sample)
    as (HB3 & _ & _ & _ & _ & Hb3 & _ & Hn3 & _).
  unfold holds_recent. rewrite HB3, Hn3, Hb3, Hb, stored_buffer.
  split; [rewrite length_app; simpl; lia|].
  intros k Hk0 Hkr. rewrite Hidx.
  destruct (decide (k = sample_count d)) as [->|Hne].
  - rewrite list_lookup_insert_eq by lia.
    rewrite Hn, Nat2Z.id. symmetry. apply list_lookup_middle. done.
  - rewrite list_lookup_insert_ne.
    + rewrite Hk by lia. symmetry. apply lookup_app_l. lia.
    + pose proof (slot_distinct (sample_count d) k (buffer_size d)).
      pose proof (Z.mod_pos_bound (sample_count d) (buffer_size d)).
      pose proof (Z.mod_pos_bound k (buffer_size d)). lia.
Qed.

Lemma holds_recent_ingest (rest : list Q) :
  forall d hist,
    wf d -> holds_recent d hist ->
    holds_recent (state_of (ingest d rest)) (hist ++ rest).
Proof.
  induction rest as [|sample rest IH]; intros d hist Hwf Hh; simpl.
  - now rewrite app_nil_r.
  - rewrite add_sample_ok by done.
    replace (hist ++ sample :: rest) with ((hist ++ [sample]) ++ rest)
      by (now rewrite <- app_assoc).
    apply IH; [now apply wf_processed|now apply holds_recent_processed].
Qed.

Lemma holds_recent_fresh (B : Z) (t : Q) (md : Z) (p w : option Q)
    (fill : list Q) :
  holds_recent (fresh B t md p w fill) [].
Proof. split; [done|]. simpl. intros k ? ?. lia. Qed.

Lemma wf_ingest (samples : list Q) :
  forall d, wf d -> wf (state_of (ingest d samples)).
Proof.
  intros d Hwf. destruct (ingest_ok samples d Hwf) as (d' & -> & Hwf'). done.
Qed.

(** X11.  The circular window: after a run of [n] samples on a detector
    with [buffer_size >= 1], the counter is [n], the cursor is
    [n mod buffer_size], the buffer still has [buffer_size] slots, and each
    of the last [buffer_size] samples [k] sits in slot [k mod buffer_size]. *)
Theorem X11_streaming_window_contents (B : Z) (t : Q) (md : Z)
    (p w : option Q) (samples : list Q) :
  1 <= B ->
  let d := state_of (run B t md p w samples) in
  let n := Z.of_nat (length samples) in
  sample_count d = n
  /\ buffer_index d = n mod B
  /\ Z.of_nat (length (buffer d)) = B
  /\ forall k : Z,
       0 <= k -> n - B <= k < n ->
       buffer d !! Z.to_nat (k mod B) = samples !! Z.to_nat k.
Proof.
  intros HB d n. subst d n. unfold run, __init__.
  set (d0 := fresh B t md p w (replicate (Z.to_nat B) 0%Q)).
  assert (Hwf0 : wf d0)
    by (apply wf_fresh; [done|]; rewrite length_replicate; lia).
  pose proof (wf_ingest samples d0 Hwf0) as (_ & Hlen & _ & Hidx).
  destruct (holds_recent_ingest samples d0 [] Hwf0
              (holds_recent_fresh _ _ _ _ _ _)) as [Hn Hk].
  simpl in Hn, Hk.
  destruct (ingest_invariants samples d0 (state_of (ingest d0 samples)))
    as (_ & _ & _ & HBeq); [done|apply pending_fresh_fresh|apply ordered_fresh| |].
  { destruct (ingest_ok samples d0 Hwf0) as (d' & Hd' & _).
    rewrite Hd'. done. }
  simpl in HBeq. rewrite HBeq in *. rewrite Hn in *.
  repeat (split; [done|]). exact Hk.
Qed.

Lemma X11_streaming_window_contents_witness :
  buffer_index (state_of (run 4 0 1 None None early_spike)) = 6 mod 4.
Proof.
  destruct (X11_streaming_window_contents 4 0%Q 1 None None early_spike)
    as (_ & H & _); [lia|exact H].
Defined.

Lemma increasing_in_range_length (l : list peak_t) :
  forall lo hi : Z,
    StronglySorted (fun a b : peak_t => fst a < fst b) l ->
    Forall (fun pk => lo <= fst pk <= hi) l ->
    Z.of_nat (length l) <= Z.max 0 (hi - lo + 1).
Proof.
  induction l as [|x l IH]; intros lo hi Hs Hr; simpl; [lia|].
  apply StronglySorted_cons in Hs as [Hx Hs].
  apply Forall_cons in Hr as [Hxr Hr].
  specialize (IH (fst x + 1) hi Hs).
  assert (Hr' : Forall (fun pk => fst x + 1 <= fst pk <= hi) l).
  { rewrite Forall_forall in *. intros y Hy.
    specialize (Hx y Hy). specialize (Hr y Hy). lia. }
  specialize (IH Hr'). lia.
Qed.

(** X15.  The pending queue is bounded: on a detector with
    [buffer_size >= 1] it never holds more than [buffer_size - 2]
    candidates, and once [buffer_size] samples have arrived never more than
    [buffer_size // 2 - 2]; so for [buffer_size <= 5] every candidate found
    after the window has filled is resolved by the call that finds it. *)
Theorem X15_streaming_pending_bounded (B : Z) (t : Q) (md : Z)
    (p w : option Q) (samples : list Q) :
  1 <= B ->
  let d := state_of (run B t md p w samples) in
  Z.of_nat (length (potential_peaks d)) <= Z.max 0 (B - 2)
  /\ (B <= Z.of_nat (length samples) ->
      Z.of_nat (length (potential_peaks d)) <= Z.max 0 (B / 2 - 2)).
Proof.
  intros HB d.
  assert (Hwf0 : wf (fresh B t md p w (replicate (Z.to_nat B) 0%Q)))
    by (apply wf_fresh; [done|]; rewrite length_replicate; lia).
  assert (Hrun : run B t md p w samples = Ok d).
  { subst d. unfold run, __init__.
    destruct (ingest_ok samples _ Hwf0) as (d' & -> & _). done. }
  destruct (run_invariants B t md p w samples d HB Hrun)
    as (Hwf & Hpf & [Hs _] & HBd).
  assert (Hn : sample_count d = Z.of_nat (length samples)).
  { subst d. unfold run, __init__.
    now destruct (holds_recent_ingest samples _ [] Hwf0
                    (holds_recent_fresh _ _ _ _ _ _)) as [Hn _]. }
  apply StronglySorted_app_1_r in Hs.
  unfold pending_fresh in Hpf. rewrite HBd in Hpf.
  assert (Hhalf : B / 2 <= B) by (apply Z.div_le_upper_bound; lia).
  destruct (decide (sample_count d < B)) as [Hsmall|Hfull].
  - split; [|lia].
    pose proof (increasing_in_range_length (potential_peaks d) 0
                  (sample_count d - 2) Hs) as Hlen.
    assert (Hr : Forall (fun pk => 0 <= fst pk <= sample_count d - 2)
                   (potential_peaks d))
      by (eapply Forall_impl; [apply Hpf|]; simpl; tauto).
    specialize (Hlen Hr). lia.
  - pose proof (increasing_in_range_length (potential_peaks d)
                  (sample_count d - B / 2 + 1) (sample_count d - 2) Hs)
      as Hlen.
    assert (Hr : Forall (fun pk => sample_count d - B / 2 + 1 <= fst pk
                                   <= sample_count d - 2)
                   (potential_peaks d)).
    { eapply Forall_impl; [apply Hpf|]. simpl. intros pk (? & ? & _). lia. }
    specialize (Hlen Hr). split; [lia|]. intros _. lia.
Qed.

Lemma X15_streaming_pending_bounded_witness :
  Z.of_nat (length (potential_peaks
                      (state_of (run 10 0 1 None None early_spike))))
  <= Z.max 0 (10 - 2).
Proof.
  destruct (X15_streaming_pending_bounded 10 0%Q 1 None None early_spike)
    as [H _]; [lia|exact H].
Defined.



(** A confirmed candidate is [min_distance] away from every peak confirmed
    before it. *)
Lemma separated_step (d : PeakDetectorSingleSample) (c : list peak_t)
    (pk : peak_t) :
  Forall (fun x => fst x < fst pk) c ->
  StronglySorted
    (fun a b : peak_t => fst a < fst b /\ min_distance d <= fst b - fst a) c ->
  StronglySorted
    (fun a b : peak_t => fst a < fst b /\ min_distance d <= fst b - fst a)
    (confirm_step d c pk).
Proof.
  intros Hlt Hs. rewrite confirm_step_eq.
  match goal with |- context [if ?b then _ else _] => destruct b eqn:Hok end;
    [|done].
  apply andb_true_iff in Hok as [Hok _]. apply andb_true_iff in Hok as [Hok _].
  apply negb_true_iff in Hok.
  apply StronglySorted_app. split; [|split; [done|repeat constructor]].
  intros x y Hx Hy. apply list_elem_of_singleton in Hy. subst y.
  rewrite Forall_forall in Hlt. split; [now apply Hlt|].
  unfold truthy_Z in Hok.
  destruct (min_distance d =? 0) eqn:Hz; simpl in Hok.
  - apply Z.eqb_eq in Hz. specialize (Hlt x Hx). lia.
  - destruct (last c) as [l|] eqn:Hl.
    + apply Z.ltb_ge in Hok.
      apply last_Some in Hl as [c' ->].
      apply elem_of_app in Hx as [Hx|Hx].
      * apply StronglySorted_app in Hs as (Hcross & _ & _).
        destruct (Hcross x l Hx) as [Hxl _]; [left|]. lia.
      * apply list_elem_of_singleton in Hx. subst x. lia.
    + apply last_None in Hl. subst c. now apply elem_of_nil in Hx.
Qed.

Lemma separated_fold (d : PeakDetectorSingleSample) (l : list peak_t) :
  StronglySorted (fun a b : peak_t => fst a < fst b) l ->
  forall c,
    Forall (fun x => Forall (fun pk => fst x < fst pk) l) c ->
    StronglySorted
      (fun a b : peak_t => fst a < fst b /\ min_distance d <= fst b - fst a) c ->
    StronglySorted
      (fun a b : peak_t => fst a < fst b /\ min_distance d <= fst b - fst a)
      (foldl (confirm_step d) c l).
Proof.
  induction l as [|pk l IH]; intros Hs c Hlt Hc; simpl; [done|].
  apply StronglySorted_cons in Hs as [Hpk Hs].
  apply IH; [done| |].
  - rewrite confirm_step_eq.
    match goal with |- context [if ?b then _ else _] => destruct b end.
    + apply Forall_app. split.
      * eapply Forall_impl; [apply Hlt|]. simpl. intros x Hx.
        now apply Forall_cons in Hx as [_ Hx].
      * constructor; [done|constructor].
    + eapply Forall_impl; [apply Hlt|]. simpl. intros x Hx.
      now apply Forall_cons in Hx as [_ Hx].
  - apply separated_step; [|done].
    eapply Forall_impl; [apply Hlt|]. simpl. intros x Hx.
    now apply Forall_cons in Hx as [Hx _].
Qed.

Lemma separated_processed (d : PeakDetectorSingleSample) (sample : Q) :
  ordered d -> separated d -> separated (processed d sample).
Proof.
  intros Ho Hsep. pose proof (ordered_checked d sample Ho) as [Hs2 _].
  destruct (checked_fields d sample)
    as (_ & _ & Hmd & _ & _ & _ & _ & Hc & _ & _).
  destruct (processed_fields d sample)
    as (_ & _ & Hmd3 & _ & _ & _ & _ & _ & [[_ Heq]|(_ & Hc3 & _)]).
  - unfold separated. rewrite Heq, Hmd, Hc. exact Hsep.
  - unfold separated. rewrite Hmd3, Hc3, <- Hmd, Hc.
    rewrite Hc in Hs2.
    apply StronglySorted_app in Hs2 as (Hcross & _ & Hpot).
    apply separated_fold.
    + eapply StronglySorted_sublist; [apply sublist_filter|done].
    + apply Forall_forall. intros x Hx. apply Forall_forall. intros pk Hpk.
      apply Hcross; [done|].
      eapply elem_of_sublist; [apply Hpk|apply sublist_filter].
    + rewrite Hmd. exact Hsep.
Qed.

Lemma separated_ingest (samples : list Q) :
  forall d,
    wf d -> ordered d -> separated d ->
    separated (state_of (ingest d samples))
    /\ min_distance (state_of (ingest d samples)) = min_distance d.
Proof.
  induction samples as [|sample rest IH]; intros d Hwf Ho Hsep; simpl; [done|].
  rewrite add_sample_ok by done.
  destruct (IH (processed d sample)) as [H1 H2].
  - now apply wf_processed.
  - now apply ordered_processed.
  - now apply separated_processed.
  - split; [done|]. rewrite H2.
    now destruct (processed_fields d sample) as (_ & _ & ? & _).
Qed.

(** X14.  After any run the confirmed peaks of the streaming detector are
    in increasing position and any two of them are at least [min_distance]
    apart. *)
Theorem X14_streaming_confirmed_separated (B : Z) (t : Q) (md : Z)
    (p w : option Q) (samples : list Q) :
  StronglySorted
    (fun a b : peak_t => fst a < fst b /\ md <= fst b - fst a)
    (get_peaks (state_of (run B t md p w samples))).
Proof.
  unfold get_peaks. destruct (decide (1 <= B)) as [HB|HB].
  - unfold run, __init__.
    destruct (separated_ingest samples
                (fresh B t md p w (replicate (Z.to_nat B) 0%Q)))
      as [Hsep Hmd].
    + apply wf_fresh; [done|]. rewrite length_replicate. lia.
    + apply ordered_fresh.
    + constructor.
    + unfold separated in Hsep. rewrite Hmd in Hsep. exact Hsep.
  - rewrite run_no_buffer by lia. constructor.
Qed.

(** A buffer full of the value [c] stays so under a sample [c], and no
    candidate is found. *)
Lemma constant_processed (d : PeakDetectorSingleSample) (c : Q) :
  wf d -> (0 <= threshold d)%Q ->
  Forall (fun x => x = c) (buffer d) ->
  potential_peaks d = [] ->
  Forall (fun x => x = c) (buffer (processed d c))
  /\ potential_peaks (processed d c) = []
  /\ confirmed_peaks (processed d c) = confirmed_peaks d
  /\ threshold (processed d c) = threshold d.
Proof.
  intros Hwf Ht Hall Hpot.
  pose proof (wf_stored d c Hwf) as Hwf1.
  assert (Hall1 : Forall (fun x => x = c) (buffer (stored d c))).
  { rewrite stored_buffer. now apply Forall_insert. }
  assert (Hget : forall x, getitem (buffer (stored d c))
                             (x mod buffer_size (stored d c)) = c).
  { intros x. pose proof (slot_in_range (stored d c) x Hwf1) as Hx.
    apply getitem_lookup in Hx. rewrite Forall_lookup in Hall1.
    exact (Hall1 _ _ Hx). }
  assert (Hck : checked d c = stored d c).
  { unfold checked. destruct (_ >=? 3); [|done].
    unfold _check_potential_peak. rewrite !Hget.
    replace (Qgtb c (c + threshold (stored d c))) with false; [done|].
    symmetry. unfold Qgtb. apply Qltb_ge.
    change (threshold (stored d c)) with (threshold d).
    rewrite <- (Qplus_0_r c) at 1. now apply Qplus_le_r. }
  destruct (processed_fields d c)
    as (_ & Ht3 & _ & _ & _ & Hb3 & _ & _ & Hcase).
  rewrite Hck in Hb3, Hcase.
  change (potential_peaks (stored d c)) with (potential_peaks d) in Hcase.
  change (confirmed_peaks (stored d c)) with (confirmed_peaks d) in Hcase.
  rewrite Hpot in Hcase. rewrite Hb3. split; [done|].
  destruct Hcase as [[_ ->]|(_ & -> & ->)].
  - repeat split; done.
  - repeat split; done.
Qed.

Lemma constant_ingest (n : nat) (c : Q) :
  forall d,
    wf d -> (0 <= threshold d)%Q ->
    Forall (fun x => x = c) (buffer d) ->
    potential_peaks d = [] ->
    confirmed_peaks (state_of (ingest d (replicate n c))) = confirmed_peaks d.
Proof.
  induction n as [|n IH]; intros d Hwf Ht Hall Hpot; simpl; [done|].
  rewrite add_sample_ok by done.
  destruct (constant_processed d c Hwf Ht Hall Hpot) as (H1 & H2 & H3 & H4).
  rewrite <- H3. apply IH; [now apply wf_processed| |done..].
  now rewrite H4.
Qed.



(** ** The streaming detector against the batch scan of the stream *)

Lemma filter_ext_in {A : Type} (P Q : A -> Prop)
    `{!forall x, Decision (P x)} `{!forall x, Decision (Q x)} (l : list A) :
  (forall x, x ∈ l -> (P x <-> Q x)) -> filter P l = filter Q l.
Proof.
  induction l as [|x l IH]; intros Hext; [done|].
  rewrite !filter_cons.
  assert (Hx : P x <-> Q x) by (apply Hext; left).
  rewrite IH by (intros y Hy; apply Hext; now right).
  destruct (decide (P x)), (decide (Q x)); tauto.
Qed.

Lemma getitem_app_l (hist : list Q) (s : Q) (i : Z) :
  0 <= i < Z.of_nat (length hist) -> getitem (hist ++ [s]) i = getitem hist i.
Proof. intros Hi. unfold getitem. rewrite lookup_app_l by lia. done. Qed.

Lemma is_peak_snoc (t : Q) (hist : list Q) (s : Q) (i : Z) :
  1 <= i < Z.of_nat (length hist) - 1 ->
  Batch.is_peak (Batch.__init__ (hist ++ [s]) t 1 None None) i
  = Batch.is_peak (Batch.__init__ hist t 1 None None) i.
Proof.
  intros Hi. unfold Batch.is_peak. simpl.
  now rewrite !getitem_app_l by lia.
Qed.

Lemma stream_candidates_increasing (t : Q) (hist : list Q) :
  StronglySorted (fun a b : peak_t => fst a < fst b) (stream_candidates t hist).
Proof.
  unfold stream_candidates.
  eapply StronglySorted_fmap; [|apply initial_peaks_increasing]. auto.
Qed.

(** One more sample adds at most the candidate just before it. *)
Lemma stream_candidates_snoc (t : Q) (hist : list Q) (s : Q) :
  stream_candidates t (hist ++ [s])
  = stream_candidates t hist ++ new_candidate t hist s.
Proof.
  unfold stream_candidates, new_candidate, Batch.initial_peaks, Batch.len.
  cbn [Batch.signal Batch.__init__]. rewrite length_app. simpl length.
  set (n := length hist).
  destruct (decide (2 <= n)%nat) as [Hn|Hn].
  - replace (Z.of_nat (n + 1) - 2) with ((Z.of_nat n - 2) + 1) by lia.
    rewrite seqZ_app by lia. rewrite filter_app, fmap_app.
    replace (1 + (Z.of_nat n - 2)) with (Z.of_nat n - 1) by lia.
    replace (3 <=? Z.of_nat (n + 1)) with true
      by (symmetry; apply Z.leb_le; lia).
    f_equal.
    + rewrite (filter_ext_in _
                 (fun i => Batch.is_peak (Batch.__init__ hist t 1 None None) i)).
      * apply Forall_fmap_ext_1, Forall_forall. intros i Hi.
        apply list_elem_of_filter in Hi as [_ Hi].
        apply elem_of_seqZ in Hi. f_equal. apply getitem_app_l. lia.
      * intros i Hi. apply elem_of_seqZ in Hi.
        rewrite is_peak_snoc by lia. done.
    + change (seqZ (Z.of_nat n - 1) 1) with [Z.of_nat n - 1].
      rewrite filter_cons, filter_nil. simpl andb.
      destruct (Batch.is_peak _ (Z.of_nat n - 1)) eqn:Hpk.
      * rewrite decide_True by done. done.
      * rewrite decide_False by (now intros []). done.
  - rewrite !seqZ_nil by lia. simpl.
    replace (3 <=? Z.of_nat (n + 1)) with false
      by (symmetry; apply Z.leb_gt; lia).
    done.
Qed.

(** The candidate test of [add_sample] is the two-sided test of the batch
    scan at the sample before the new one, provided the window has at least
    three slots. *)
Lemma checked_new_candidate (d : PeakDetectorSingleSample) (hist : list Q)
    (sample : Q) :
  wf d -> holds_recent d hist -> 3 <= buffer_size d ->
  potential_peaks (checked d sample)
  = potential_peaks d ++ new_candidate (threshold d) hist sample.
Proof.
  intros Hwf Hh HB3.
  destruct (holds_recent_processed d hist sample Hwf Hh) as [_ Hk].
  destruct Hh as [Hn _]. destruct Hwf as (HB & _ & Hn0 & Hidx).
  destruct (checked_fields d sample)
    as (_ & _ & _ & _ & _ & Hb & _ & _ & _ & _).
  destruct (processed_fields d sample)
    as (HB' & _ & _ & _ & _ & Hb' & _ & Hn' & _).
  rewrite HB', Hn', Hb', Hb in Hk.
  assert (Hget : forall k, 0 <= k ->
            sample_count d + 1 - buffer_size d <= k < sample_count d + 1 ->
            getitem (buffer (stored d sample)) (k mod buffer_size d)
            = getitem (hist ++ [sample]) k).
  { intros k Hk0 Hkr. unfold getitem. now rewrite Hk. }
  unfold checked, new_candidate.
  change (sample_count (stored d sample)) with (sample_count d + 1).
  rewrite length_app. simpl length. rewrite <- Hn.
  replace (Z.of_nat (length hist + 1)) with (sample_count d + 1) by lia.
  replace (3 <=? sample_count d + 1) with (sample_count d + 1 >=? 3) by lia.
  destruct (sample_count d + 1 >=? 3) eqn:Hge; [|now rewrite app_nil_r].
  unfold _check_potential_peak, Batch.is_peak.
  cbn [Batch.signal Batch.threshold Batch.__init__ andb].
  change (buffer_size (stored d sample)) with (buffer_size d).
  change (threshold (stored d sample)) with (threshold d).
  change (potential_peaks (stored d sample)) with (potential_peaks d).
  change (sample_count (stored d sample)) with (sample_count d + 1).
  rewrite stored_buffer_index, Hidx, Zplus_mod_idemp_l.
  rewrite Zminus_mod_idemp_l.
  rewrite (Zminus_mod_idemp_l (sample_count d + 1 - 2)).
  rewrite (Zplus_mod_idemp_l (sample_count d + 1 - 2)).
  replace (sample_count d + 1 - 2) with (sample_count d - 1) by lia.
  rewrite !Hget by lia.
  destruct (Qgtb _ _ && Qgtb _ _); [|now rewrite app_nil_r].
  done.
Qed.

(** On a list in increasing position, a test that holds for a lower set of
    positions selects a prefix: a wider test selects it and then what it
    finds among the rest. *)
Lemma filter_prefix_split (R R' : peak_t -> bool) (l : list peak_t) :
  StronglySorted (fun a b : peak_t => fst a < fst b) l ->
  (forall a b, fst a < fst b -> R b = true -> R a = true) ->
  (forall a, R a = true -> R' a = true) ->
  filter (fun pk => R' pk) l
  = filter (fun pk => R pk) l
    ++ filter (fun pk => R' pk) (filter (fun pk => negb (R pk)) l).
Proof.
  intros Hs Hdown Hsub. induction l as [|x l IH]; [done|].
  apply StronglySorted_cons in Hs as [Hx Hs].
  destruct (R x) eqn:HRx.
  - rewrite (filter_cons_True (fun pk => R pk)) by now rewrite HRx.
    rewrite (filter_cons_True (fun pk => R' pk)) by now rewrite (Hsub x HRx).
    rewrite (filter_cons_False (fun pk => negb (R pk)))
      by (rewrite HRx; simpl; tauto).
    simpl. f_equal. now apply IH.
  - assert (Hnone : forall y, y ∈ l -> R y = false).
    { intros y Hy. rewrite Forall_forall in Hx. specialize (Hx y Hy).
      destruct (R y) eqn:HRy; [|done].
      rewrite (Hdown x y Hx HRy) in HRx. discriminate. }
    rewrite (filter_none (fun pk => R pk)).
    + rewrite (filter_all (fun pk => negb (R pk))); [done|].
      intros y Hy. apply elem_of_cons in Hy as [->|Hy].
      * now rewrite HRx.
      * now rewrite (Hnone y Hy).
    + intros y Hy. apply elem_of_cons in Hy as [->|Hy].
      * now rewrite HRx.
      * now rewrite (Hnone y Hy).
Qed.

Lemma due_down (B n : Z) (a b : peak_t) :
  fst a < fst b -> due B n b = true -> due B n a = true.
Proof. unfold due. lia. Qed.

Lemma due_next (B n : Z) (a : peak_t) :
  due B n a = true -> due B (n + 1) a = true.
Proof. unfold due. lia. Qed.

(** The due candidates after one more sample: those due before, then the
    newly due among the pending ones and the new candidate. *)
Lemma due_split (B n : Z) (t : Q) (hist : list Q) (s : Q) :
  filter (fun pk => due B (n + 1) pk) (stream_candidates t (hist ++ [s]))
  = filter (fun pk => due B n pk) (stream_candidates t hist)
    ++ filter (fun pk => due B (n + 1) pk)
         (filter (fun pk => negb (due B n pk)) (stream_candidates t hist)
          ++ new_candidate t hist s).
Proof.
  rewrite stream_candidates_snoc, !filter_app, app_assoc. f_equal.
  apply (filter_prefix_split (due B n) (due B (n + 1))).
  - apply stream_candidates_increasing.
  - apply due_down.
  - apply due_next.
Qed.

Lemma not_due_split (B n : Z) (t : Q) (hist : list Q) (s : Q) :
  filter (fun pk => negb (due B (n + 1) pk))
    (stream_candidates t (hist ++ [s]))
  = filter (fun pk => negb (due B (n + 1) pk))
      (filter (fun pk => negb (due B n pk)) (stream_candidates t hist)
       ++ new_candidate t hist s).
Proof.
  rewrite stream_candidates_snoc, !filter_app. f_equal.
  rewrite list_filter_filter. apply list_filter_iff. intros pk.
  split; [|tauto]. intros Hn. split; [done|].
  destruct (due B n pk) eqn:Hd; [|done].
  now rewrite (due_next B n pk Hd) in Hn.
Qed.

Lemma is_old_due (d : PeakDetectorSingleSample) (pk : peak_t) :
  buffer_size d <= sample_count d ->
  is_old d pk = due (buffer_size d) (sample_count d) pk.
Proof. intros Hfull. unfold is_old, due. lia. Qed.

Lemma tracks_processed (d : PeakDetectorSingleSample) (hist : list Q)
    (sample : Q) :
  wf d -> holds_recent d hist -> 3 <= buffer_size d ->
  tracks d hist -> tracks (processed d sample) (hist ++ [sample]).
Proof.
  intros Hwf Hh HB3 [Hpot Hconf].
  pose proof (checked_new_candidate d hist sample Hwf Hh HB3) as Hpot2.
  destruct (checked_fields d sample)
    as (HB2 & Ht2 & _ & _ & _ & _ & _ & Hc2 & Hn2 & _).
  destruct (processed_fields d sample)
    as (HB3' & Ht3 & _ & _ & _ & _ & _ & Hn3 & Hcase).
  unfold tracks. rewrite HB3', Ht3, Hn3.
  rewrite due_split, not_due_split, <- Hpot, <- Hpot2.
  assert (Hold : buffer_size d <= sample_count d + 1 ->
            forall pk, is_old (checked d sample) pk
                       = due (buffer_size d) (sample_count d + 1) pk).
  { intros Hfull pk. rewrite is_old_due; rewrite HB2, Hn2; [done|lia]. }
  destruct Hcase as [[Hsmall ->]|(Hfull & Hc3 & Hp3)].
  - split.
    + symmetry. apply filter_all. intros pk _.
      unfold due. apply Is_true_true.
      replace (buffer_size d <=? sample_count d + 1) with false
        by (symmetry; apply Z.leb_gt; lia).
      done.
    + rewrite Hc2. etrans; [apply Hconf|]. apply sublist_inserts_r. done.
  - split.
    + rewrite Hp3. apply list_filter_iff. intros pk.
      now rewrite (Hold Hfull pk).
    + rewrite Hc3, Hc2.
      destruct (confirm_fold_extends (checked d sample)
                  (filter (fun pk => is_old (checked d sample) pk)
                          (potential_peaks (checked d sample)))
                  (confirmed_peaks d)) as (new & -> & Hsub).
      apply sublist_app; [done|].
      etrans; [apply Hsub|].
      rewrite (list_filter_iff _
                 (fun pk => due (buffer_size d) (sample_count d + 1) pk));
        [done|].
      intros pk. now rewrite (Hold Hfull pk).
Qed.

Lemma tracks_ingest (rest : list Q) :
  forall d hist,
    wf d -> holds_recent d hist -> 3 <= buffer_size d -> tracks d hist ->
    tracks (state_of (ingest d rest)) (hist ++ rest).
Proof.
  induction rest as [|sample rest IH]; intros d hist Hwf Hh HB Ht; simpl.
  - now rewrite app_nil_r.
  - rewrite add_sample_ok by done.
    replace (hist ++ sample :: rest) with ((hist ++ [sample]) ++ rest)
      by (now rewrite <- app_assoc).
    apply IH.
    + now apply wf_processed.
    + now apply holds_recent_processed.
    + now rewrite processed_buffer_size.
    + now apply tracks_processed.
Qed.

Lemma tracks_fresh (B : Z) (t : Q) (md : Z) (p w : option Q) (fill : list Q) :
  tracks (fresh B t md p w fill) [].
Proof. split; simpl; [done|constructor]. Qed.

Lemma elem_of_stream_candidates (t : Q) (hist : list Q) (pk : peak_t) :
  pk ∈ stream_candidates t hist
  <-> fst pk ∈ Batch.initial_peaks (Batch.__init__ hist t 1 None None)
      /\ snd pk = getitem hist (fst pk).
Proof.
  unfold stream_candidates. rewrite list_elem_of_fmap. split.
  - intros (i & -> & Hi). done.
  - intros [Hi Hv]. exists (fst pk). split; [|done].
    destruct pk as [i v]. simpl in *. now subst v.
Qed.

(** A run changes none of the configuration attributes. *)
Lemma ingest_config (samples : list Q) :
  forall d,
    wf d ->
    buffer_size (state_of (ingest d samples)) = buffer_size d
    /\ threshold (state_of (ingest d samples)) = threshold d
    /\ min_distance (state_of (ingest d samples)) = min_distance d
    /\ prominence (state_of (ingest d samples)) = prominence d
    /\ width (state_of (ingest d samples)) = width d.
Proof.
  induction samples as [|sample rest IH]; intros d Hwf; simpl; [done|].
  rewrite add_sample_ok by done.
  destruct (IH (processed d sample) (wf_processed d sample Hwf))
    as (-> & -> & -> & -> & ->).
  destruct (processed_fields d sample) as (? & ? & ? & ? & ? & _). done.
Qed.

(** X12.  With [buffer_size >= 3] the streaming detector tests exactly the
    candidates of the batch scan of the stream so far.  After [n] samples
    the pending queue is the list of those candidates, with their samples,
    that are not yet due ([n < buffer_size] or age below
    [buffer_size // 2]); the confirmed peaks are a subsequence of the due
    ones.  So every pending or confirmed peak [(i, v)] is a candidate [i] of
    the batch scan with [v] the sample at [i]. *)
Theorem X12_streaming_tracks_batch_candidates (B : Z) (t : Q) (md : Z)
    (p w : option Q) (samples : list Q) :
  3 <= B ->
  let d := state_of (run B t md p w samples) in
  let n := Z.of_nat (length samples) in
  potential_peaks d
  = filter (fun pk => negb (due B n pk)) (stream_candidates t samples)
  /\ get_peaks d
     `sublist_of` filter (fun pk => due B n pk) (stream_candidates t samples)
  /\ (forall pk, pk ∈ get_peaks d ++ potential_peaks d ->
        fst pk ∈ Batch.initial_peaks (Batch.__init__ samples t 1 None None)
        /\ snd pk = getitem samples (fst pk)).
Proof.
  intros HB d n. subst d n. unfold run, __init__, get_peaks.
  set (d0 := fresh B t md p w (replicate (Z.to_nat B) 0%Q)).
  assert (Hwf0 : wf d0)
    by (apply wf_fresh; [lia|]; rewrite length_replicate; lia).
  pose proof (holds_recent_fresh B t md p w (replicate (Z.to_nat B) 0%Q))
    as Hh0. fold d0 in Hh0.
  destruct (holds_recent_ingest samples d0 [] Hwf0 Hh0) as [Hn _].
  destruct (tracks_ingest samples d0 [] Hwf0 Hh0 HB
              (tracks_fresh _ _ _ _ _ _)) as [Hpot Hconf].
  destruct (ingest_config samples d0 Hwf0) as (HBd & Htd & _).
  simpl app in Hn, Hpot, Hconf.
  rewrite HBd, Htd, Hn in Hpot, Hconf.
  change (buffer_size d0) with B in Hpot, Hconf.
  change (threshold d0) with t in Hpot, Hconf.
  split; [exact Hpot|]. split; [exact Hconf|].
  intros pk Hpk. apply elem_of_stream_candidates.
  apply elem_of_app in Hpk as [Hpk|Hpk].
  - eapply elem_of_sublist in Hpk; [|apply Hconf].
    now apply list_elem_of_filter in Hpk as [_ Hpk].
  - rewrite Hpot in Hpk. now apply list_elem_of_filter in Hpk as [_ Hpk].
Qed.

Lemma X12_streaming_tracks_batch_candidates_witness :
  potential_peaks (state_of (run 10 0 1 None None early_spike))
  = filter (fun pk => negb (due 10 (Z.of_nat (length early_spike)) pk))
      (stream_candidates 0 early_spike).
Proof.
  destruct (X12_streaming_tracks_batch_candidates 10 0%Q 1 None None
              early_spike) as (H & _); [lia|exact H].
Defined.

(** Without optional filters and with [min_distance <= 1] every resolved
    candidate is confirmed. *)
Lemma confirm_fold_all (d : PeakDetectorSingleSample) (l : list peak_t) :
  min_distance d <= 1 -> prominence d = None -> width d = None ->
  StronglySorted (fun a b : peak_t => fst a < fst b) l ->
  forall c : list peak_t,
    Forall (fun x : peak_t => Forall (fun pk : peak_t => fst x < fst pk) l) c ->
    foldl (confirm_step d) c l = c ++ l.
Proof.
  intros Hmd Hp Hw. induction l as [|pk l IH]; intros Hs c Hlt; simpl.
  - now rewrite app_nil_r.
  - apply StronglySorted_cons in Hs as [Hpk Hs].
    assert (Hstep : confirm_step d c pk = c ++ [pk]).
    { rewrite confirm_step_eq. unfold prominence_check_fails, width_check_fails.
      rewrite Hp, Hw. simpl.
      destruct (last c) as [l'|] eqn:Hl.
      - apply last_Some_elem_of in Hl. rewrite Forall_forall in Hlt.
        specialize (Hlt l' Hl). apply Forall_cons in Hlt as [Hlt _].
        replace (fst pk - fst l' <? min_distance d) with false
          by (symmetry; apply Z.ltb_ge; lia).
        now destruct (truthy_Z (min_distance d)).
      - now destruct (truthy_Z (min_distance d)). }
    rewrite Hstep, IH; [now rewrite <- app_assoc|done|].
    apply Forall_app. split.
    + eapply Forall_impl; [apply Hlt|]. simpl. intros x Hx.
      now apply Forall_cons in Hx as [_ Hx].
    + constructor; [done|constructor].
Qed.

Lemma exact_processed (d : PeakDetectorSingleSample) (hist : list Q)
    (sample : Q) :
  wf d -> holds_recent d hist -> 3 <= buffer_size d -> ordered d ->
  min_distance d <= 1 -> prominence d = None -> width d = None ->
  tracks d hist ->
  confirmed_peaks d
  = filter (fun pk => due (buffer_size d) (sample_count d) pk)
      (stream_candidates (threshold d) hist) ->
  confirmed_peaks (processed d sample)
  = filter (fun pk => due (buffer_size d) (sample_count d + 1) pk)
      (stream_candidates (threshold d) (hist ++ [sample])).
Proof.
  intros Hwf Hh HB3 Ho Hmd Hp Hw [Hpot _] Hconf.
  pose proof (checked_new_candidate d hist sample Hwf Hh HB3) as Hpot2.
  pose proof (ordered_checked d sample Ho) as [Hs2 _].
  destruct (checked_fields d sample)
    as (HB2 & _ & Hmd2 & Hp2 & Hw2 & _ & _ & Hc2 & Hn2 & _).
  destruct (processed_fields d sample)
    as (_ & _ & _ & _ & _ & _ & _ & _ & Hcase).
  rewrite due_split, <- Hpot, <- Hpot2, <- Hconf.
  destruct Hcase as [[Hsmall ->]|(Hfull & Hc3 & _)].
  - rewrite Hc2, filter_none; [now rewrite app_nil_r|].
    intros pk _. unfold due.
    replace (buffer_size d <=? sample_count d + 1) with false
      by (symmetry; apply Z.leb_gt; lia).
    simpl. tauto.
  - rewrite Hc3, Hc2. rewrite Hc2 in Hs2.
    apply StronglySorted_app in Hs2 as (Hcross & _ & Hsp).
    rewrite confirm_fold_all; [| congruence.. | | ].
    + f_equal. apply list_filter_iff. intros pk.
      rewrite is_old_due; rewrite HB2, Hn2; [done|lia].
    + eapply StronglySorted_sublist; [apply sublist_filter|done].
    + apply Forall_forall. intros x Hx. apply Forall_forall. intros pk Hpk.
      apply Hcross; [done|].
      eapply elem_of_sublist; [apply Hpk|apply sublist_filter].
Qed.

Lemma exact_ingest (rest : list Q) :
  forall d hist,
    wf d -> holds_recent d hist -> 3 <= buffer_size d -> ordered d ->
    min_distance d <= 1 -> prominence d = None -> width d = None ->
    tracks d hist ->
    confirmed_peaks d
    = filter (fun pk => due (buffer_size d) (sample_count d) pk)
        (stream_candidates (threshold d) hist) ->
    confirmed_peaks (state_of (ingest d rest))
    = filter (fun pk => due (buffer_size d)
                          (sample_count d + Z.of_nat (length rest)) pk)
        (stream_candidates (threshold d) (hist ++ rest)).
Proof.
  induction rest as [|sample rest IH];
    intros d hist Hwf Hh HB Ho Hmd Hp Hw Ht Hc.
  - simpl. now rewrite app_nil_r, Z.add_0_r.
  - cbn [ingest]. rewrite add_sample_ok by done. cbn [state_of].
    replace (hist ++ sample :: rest) with ((hist ++ [sample]) ++ rest)
      by (now rewrite <- app_assoc).
    destruct (processed_fields d sample)
      as (HB3 & Ht3 & Hmd3 & Hp3 & Hw3 & _ & _ & Hn3 & _).
    rewrite (IH (processed d sample) (hist ++ [sample])).
    + rewrite HB3, Ht3, Hn3. cbn [length].
      replace (sample_count d + 1 + Z.of_nat (length rest))
        with (sample_count d + Z.of_nat (S (length rest))) by lia.
      done.
    + now apply wf_processed.
    + now apply holds_recent_processed.
    + now rewrite HB3.
    + now apply ordered_processed.
    + now rewrite Hmd3.
    + now rewrite Hp3.
    + now rewrite Hw3.
    + now apply tracks_processed.
    + rewrite HB3, Ht3, Hn3. now apply exact_processed.
Qed.

(** X13.  In the default configuration (no prominence or width filter,
    [min_distance <= 1]) and with [buffer_size >= 3] the streaming detector
    agrees with the batch scan: after [n] samples its confirmed peaks are
    exactly the candidates of the batch scan of the stream, each with its
    sample, that are due, i.e. all of them with
    [n - position >= buffer_size // 2] once [n >= buffer_size]. *)
Theorem X13_streaming_default_matches_batch (B : Z) (t : Q) (md : Z)
    (samples : list Q) :
  3 <= B -> md <= 1 ->
  get_peaks (state_of (run B t md None None samples))
  = filter (fun pk => due B (Z.of_nat (length samples)) pk)
      (stream_candidates t samples).
Proof.
  intros HB Hmd. unfold run, __init__, get_peaks.
  set (d0 := fresh B t md None None (replicate (Z.to_nat B) 0%Q)).
  assert (Hwf0 : wf d0)
    by (apply wf_fresh; [lia|]; rewrite length_replicate; lia).
  rewrite (exact_ingest samples d0 []);
    [done..| apply holds_recent_fresh | done | apply ordered_fresh
    | done | done | done | apply tracks_fresh | done].
Qed.

Lemma X13_streaming_default_matches_batch_witness :
  get_peaks (state_of (run 10 0 1 None None early_spike_full))
  = filter (fun pk => due 10 (Z.of_nat (length early_spike_full)) pk)
      (stream_candidates 0 early_spike_full).
Proof.
  apply (X13_streaming_default_matches_batch 10 0%Q 1 early_spike_full); lia.
Defined.

Lemma py_max_le (a b x : Q) : (a <= x)%Q -> (b <= x)%Q -> (py_max a b <= x)%Q.
Proof. intros Ha Hb. unfold py_max. now destruct (Qltb a b). Qed.

Lemma elem_of_slice (s : list Q) (a i b : Z) :
  0 <= a <= i -> i < b -> i < Z.of_nat (length s) ->
  getitem s i ∈ slice s a b.
Proof.
  intros Ha Hb Hi. unfold slice.
  apply (list_elem_of_lookup_2 _ (Z.to_nat (i - a))).
  rewrite lookup_take_lt by lia. rewrite lookup_drop.
  replace (Z.to_nat a + Z.to_nat (i - a))%nat with (Z.to_nat i) by lia.
  apply getitem_lookup. lia.
Qed.

(** X18.  For every index of the signal the batch prominence is not
    negative: both bases stay on their side of the index inside the signal,
    and each of the two minima is taken over a range that contains the
    index. *)
Theorem X18_batch_prominence_nonneg (d : Batch.PeakDetector) (peak : Z) :
  0 <= peak < Batch.len d ->
  0 <= Batch.left_base_of d peak <= peak
  /\ peak <= Batch.right_base_of d peak <= Batch.len d - 1
  /\ (0 <= Batch._calculate_prominence d peak)%Q.
Proof.
  intros Hpk.
  assert (HL : 0 <= Batch.left_base_of d peak <= peak).
  { unfold Batch.left_base_of.
    apply (while_loop_inv (fun s => 0 <= s <= peak)); [|lia].
    intros s Hs [H0 _]%andb_true_iff. lia. }
  assert (HR : peak <= Batch.right_base_of d peak <= Batch.len d - 1).
  { unfold Batch.right_base_of.
    apply (while_loop_inv (fun s => peak <= s <= Batch.len d - 1)); [|lia].
    intros s Hs [H0 _]%andb_true_iff. lia. }
  split; [done|]. split; [done|].
  unfold Batch._calculate_prominence, Qminus. apply -> Qle_minus_iff.
  unfold Batch.len in *.
  apply py_max_le; apply py_min_le, elem_of_slice; lia.
Qed.

Lemma X18_batch_prominence_nonneg_witness :
  (0 <= Batch._calculate_prominence ridge_detector 1)%Q.
Proof.
  destruct (X18_batch_prominence_nonneg ridge_detector 1) as (_ & _ & H);
    [unfold Batch.len; simpl; lia|exact H].
Defined.

(** ** The streaming detector against the batch pipeline *)

Lemma keep_after_app (md : Z) (A B : list Z) :
  forall L,
    Spec.keep_after md L (A ++ B)
    = Spec.keep_after md L A
      ++ Spec.keep_after md (last_item (L :: Spec.keep_after md L A)) B.
Proof.
  induction A as [|a A IH]; intros L; [done|]. simpl.
  destruct (a - L >=? md).
  - rewrite IH. done.
  - apply IH.
Qed.

Lemma distance_filter_app (md : Z) (A B : list Z) :
  A <> [] ->
  Spec.distance_filter md (A ++ B)
  = Spec.distance_filter md A
    ++ Spec.keep_after md (last_item (Spec.distance_filter md A)) B.
Proof.
  destruct A as [|a A]; [done|]. intros _. simpl. f_equal.
  apply keep_after_app.
Qed.

Lemma distance_filter_prefix (md : Z) (A B : list Z) :
  Spec.distance_filter md A `prefix_of` Spec.distance_filter md (A ++ B).
Proof.
  destruct A as [|a A]; [apply prefix_nil|].
  rewrite distance_filter_app by done. now eexists.
Qed.

(** Without optional filters the confirmation loop continues the greedy
    distance filter from the last confirmed position. *)
Lemma confirm_fold_greedy (d : PeakDetectorSingleSample) (l : list peak_t) :
  prominence d = None -> width d = None ->
  StronglySorted (fun a b : peak_t => fst a < fst b) l ->
  forall (c : list peak_t) (lst : peak_t),
    last c = Some lst ->
    Forall (fun x : peak_t => Forall (fun pk : peak_t => fst x < fst pk) l) c ->
    fst <$> foldl (confirm_step d) c l
    = (fst <$> c) ++ Spec.keep_after (min_distance d) (fst lst) (fst <$> l).
Proof.
  intros Hp Hw. induction l as [|pk l IH]; intros Hs c lst Hl Hlt.
  - simpl. now rewrite app_nil_r.
  - apply StronglySorted_cons in Hs as [Hpk Hs].
    assert (Hlst : fst lst < fst pk).
    { apply last_Some_elem_of in Hl. rewrite Forall_forall in Hlt.
      specialize (Hlt lst Hl). now apply Forall_cons in Hlt as [Hlt _]. }
    assert (Hrest : Forall (fun x : peak_t =>
                              Forall (fun pk : peak_t => fst x < fst pk) l) c).
    { eapply Forall_impl; [apply Hlt|]. simpl. intros x Hx.
      now apply Forall_cons in Hx as [_ Hx]. }
    cbn [foldl fmap list_fmap Spec.keep_after].
    rewrite confirm_step_eq. unfold prominence_check_fails, width_check_fails.
    rewrite Hp, Hw, Hl. cbn [negb andb].
    destruct (fst pk - fst lst >=? min_distance d) eqn:Hge.
    + replace (fst pk - fst lst <? min_distance d) with false
        by (symmetry; apply Z.ltb_ge; lia).
      rewrite andb_false_r. cbn [negb andb].
      rewrite (IH Hs (c ++ [pk]) pk).
      * rewrite fmap_app, <- app_assoc. done.
      * apply last_snoc.
      * apply Forall_app. split; [done|]. constructor; [done|constructor].
    + replace (fst pk - fst lst <? min_distance d) with true
        by (symmetry; apply Z.ltb_lt; lia).
      replace (truthy_Z (min_distance d)) with true
        by (symmetry; unfold truthy_Z; apply negb_true_iff, Z.eqb_neq; lia).
      cbn [negb andb]. now apply IH.
Qed.

Lemma confirm_fold_greedy_nil (d : PeakDetectorSingleSample)
    (l : list peak_t) :
  prominence d = None -> width d = None ->
  StronglySorted (fun a b : peak_t => fst a < fst b) l ->
  fst <$> foldl (confirm_step d) [] l
  = Spec.distance_filter (min_distance d) (fst <$> l).
Proof.
  intros Hp Hw Hs. destruct l as [|pk l]; [done|].
  apply StronglySorted_cons in Hs as [Hpk Hs].
  cbn [foldl]. rewrite confirm_step_eq.
  unfold prominence_check_fails, width_check_fails. rewrite Hp, Hw.
  cbn [last negb andb]. rewrite andb_false_r. cbn [negb andb app].
  rewrite (confirm_fold_greedy d l Hp Hw Hs [pk] pk); [done..|].
  constructor; [done|constructor].
Qed.

Lemma distance_filter_nil_inv (md : Z) (l : list Z) :
  Spec.distance_filter md l = [] -> l = [].
Proof. now destruct l. Qed.

(** Resolving further candidates extends the greedy filter of the due
    positions. *)
Lemma greedy_extend (d : PeakDetectorSingleSample) (c l : list peak_t)
    (D : list Z) :
  prominence d = None -> width d = None ->
  StronglySorted (fun a b : peak_t => fst a < fst b) l ->
  Forall (fun x : peak_t => Forall (fun pk : peak_t => fst x < fst pk) l) c ->
  fst <$> c = Spec.distance_filter (min_distance d) D ->
  fst <$> foldl (confirm_step d) c l
  = Spec.distance_filter (min_distance d) (D ++ (fst <$> l)).
Proof.
  intros Hp Hw Hs Hlt Hc. destruct (@last (Z * Q) c) as [lst|] eqn:Hl.
  - rewrite (confirm_fold_greedy d l Hp Hw Hs c lst Hl Hlt).
    assert (HD : D <> []).
    { intros ->. simpl in Hc. apply fmap_nil_inv in Hc. subst c. done. }
    rewrite distance_filter_app by done. rewrite <- Hc. f_equal. f_equal.
    unfold last_item. now rewrite fmap_last, Hl.
  - apply last_None in Hl. subst c. simpl in Hc. symmetry in Hc.
    apply distance_filter_nil_inv in Hc. subst D. simpl.
    now apply confirm_fold_greedy_nil.
Qed.

Lemma greedy_processed (d : PeakDetectorSingleSample) (hist : list Q)
    (sample : Q) :
  wf d -> holds_recent d hist -> 3 <= buffer_size d -> ordered d ->
  prominence d = None -> width d = None ->
  tracks d hist ->
  fst <$> confirmed_peaks d
  = Spec.distance_filter (min_distance d)
      (fst <$> filter (fun pk => due (buffer_size d) (sample_count d) pk)
                 (stream_candidates (threshold d) hist)) ->
  fst <$> confirmed_peaks (processed d sample)
  = Spec.distance_filter (min_distance d)
      (fst <$> filter (fun pk => due (buffer_size d) (sample_count d + 1) pk)
                 (stream_candidates (threshold d) (hist ++ [sample]))).
Proof.
  intros Hwf Hh HB3 Ho Hp Hw [Hpot _] Hconf.
  pose proof (checked_new_candidate d hist sample Hwf Hh HB3) as Hpot2.
  pose proof (ordered_checked d sample Ho) as [Hs2 _].
  destruct (checked_fields d sample)
    as (HB2 & _ & Hmd2 & Hp2 & Hw2 & _ & _ & Hc2 & Hn2 & _).
  destruct (processed_fields d sample)
    as (_ & _ & _ & _ & _ & _ & _ & _ & Hcase).
  rewrite due_split, <- Hpot, <- Hpot2, fmap_app.
  destruct Hcase as [[Hsmall ->]|(Hfull & Hc3 & _)].
  - rewrite Hc2,
      (filter_none (fun pk => due (buffer_size d) (sample_count d + 1) pk)).
    + rewrite fmap_nil, app_nil_r. exact Hconf.
    + intros pk _. unfold due.
      replace (buffer_size d <=? sample_count d + 1) with false
        by (symmetry; apply Z.leb_gt; lia).
      simpl. tauto.
  - rewrite Hc3, Hc2. rewrite Hc2 in Hs2.
    apply StronglySorted_app in Hs2 as (Hcross & _ & Hsp).
    rewrite (list_filter_iff (fun pk => is_old (checked d sample) pk)
               (fun pk => due (buffer_size d) (sample_count d + 1) pk)).
    + rewrite <- Hmd2. apply greedy_extend; [congruence|congruence| | |].
      * eapply StronglySorted_sublist; [apply sublist_filter|done].
      * apply Forall_forall. intros x Hx. apply Forall_forall. intros pk Hpk.
        apply Hcross; [done|].
        eapply elem_of_sublist; [apply Hpk|apply sublist_filter].
      * now rewrite Hmd2.
    + intros pk. rewrite is_old_due; rewrite HB2, Hn2; [done|lia].
Qed.

Lemma greedy_ingest (rest : list Q) :
  forall d hist,
    wf d -> holds_recent d hist -> 3 <= buffer_size d -> ordered d ->
    prominence d = None -> width d = None ->
    tracks d hist ->
    fst <$> confirmed_peaks d
    = Spec.distance_filter (min_distance d)
        (fst <$> filter (fun pk => due (buffer_size d) (sample_count d) pk)
                   (stream_candidates (threshold d) hist)) ->
    fst <$> confirmed_peaks (state_of (ingest d rest))
    = Spec.distance_filter (min_distance d)
        (fst <$> filter (fun pk => due (buffer_size d)
                                  (sample_count d + Z.of_nat (length rest)) pk)
                   (stream_candidates (threshold d) (hist ++ rest))).
Proof.
  induction rest as [|sample rest IH];
    intros d hist Hwf Hh HB Ho Hp Hw Ht Hc.
  - simpl. now rewrite app_nil_r, Z.add_0_r.
  - cbn [ingest]. rewrite add_sample_ok by done. cbn [state_of].
    replace (hist ++ sample :: rest) with ((hist ++ [sample]) ++ rest)
      by (now rewrite <- app_assoc).
    destruct (processed_fields d sample)
      as (HB3 & Ht3 & Hmd3 & Hp3 & Hw3 & _ & _ & Hn3 & _).
    rewrite (IH (processed d sample) (hist ++ [sample])).
    + rewrite HB3, Ht3, Hmd3, Hn3. cbn [length].
      replace (sample_count d + 1 + Z.of_nat (length rest))
        with (sample_count d + Z.of_nat (S (length rest))) by lia.
      done.
    + now apply wf_processed.
    + now apply holds_recent_processed.
    + now rewrite HB3.
    + now apply ordered_processed.
    + now rewrite Hp3.
    + now rewrite Hw3.
    + now apply tracks_processed.
    + rewrite HB3, Ht3, Hmd3, Hn3. now apply greedy_processed.
Qed.

Lemma stream_candidates_positions (t : Q) (md : Z) (p w : option Q)
    (hist : list Q) :
  fst <$> stream_candidates t hist
  = Batch.initial_peaks (Batch.__init__ hist t md p w).
Proof.
  unfold stream_candidates. rewrite <- list_fmap_compose.
  change (Batch.initial_peaks (Batch.__init__ hist t md p w))
    with (Batch.initial_peaks (Batch.__init__ hist t 1 None None)).
  rewrite <- (list_fmap_id (Batch.initial_peaks _)) at 2.
  apply Forall_fmap_ext_1, Forall_forall. done.
Qed.

Lemma due_prefix (B n : Z) (t : Q) (hist : list Q) :
  stream_candidates t hist
  = filter (fun pk => due B n pk) (stream_candidates t hist)
    ++ filter (fun pk => negb (due B n pk)) (stream_candidates t hist).
Proof.
  pose proof (filter_prefix_split (due B n) (fun _ => true)
                (stream_candidates t hist)
                (stream_candidates_increasing t hist)
                (due_down B n) (fun _ _ => eq_refl)) as Hsplit.
  rewrite !(filter_all (fun pk : peak_t => true)) in Hsplit by done.
  exact Hsplit.
Qed.

(** X19.  Without prominence and width filter and with [buffer_size >= 3]
    the streaming detector is the batch pipeline run on the due part of the
    stream: after [n] samples the positions of its confirmed peaks are what
    [_enforce_min_distance] keeps of the due candidates, and they form a
    prefix of the peaks [detect_peaks] returns for the whole stream with the
    same threshold and [min_distance]. *)
Theorem X19_streaming_is_prefix_of_batch (B : Z) (t : Q) (md : Z)
    (samples : list Q) :
  3 <= B ->
  let d := state_of (run B t md None None samples) in
  let n := Z.of_nat (length samples) in
  fst <$> get_peaks d
  = Batch._enforce_min_distance
      (fst <$> filter (fun pk => due B n pk) (stream_candidates t samples)) md
  /\ (fst <$> get_peaks d)
     `prefix_of`
     fst (Batch.detect_peaks (Batch.__init__ samples t md None None)).
Proof.
  intros HB d n. subst d n. unfold run, __init__, get_peaks.
  set (d0 := fresh B t md None None (replicate (Z.to_nat B) 0%Q)).
  assert (Hwf0 : wf d0)
    by (apply wf_fresh; [lia|]; rewrite length_replicate; lia).
  assert (Heq : fst <$> confirmed_peaks (state_of (ingest d0 samples))
                = Spec.distance_filter md
                    (fst <$> filter (fun pk => due B (Z.of_nat (length samples)) pk)
                               (stream_candidates t samples))).
  { rewrite (greedy_ingest samples d0 []);
      [done..| apply holds_recent_fresh | done | apply ordered_fresh
      | done | done | apply tracks_fresh | done]. }
  split.
  - rewrite enforce_min_distance_spec. exact Heq.
  - rewrite Heq. cbn [fst Batch.detect_peaks].
    rewrite enforce_min_distance_spec.
    change (Batch.min_distance (Batch.__init__ samples t md None None))
      with md.
    rewrite <- (stream_candidates_positions t md None None samples).
    rewrite (due_prefix B (Z.of_nat (length samples)) t samples) at 2.
    rewrite fmap_app. apply distance_filter_prefix.
Qed.

Lemma X19_streaming_is_prefix_of_batch_witness :
  (fst <$> get_peaks (state_of (run 10 0 3 None None early_spike_full)))
  `prefix_of`
  fst (Batch.detect_peaks (Batch.__init__ early_spike_full 0 3 None None)).
Proof.
  destruct (X19_streaming_is_prefix_of_batch 10 0%Q 3 early_spike_full)
    as [_ H]; [lia|exact H].
Defined.

(** * The confirmation check of the streaming detector *)

Lemma truthy_Z_true (z : Z) : truthy_Z z = true <-> z <> 0.
Proof. unfold truthy_Z. rewrite negb_true_iff. apply Z.eqb_neq. Qed.

Lemma distance_check_fails_iff (d : PeakDetectorSingleSample) (pk : peak_t) :
  distance_check_fails d pk = true
  <-> min_distance d <> 0
      /\ exists l, last (confirmed_peaks d) = Some l
                   /\ fst pk - fst l < min_distance d.
Proof.
  unfold distance_check_fails. rewrite andb_true_iff, truthy_Z_true.
  destruct (last (confirmed_peaks d)) as [l|].
  - rewrite Z.ltb_lt. split.
    + intros [? ?]. split; [done|]. now exists l.
    + intros [? (l' & [= <-] & ?)]. done.
  - split; [now intros [_ ?]|]. now intros [_ (l' & ? & _)].
Qed.

Lemma width_check_fails_iff (d : PeakDetectorSingleSample) (pk : peak_t) :
  width_check_fails d pk = true
  <-> exists w, width d = Some w /\ ~ (w == 0)%Q
                /\ (inject_Z (_calculate_width d pk) < w)%Q.
Proof.
  unfold width_check_fails. destruct (width d) as [w|].
  - rewrite andb_true_iff, truthy_Q_true, Qltb_lt. split.
    + intros [? ?]. now exists w.
    + intros (w' & [= <-] & ? & ?). done.
  - split; [done|]. now intros (w' & ? & _).
Qed.



(** * Resolution of pending candidates *)

(** The candidate test keeps the queue and appends at most the candidate at
    the position before the new sample. *)
Lemma checked_queue (d : PeakDetectorSingleSample) (sample : Q) :
  exists found,
    potential_peaks (checked d sample) = potential_peaks d ++ found
    /\ (found = [] \/ exists v, found = [(sample_count d + 1 - 2, v)]).
Proof.
  destruct (checked_fields d sample)
    as (_ & _ & _ & _ & _ & _ & _ & _ & _ & [Hpot|[_ Hpot]]).
  - exists []. rewrite app_nil_r. split; [done|now left].
  - eexists. split; [exact Hpot|]. right. now eexists.
Qed.

(** The resolution phase keeps exactly the candidates that are not due. *)
Lemma processed_pending_exact (d : PeakDetectorSingleSample) (sample : Q) :
  potential_peaks (processed d sample)
  = filter (fun pk => negb (due (buffer_size d) (sample_count d + 1) pk))
      (potential_peaks (checked d sample)).
Proof.
  destruct (checked_fields d sample)
    as (HB2 & _ & _ & _ & _ & _ & _ & _ & Hn2 & _).
  destruct (processed_fields d sample)
    as (_ & _ & _ & _ & _ & _ & _ & _ & [[Hsmall ->]|(Hfull & _ & ->)]).
  - symmetry. apply filter_all. intros pk _. apply Is_true_true. unfold due.
    replace (buffer_size d <=? sample_count d + 1) with false
      by (symmetry; apply Z.leb_gt; lia).
    done.
  - apply list_filter_iff. intros pk.
    rewrite is_old_due; rewrite HB2, Hn2; [done|lia].
Qed.

(** It confirms only candidates that are due, in queue order. *)
Lemma processed_confirmed_due (d : PeakDetectorSingleSample) (sample : Q) :
  exists new,
    confirmed_peaks (processed d sample) = confirmed_peaks d ++ new
    /\ new `sublist_of`
       filter (fun pk => due (buffer_size d) (sample_count d + 1) pk)
         (potential_peaks (checked d sample)).
Proof.
  destruct (checked_fields d sample)
    as (HB2 & _ & _ & _ & _ & _ & _ & Hc2 & Hn2 & _).
  destruct (processed_fields d sample)
    as (_ & _ & _ & _ & _ & _ & _ & _ & [[Hsmall ->]|(Hfull & -> & _)]).
  - exists []. rewrite app_nil_r. split; [done|apply sublist_nil_l].
  - destruct (confirm_fold_extends (checked d sample)
                (filter (fun pk => is_old (checked d sample) pk)
                        (potential_peaks (checked d sample)))
                (confirmed_peaks (checked d sample))) as (new & -> & Hsub).
    exists new. rewrite Hc2. split; [done|].
    rewrite (list_filter_iff _
               (fun pk => is_old (checked d sample) pk)); [done|].
    intros pk. rewrite is_old_due; rewrite HB2, Hn2; [done|lia].
Qed.

Lemma add_sample_Ok_processed (d : PeakDetectorSingleSample) (sample : Q)
    (d' : PeakDetectorSingleSample) :
  add_sample d sample = Ok d' -> d' = processed d sample.
Proof.
  intros Hok.
  destruct (add_sample_cases d sample) as [H|(e & d'' & H & _)];
    rewrite H in Hok; [now injection Hok|discriminate].
Qed.

Lemma due_mono (B n m : Z) (pk : peak_t) :
  n <= m -> due B n pk = true -> due B m pk = true.
Proof. unfold due. lia. Qed.

(** Through any further successful calls a queued candidate stays queued as
    long as it is not due, and is gone once it is. *)
Lemma pending_through_ingest (samples : list Q) :
  forall d d' pk,
    samples <> [] ->
    ingest d samples = Ok d' ->
    (pk ∈ potential_peaks d' ->
     due (buffer_size d) (sample_count d + Z.of_nat (length samples)) pk
     = false)
    /\ (pk ∈ potential_peaks d ->
        due (buffer_size d) (sample_count d + Z.of_nat (length samples)) pk
        = false ->
        pk ∈ potential_peaks d').
Proof.
  induction samples as [|sample rest IH]; intros d d' pk Hne Hrun; [done|].
  cbn [ingest] in Hrun.
  destruct (add_sample d sample) as [d1|e d1] eqn:Hadd; [|discriminate].
  apply add_sample_Ok_processed in Hadd. subst d1.
  pose proof (processed_pending_exact d sample) as Hpend.
  destruct (checked_queue d sample) as (found & Hq & _).
  pose proof (processed_sample_count d sample) as Hn.
  pose proof (processed_buffer_size d sample) as HB.
  cbn [length].
  replace (sample_count d + Z.of_nat (S (length rest)))
    with (sample_count d + 1 + Z.of_nat (length rest)) by lia.
  destruct rest as [|s2 rest'].
  - cbn [ingest] in Hrun. injection Hrun as <-. cbn [length].
    rewrite Z.add_0_r, Hpend. split.
    + intros [Hd _]%list_elem_of_filter.
      apply negb_True in Hd.
      destruct (due (buffer_size d) (sample_count d + 1) pk);
        [exfalso; apply Hd; exact I|reflexivity].
    + intros Hin Hd. apply list_elem_of_filter. split.
      * rewrite Hd. done.
      * rewrite Hq. apply elem_of_app. now left.
  - destruct (IH (processed d sample) d' pk ltac:(done) Hrun) as [H1 H2].
    rewrite HB, Hn in H1, H2. split; [exact H1|].
    intros Hin Hd. apply H2; [|exact Hd].
    rewrite Hpend. apply list_elem_of_filter. split.
    + destruct (due (buffer_size d) (sample_count d + 1) pk) eqn:Hd1; [|done].
      rewrite (due_mono _ (sample_count d + 1) _ pk) in Hd; [done|lia|done].
    + rewrite Hq. apply elem_of_app. now left.
Qed.

(** C3, as the code has it.  A successful [add_sample] that brings the
    counter to [n] keeps the queue and appends at most the candidate at
    position [n - 2]; the queue it leaves is exactly the candidates of that
    queue that are not due, a candidate being due when both
    [n >= buffer_size] and [n - position >= buffer_size // 2]; and the peaks
    it appends to the confirmed list are taken, in order, from the due ones.
    Hence, over any further successful calls, a queued candidate is still
    queued iff it is not due at the latest count: it leaves the queue at
    exactly the first ingestion at which the window has filled and its age
    has reached [buffer_size // 2], and is never confirmed before. *)
Theorem C3_resolution_time :
  (forall (d : PeakDetectorSingleSample) (sample : Q)
          (d' : PeakDetectorSingleSample),
     add_sample d sample = Ok d' ->
     let n := sample_count d' in
     let B := buffer_size d' in
     n = sample_count d + 1 /\ B = buffer_size d
     /\ (exists found,
           potential_peaks (checked d sample) = potential_peaks d ++ found
           /\ (found = [] \/ exists v, found = [(n - 2, v)]))
     /\ potential_peaks d'
        = filter (fun pk => negb (due B n pk))
            (potential_peaks (checked d sample))
     /\ (exists new,
           confirmed_peaks d' = confirmed_peaks d ++ new
           /\ new `sublist_of`
              filter (fun pk => due B n pk)
                (potential_peaks (checked d sample))))
  /\ (forall (d : PeakDetectorSingleSample) (samples : list Q)
             (d' : PeakDetectorSingleSample) (pk : peak_t),
        samples <> [] ->
        ingest d samples = Ok d' ->
        pk ∈ potential_peaks d ->
        (pk ∈ potential_peaks d'
         <-> due (buffer_size d)
               (sample_count d + Z.of_nat (length samples)) pk = false)).
Proof.
  split.
  - intros d sample d' Hok n B. subst n B.
    apply add_sample_Ok_processed in Hok. subst d'.
    rewrite processed_sample_count, processed_buffer_size.
    split; [done|]. split; [done|].
    split; [apply checked_queue|].
    split; [apply processed_pending_exact|apply processed_confirmed_due].
  - intros d samples d' pk Hne Hrun Hin.
    destruct (pending_through_ingest samples d d' pk Hne Hrun) as [H1 H2].
    split; [exact H1|now apply H2].
Qed.

Lemma C3_resolution_time_witness :
  (1, 1%Q) ∈ potential_peaks (state_of (ingest six_samples_in [0; 0; 0]%Q))
  /\ ~ (1, 1%Q)
       ∈ potential_peaks (state_of (ingest six_samples_in [0; 0; 0; 0]%Q))
  /\ exists new,
       confirmed_peaks (processed (state_of (ingest six_samples_in [0; 0; 0]%Q))
                          0%Q)
       = confirmed_peaks (state_of (ingest six_samples_in [0; 0; 0]%Q)) ++ new.
Proof.
  destruct C3_resolution_time as [Hstep Hrun].
  remember six_samples_in as d eqn:Hd.
  assert (Hin : (1, 1%Q) ∈ potential_peaks d).
  { replace (potential_peaks d) with [(1, 1%Q)]
      by (rewrite Hd; vm_compute; reflexivity).
    constructor. }
  remember (state_of (ingest d [0; 0; 0]%Q)) as d9 eqn:Hd9.
  remember (state_of (ingest d [0; 0; 0; 0]%Q)) as d10 eqn:Hd10.
  assert (H9 : ingest d [0; 0; 0]%Q = Ok d9)
    by (rewrite Hd9, Hd; vm_compute; reflexivity).
  assert (H10 : ingest d [0; 0; 0; 0]%Q = Ok d10)
    by (rewrite Hd10, Hd; vm_compute; reflexivity).
  assert (Hadd : add_sample d9 0%Q = Ok (processed d9 0%Q))
    by (rewrite Hd9, Hd; vm_compute; reflexivity).
  split; [|split].
  - apply (Hrun d [0; 0; 0]%Q d9 (1, 1%Q) ltac:(done) H9 Hin).
    rewrite Hd. vm_compute. reflexivity.
  - intros Hq.
    apply (Hrun d [0; 0; 0; 0]%Q d10 (1, 1%Q) ltac:(done) H10 Hin) in Hq.
    rewrite Hd in Hq. vm_compute in Hq. discriminate Hq.
  - destruct (Hstep d9 0%Q (processed d9 0%Q) Hadd)
      as (_ & _ & _ & _ & new & Hnew & _).
    exists new. exact Hnew.
Defined.

(** * Construction, and what the methods accept *)

(** On an empty buffer the item assignment raises, after the counter
    increment alone. *)
Lemma add_sample_empty_buffer (d : PeakDetectorSingleSample) (sample : Q) :
  buffer d = [] ->
  add_sample d sample
  = Raise IndexError (set_sample_count d (sample_count d + 1)).
Proof.
  intros Hb. unfold add_sample. cbn [buffer_index buffer set_sample_count].
  rewrite Hb. cbn [length].
  destruct (0 <=? buffer_index d) eqn:H0; [|reflexivity].
  replace (buffer_index d <? Z.of_nat 0) with false
    by (symmetry; apply Z.ltb_ge; lia).
  reflexivity.
Qed.

Lemma attempts_empty_buffer (samples : list Q) :
  forall d, buffer d = [] -> buffer (attempts d samples) = [].
Proof.
  unfold attempts.
  induction samples as [|sample rest IH]; intros d Hb; [exact Hb|].
  cbn [foldl]. apply IH. rewrite add_sample_empty_buffer by exact Hb.
  exact Hb.
Qed.

Section AnyNumberFacts.
Context {num : Type} (O : AnyNumber.number_ops num).

(** Objects with the same window layout are well formed together. *)
Lemma any_wf_frame (d e : AnyNumber.PeakDetectorSingleSample num) :
  AnyNumber.buffer_size e = AnyNumber.buffer_size d ->
  AnyNumber.buffer e = AnyNumber.buffer d ->
  AnyNumber.buffer_index e = AnyNumber.buffer_index d ->
  AnyNumber.wf d -> AnyNumber.wf e.
Proof. unfold AnyNumber.wf. intros -> -> ->. done. Qed.

Lemma any_check_frame (d : AnyNumber.PeakDetectorSingleSample num) :
  AnyNumber.buffer_size (AnyNumber._check_potential_peak O d)
  = AnyNumber.buffer_size d
  /\ AnyNumber.buffer (AnyNumber._check_potential_peak O d)
     = AnyNumber.buffer d
  /\ AnyNumber.buffer_index (AnyNumber._check_potential_peak O d)
     = AnyNumber.buffer_index d.
Proof.
  unfold AnyNumber._check_potential_peak. cbn zeta.
  destruct (_ && _); done.
Qed.

Lemma any_process_fold_frame (l : list (Z * num)) :
  forall st : AnyNumber.PeakDetectorSingleSample num * list (Z * num),
    AnyNumber.buffer_size (fst (foldl (AnyNumber.process_step O) st l))
    = AnyNumber.buffer_size (fst st)
    /\ AnyNumber.buffer (fst (foldl (AnyNumber.process_step O) st l))
       = AnyNumber.buffer (fst st)
    /\ AnyNumber.buffer_index (fst (foldl (AnyNumber.process_step O) st l))
       = AnyNumber.buffer_index (fst st).
Proof.
  induction l as [|pk l IH]; intros st; [done|].
  cbn [foldl].
  destruct (IH (AnyNumber.process_step O st pk)) as (H1 & H2 & H3).
  rewrite H1, H2, H3. destruct st as [d npp].
  unfold AnyNumber.process_step.
  destruct (_ >=? _); [destruct (AnyNumber._check_peak_validity O d pk)|];
    done.
Qed.

Lemma any_process_frame (d : AnyNumber.PeakDetectorSingleSample num) :
  AnyNumber.buffer_size (AnyNumber._process_potential_peaks O d)
  = AnyNumber.buffer_size d
  /\ AnyNumber.buffer (AnyNumber._process_potential_peaks O d)
     = AnyNumber.buffer d
  /\ AnyNumber.buffer_index (AnyNumber._process_potential_peaks O d)
     = AnyNumber.buffer_index d.
Proof.
  unfold AnyNumber._process_potential_peaks.
  pose proof (any_process_fold_frame (AnyNumber.potential_peaks d) (d, []))
    as H.
  destruct (foldl _ _ _) as [d' npp]. exact H.
Qed.

(** On a well-formed object [add_sample] returns, whatever the sample. *)
Lemma any_add_sample_ok (d : AnyNumber.PeakDetectorSingleSample num)
    (sample : num) :
  AnyNumber.wf d ->
  exists d', AnyNumber.add_sample O d sample = AnyNumber.Ok d'
             /\ AnyNumber.wf d'.
Proof.
  intros (HB & Hlen & Hi). unfold AnyNumber.add_sample.
  cbn [AnyNumber.buffer_index AnyNumber.buffer AnyNumber.set_sample_count].
  replace (0 <=? AnyNumber.buffer_index d) with true
    by (symmetry; apply Z.leb_le; lia).
  replace (AnyNumber.buffer_index d <? Z.of_nat (length (AnyNumber.buffer d)))
    with true by (symmetry; apply Z.ltb_lt; lia).
  cbn [andb AnyNumber.buffer_size AnyNumber.set_buffer
       AnyNumber.set_sample_count].
  replace (AnyNumber.buffer_size d =? 0) with false
    by (symmetry; apply Z.eqb_neq; lia).
  eexists. split; [reflexivity|].
  set (d1 := AnyNumber.set_buffer_index _ _).
  assert (Hwf1 : AnyNumber.wf d1).
  { unfold AnyNumber.wf, d1.
    cbn [AnyNumber.buffer_size AnyNumber.buffer AnyNumber.buffer_index
         AnyNumber.set_buffer_index AnyNumber.set_buffer
         AnyNumber.set_sample_count].
    rewrite length_insert. split; [lia|]. split; [lia|].
    apply Z.mod_pos_bound. lia. }
  set (d2 := if AnyNumber.sample_count d1 >=? 3
             then AnyNumber._check_potential_peak O d1 else d1).
  assert (Hwf2 : AnyNumber.wf d2).
  { unfold d2. destruct (AnyNumber.sample_count d1 >=? 3); [|exact Hwf1].
    destruct (any_check_frame d1) as (H1 & H2 & H3).
    exact (any_wf_frame d1 _ H1 H2 H3 Hwf1). }
  destruct (AnyNumber.sample_count d2 >=? AnyNumber.buffer_size d2);
    [|exact Hwf2].
  destruct (any_process_frame d2) as (H1 & H2 & H3).
  exact (any_wf_frame d2 _ H1 H2 H3 Hwf2).
Qed.

Lemma any_ingest_ok (samples : list num) :
  forall d, AnyNumber.wf d ->
            exists d', AnyNumber.ingest O d samples = AnyNumber.Ok d'
                       /\ AnyNumber.wf d'.
Proof.
  induction samples as [|sample rest IH]; intros d Hwf; cbn [AnyNumber.ingest].
  - now exists d.
  - destruct (any_add_sample_ok d sample Hwf) as (d1 & -> & Hwf1).
    apply IH, Hwf1.
Qed.

Lemma any_run_ok (B : Z) (t : num) (md : Z) (p w : option num)
    (samples : list num) :
  1 <= B ->
  exists d', AnyNumber.run O B t md p w samples = AnyNumber.Ok d'.
Proof.
  intros HB. unfold AnyNumber.run, AnyNumber.__init__.
  destruct (any_ingest_ok samples
              {| AnyNumber.buffer_size := B; AnyNumber.threshold := t;
                 AnyNumber.min_distance := md; AnyNumber.prominence := p;
                 AnyNumber.width := w;
                 AnyNumber.buffer :=
                   replicate (Z.to_nat B) (AnyNumber.zero O);
                 AnyNumber.buffer_index := 0;
                 AnyNumber.potential_peaks := [];
                 AnyNumber.confirmed_peaks := [];
                 AnyNumber.sample_count := 0 |}) as (d' & Hd' & _);
    [|eauto].
  unfold AnyNumber.wf.
  cbn [AnyNumber.buffer_size AnyNumber.buffer AnyNumber.buffer_index].
  rewrite length_replicate. lia.
Qed.

(** Whether [add_sample] returns or raises does not depend on the sample. *)
Lemma any_add_sample_returned (d : AnyNumber.PeakDetectorSingleSample num)
    (s1 s2 : num) :
  AnyNumber.returned (AnyNumber.add_sample O d s1)
  = AnyNumber.returned (AnyNumber.add_sample O d s2).
Proof.
  unfold AnyNumber.add_sample.
  cbn [AnyNumber.buffer_index AnyNumber.buffer AnyNumber.set_sample_count].
  destruct (_ && _); [|reflexivity].
  cbn [AnyNumber.buffer_size AnyNumber.set_buffer AnyNumber.set_sample_count].
  destruct (AnyNumber.buffer_size d =? 0); reflexivity.
Qed.

End AnyNumberFacts.

(** At the rational operations the methods over any number are those of the
    rational embedding. *)
Lemma any_process_step_refines (d : PeakDetectorSingleSample)
    (npp : list peak_t) (pk : peak_t) :
  AnyNumber.process_step rational_ops (to_any d, npp) pk
  = (to_any (fst (process_step (d, npp) pk)), snd (process_step (d, npp) pk)).
Proof.
  unfold AnyNumber.process_step, process_step.
  change (AnyNumber.sample_count (to_any d)) with (sample_count d).
  change (AnyNumber.buffer_size (to_any d)) with (buffer_size d).
  change (AnyNumber._check_peak_validity rational_ops (to_any d) pk)
    with (_check_peak_validity d pk).
  destruct (_ >=? _); [destruct (_check_peak_validity d pk)|]; reflexivity.
Qed.

Lemma any_process_fold_refines (l : list peak_t) :
  forall (d : PeakDetectorSingleSample) (npp : list peak_t),
    foldl (AnyNumber.process_step rational_ops) (to_any d, npp) l
    = (to_any (fst (foldl process_step (d, npp) l)),
       snd (foldl process_step (d, npp) l)).
Proof.
  induction l as [|pk l IH]; intros d npp; [reflexivity|].
  cbn [foldl]. rewrite any_process_step_refines.
  destruct (process_step (d, npp) pk) as [d1 npp1]. apply IH.
Qed.

Lemma any_process_refines (d : PeakDetectorSingleSample) :
  AnyNumber._process_potential_peaks rational_ops (to_any d)
  = to_any (_process_potential_peaks d).
Proof.
  unfold AnyNumber._process_potential_peaks, _process_potential_peaks.
  change (AnyNumber.potential_peaks (to_any d)) with (potential_peaks d).
  pose proof (any_process_fold_refines (potential_peaks d) d []) as H.
  destruct (foldl process_step (d, []) (potential_peaks d)) as [d1 npp1].
  cbn [fst snd] in H.
  exact (f_equal
           (fun st : AnyNumber.PeakDetectorSingleSample Q * list (Z * Q) =>
              let (d', new_potential_peaks) := st in
              AnyNumber.set_potential_peaks d' new_potential_peaks) H).
Qed.

Lemma any_check_refines (d : PeakDetectorSingleSample) :
  AnyNumber._check_potential_peak rational_ops (to_any d)
  = to_any (_check_potential_peak d).
Proof.
  unfold AnyNumber._check_potential_peak, _check_potential_peak. cbn zeta.
  change (AnyNumber.gt rational_ops) with Qgtb.
  change (AnyNumber.add rational_ops) with Qplus.
  change (AnyNumber.getitem rational_ops) with getitem.
  change (AnyNumber.buffer (to_any d)) with (buffer d).
  change (AnyNumber.buffer_index (to_any d)) with (buffer_index d).
  change (AnyNumber.buffer_size (to_any d)) with (buffer_size d).
  change (AnyNumber.threshold (to_any d)) with (threshold d).
  destruct (_ && _); reflexivity.
Qed.

Lemma any_add_sample_refines (d : PeakDetectorSingleSample) (sample : Q) :
  AnyNumber.add_sample rational_ops (to_any d) sample
  = to_any_result (add_sample d sample).
Proof.
  unfold AnyNumber.add_sample, add_sample.
  cbn [AnyNumber.buffer_index AnyNumber.buffer AnyNumber.set_sample_count
       to_any buffer_index buffer set_sample_count].
  destruct (_ && _); [|reflexivity].
  cbn [AnyNumber.buffer_size AnyNumber.set_buffer AnyNumber.set_sample_count
       buffer_size set_buffer set_sample_count].
  change (AnyNumber.buffer_size (to_any d)) with (buffer_size d).
  destruct (buffer_size d =? 0); [reflexivity|].
  cbn [to_any_result]. f_equal.
  set (e1 := AnyNumber.set_buffer_index _ _).
  set (d1 := set_buffer_index _ _).
  change e1 with (to_any d1). clearbody d1. clear e1.
  change (AnyNumber.sample_count (to_any d1)) with (sample_count d1).
  set (e2 := if sample_count d1 >=? 3
             then AnyNumber._check_potential_peak rational_ops (to_any d1)
             else to_any d1).
  set (d2 := if sample_count d1 >=? 3 then _check_potential_peak d1 else d1).
  assert (He2 : e2 = to_any d2).
  { unfold e2, d2. destruct (sample_count d1 >=? 3); [|reflexivity].
    apply any_check_refines. }
  rewrite He2. clearbody d2. clear e2 He2.
  change (AnyNumber.sample_count (to_any d2)) with (sample_count d2).
  change (AnyNumber.buffer_size (to_any d2)) with (buffer_size d2).
  destruct (sample_count d2 >=? buffer_size d2); [|reflexivity].
  apply any_process_refines.
Qed.

Lemma any_ingest_refines (samples : list Q) :
  forall d : PeakDetectorSingleSample,
    AnyNumber.ingest rational_ops (to_any d) samples
    = to_any_result (ingest d samples).
Proof.
  induction samples as [|sample rest IH]; intros d; [reflexivity|].
  cbn [AnyNumber.ingest ingest]. rewrite any_add_sample_refines.
  destruct (add_sample d sample) as [d1|e d1]; [apply IH|reflexivity].
Qed.




(** * The batch width, whatever the half height *)

(** X8.  The batch width is the distance between the stops of the two scans
    run against [half_height].  Whatever value [half_height] has, for an
    index of the signal that distance lies between 0 and [len(signal) - 1];
    it is 0 when the sample at the index is not above [half_height], and at
    least 2 for an interior index whose sample is above it. *)
Theorem X8_batch_width_bounds (d : Batch.PeakDetector) (peak : Z) :
  0 <= peak < Batch.len d ->
  Batch._calculate_width d peak
  = width_at_half_height d peak
      ((getitem (Batch.signal d) peak + Batch.threshold d) / 2)%Q
  /\ forall half_height : Q,
       0 <= width_at_half_height d peak half_height <= Batch.len d - 1
       /\ (Qgtb (getitem (Batch.signal d) peak) half_height = false ->
           width_at_half_height d peak half_height = 0)
       /\ (Qgtb (getitem (Batch.signal d) peak) half_height = true ->
           1 <= peak < Batch.len d - 1 ->
           2 <= width_at_half_height d peak half_height).
Proof.
  intros Hpk. split; [reflexivity|]. intros half.
  unfold width_at_half_height.
  set (condl := fun left_idx =>
         (0 <? left_idx) && Qgtb (getitem (Batch.signal d) left_idx) half).
  set (condr := fun right_idx =>
         (right_idx <? Batch.len d - 1)
         && Qgtb (getitem (Batch.signal d) right_idx) half).
  set (n := length (Batch.signal d)).
  assert (Hn : (1 <= n)%nat) by (unfold Batch.len in Hpk; subst n; lia).
  assert (HL : forall fuel s, 0 <= s <= peak ->
             0 <= while_loop fuel condl (fun i => i - 1) s <= peak).
  { intros fuel s. apply (while_loop_inv (fun s => 0 <= s <= peak)).
    intros s' Hs' [H0 _]%andb_true_iff. lia. }
  assert (HR : forall fuel s, peak <= s <= Batch.len d - 1 ->
             peak <= while_loop fuel condr (fun i => i + 1) s
             <= Batch.len d - 1).
  { intros fuel s.
    apply (while_loop_inv (fun s => peak <= s <= Batch.len d - 1)).
    intros s' Hs' [H0 _]%andb_true_iff. lia. }
  split; [|split].
  - specialize (HL n peak ltac:(lia)). specialize (HR n peak ltac:(lia)). lia.
  - intros Hh.
    rewrite !while_loop_skip; [lia| |]; subst condl condr; simpl;
      rewrite Hh; apply andb_false_r.
  - intros Hh Hin.
    destruct n as [|n']; [lia|]. simpl.
    replace (condl peak) with true
      by (subst condl; simpl; rewrite Hh; symmetry; apply andb_true_iff;
          split; [lia|done]).
    replace (condr peak) with true
      by (subst condr; simpl; rewrite Hh; symmetry; apply andb_true_iff;
          split; [lia|done]).
    assert (HL' : while_loop n' condl (fun i => i - 1) (peak - 1) <= peak - 1).
    { apply (while_loop_inv (fun s => s <= peak - 1)); [|lia].
      intros s' Hs' _. lia. }
    assert (HR' : peak + 1 <= while_loop n' condr (fun i => i + 1) (peak + 1)).
    { apply (while_loop_inv (fun s => peak + 1 <= s)); [|lia].
      intros s' Hs' _. lia. }
    lia.
Qed.

Lemma X8_batch_width_bounds_witness :
  0 <= Batch._calculate_width ridge_detector 2 <= Batch.len ridge_detector - 1.
Proof.
  destruct (X8_batch_width_bounds ridge_detector 2) as [Heq Hall].
  - unfold Batch.len. simpl. lia.
  - rewrite Heq. exact (proj1 (Hall _)).
Defined.
